(** * aqua_go: order lifecycle and effective pricing

    A shallow embedding of the handlers of [main.go] that make up the
    pricing and order subsystem, and the properties the specification
    states about them.

    Conventions of the embedding.
    - A table is the list of its rows, in insertion order.  A query is a
      function on those lists ([WHERE] is [filter], [LEFT JOIN] is
      [LEFT_JOIN], [ORDER BY] is a sort, [LIMIT] is [take]).
    - [QueryRow(...).Scan] reads the first row of the result, or fails
      with [sql.ErrNoRows]: [head] of the result.
    - A handler is a function from the request and the database to the
      HTTP response and the database after the request.  A transaction
      [tx] is a working copy of the database: [tx.Commit()] returns it,
      the deferred [tx.Rollback()] of an early [return] gives back the
      database the handler started from.
    - A [DECIMAL(10,2)] amount is the integer number of its hundredths,
      and so is a [float64] that only carries one (a binary64 tells
      apart all amounts of up to 15 digits): a price scanned from a
      table and returned, or written back, as it is.  A [float64] the
      code computes with (the subtotal of [createOrderHandler]), or
      that takes a product or a sum the server computes (a line total),
      is a binary64 number, with the arithmetic of IEEE 754 in its
      default rounding (to nearest, ties to even).
    - [NOW()] and the column default [CURRENT_TIMESTAMP] are the
      handler's [now] argument.
    - An [AUTO_INCREMENT] key is a counter kept with its table.
    - Connection or driver failures ([err != nil] of a statement that is
      well formed) are not part of the model; the refusal of a price
      that does not fit the column the migration declares for it is.
    - Requests are served one after another: the row locks of
      [SELECT ... FOR UPDATE] and the interleaving of transactions are
      not part of the model.
    - A path or query parameter that carries an id is the integer it
      denotes; an empty query parameter is [None]; a request body that
      [BindJSON] refuses is [None]. *)

From stdpp Require Import base numbers list strings gmap sorting pretty.
From Stdlib Require SpecFloat.

Local Open Scope Z_scope.

Definition decimal := Z.
Definition time := Z.

(** ** [float64] *)

(** Go's [float64]: IEEE 754 binary64 (53 bits of precision, exponents
    up to 1024), with the operations of [SpecFloat], the standard
    library's specification of binary floating point ([NaN] without
    payload). *)
Definition float64 := SpecFloat.spec_float.

Global Instance float64_eq_dec : EqDecision float64.
Proof. solve_decision. Defined.

(** The literal [0.0]. *)
Definition float64_0 : float64 := SpecFloat.S754_zero false.

(** [x + y] and [x * y] *)
Definition fadd : float64 → float64 → float64 := SpecFloat.SFadd 53 1024.
Definition fmul : float64 → float64 → float64 := SpecFloat.SFmul 53 1024.

(** The conversion [float64(n)] of an [int]: the nearest binary64. *)
Definition float64_of_int (n : Z) : float64 :=
  SpecFloat.binary_normalize 53 1024 n 0 false.

(** [Scan] of a [DECIMAL] column into a [float64]: the driver hands over
    the decimal text and [database/sql] parses it, to the binary64
    nearest to [d / 100].  [SFdiv] rounds the quotient of the two
    integers once, whatever their size. *)
Definition to_float64 (d : decimal) : float64 :=
  match d with
  | 0 => float64_0
  | Zpos m =>
      SpecFloat.SFdiv 53 1024 (SpecFloat.S754_finite false m 0)
                      (SpecFloat.S754_finite false 100 0)
  | Zneg m =>
      SpecFloat.SFdiv 53 1024 (SpecFloat.S754_finite true m 0)
                      (SpecFloat.S754_finite false 100 0)
  end.

Global Arguments fadd : simpl never.
Global Arguments fmul : simpl never.
Global Arguments float64_of_int : simpl never.
Global Arguments to_float64 : simpl never.

(** ** Go structs (the JSON shapes of [main.go]) *)

Module Product.
Record t := mk {
  ID : Z; Name : string; CapacityLiters : option decimal;
  Price : decimal; IsActive : bool }.
End Product.

Module CustomerPrice.
Record t := mk {
  CustomerID : Z; ProductID : Z; Price : decimal; IsActive : bool }.
End CustomerPrice.

Module UpsertCustomerPriceReq.
Record t := mk {
  CustomerID : Z; ProductID : Z; Price : decimal; IsActive : option bool }.
End UpsertCustomerPriceReq.

Module OrderItemReq.
Record t := mk { ProductID : Z; Qty : Z }.
End OrderItemReq.

Module Order.
Record t := mk {
  ID : Z; CustomerID : Z; AddressID : Z; AssignedDriverID : option Z;
  Status : string; Subtotal : float64; DeliveryFee : float64;
  Total : float64; Notes : option string; ScheduledAt : option time;
  DeliveredAt : option time; CreatedAt : option time }.
End Order.

Module OrderItem.
Record t := mk {
  ID : Z; OrderID : Z; ProductID : Z; Qty : Z; UnitPrice : decimal;
  LineTotal : float64; ProductName : string; Capacity : option decimal }.
End OrderItem.

Module OrderWithItems.
Record t := mk { Order : Order.t; Items : list OrderItem.t }.
End OrderWithItems.

Module CreateUserReq.
Record t := mk {
  RoleID : Z; FullName : string; Phone : option string;
  Email : option string; NumDoc : option string; Password : string }.
End CreateUserReq.

Module UpdateUserReq.
Record t := mk {
  RoleID : Z; FullName : string; Phone : option string;
  Email : option string; NumDoc : option string;
  Password : option string; IsActive : option bool }.
End UpdateUserReq.

Module CreateProductReq.
Record t := mk {
  Name : string; CapacityLiters : option decimal; Price : decimal;
  IsActive : option bool }.
End CreateProductReq.

Module CreateOrderReq.
Record t := mk {
  CustomerID : Z; AddressID : Z; Items : list OrderItemReq.t;
  ScheduledAt : option time; Notes : option string }.
End CreateOrderReq.

Module AssignOrderReq.
Record t := mk { DriverID : Z }.
End AssignOrderReq.

Module UpdateStatusReq.
Record t := mk { NewStatus : string; Note : option string; ChangedBy : Z }.
End UpdateStatusReq.

(** ** Tables *)

(** Modelled from the spec: the repository declares the table
    [customer_product_prices] only.  The other tables have the columns
    the statements of [main.go] name, a generated [id] (the handlers
    read it back with [LastInsertId]), and a column an [INSERT] leaves
    out is [NULL], but for the time of creation of an order and of a
    history entry (section 3 of the specification), which is the
    current time.  A column holds the value the handler passes: a price
    is the [DECIMAL] read from the catalogue (section 3), while
    [subtotal] and [delivery_fee] of an order hold the [float64] that
    [createOrderHandler] computes. *)
Module users.
Record row := mk {
  id : Z; role_id : Z; full_name : string; phone : option string;
  email : option string; num_doc : option string;
  password_hash : string; is_active : bool }.
End users.

Module products.
Record row := mk {
  id : Z; name : string; capacity_liters : option decimal;
  price : decimal; is_active : bool }.
End products.

(** [migrations/001_customer_product_prices.sql];
    [PRIMARY KEY (customer_id, product_id)]. *)
Module customer_product_prices.
Record row := mk {
  customer_id : Z; product_id : Z; price : decimal; is_active : bool;
  created_at : time }.
Definition key (r : row) : Z * Z := (customer_id r, product_id r).
End customer_product_prices.

Module orders.
Record row := mk {
  id : Z; customer_id : Z; address_id : Z;
  assigned_driver_id : option Z; status : string; subtotal : float64;
  delivery_fee : float64; notes : option string;
  scheduled_at : option time; delivered_at : option time;
  created_at : option time }.
End orders.

Module order_items.
Record row := mk {
  id : Z; order_id : Z; product_id : Z; qty : Z; unit_price : decimal }.
End order_items.

Module order_status_history.
Record row := mk {
  id : Z; order_id : Z; old_status : option string; new_status : string;
  changed_by : Z; changed_at : option time; note : option string }.
End order_status_history.

(** The database [db]: every table with its [AUTO_INCREMENT] counter. *)
Record DB := mkDB {
  t_users : list users.row;
  next_user_id : Z;
  t_products : list products.row;
  next_product_id : Z;
  t_customer_product_prices : list customer_product_prices.row;
  t_orders : list orders.row;
  next_order_id : Z;
  t_order_items : list order_items.row;
  next_order_item_id : Z;
  t_order_status_history : list order_status_history.row;
  next_history_id : Z }.

Definition empty_db : DB := mkDB [] 1 [] 1 [] [] 1 [] 1 [] 1.

(** ** HTTP responses: [c.JSON(code, body)] *)

Inductive Body :=
| H_error (msg : string)            (* gin.H{"error": msg} *)
| H_ok                              (* gin.H{"ok": true} *)
| H_id (id : Z)                     (* gin.H{"id": id} *)
| H_order_id (order_id : Z)         (* gin.H{"order_id": orderID} *)
| B_products (items : list Product.t)
| B_customer_prices (list_ : list CustomerPrice.t)
| B_orders (out : list Order.t)
| B_order (o : OrderWithItems.t).

Record Response := JSON { code : Z; body : Body }.

Definition StatusOK : Z := 200.
Definition StatusCreated : Z := 201.
Definition StatusBadRequest : Z := 400.
Definition StatusNotFound : Z := 404.
Definition StatusInternalServerError : Z := 500.

(** ** SQL fragments *)

(** [l LEFT JOIN r ON on]: every row of [l] with each row of [r] that
    matches it, or once with [NULL] when none does. *)
Definition joined {A B} (a : A) (m : list B) : list (A * option B) :=
  match m with
  | [] => [(a, None)]
  | _ => (λ b, (a, Some b)) <$> m
  end.

Definition LEFT_JOIN {A B} (on : A → B → Prop) `{∀ a b, Decision (on a b)}
    (l : list A) (r : list B) : list (A * option B) :=
  a ← l; joined a (filter (on a) r).

(** [l JOIN r ON on] *)
Definition JOIN {A B} (on : A → B → Prop) `{∀ a b, Decision (on a b)}
    (l : list A) (r : list B) : list (A * B) :=
  a ← l; (λ b, (a, b)) <$> filter (on a) r.

Definition COALESCE {A} (x : option A) (d : A) : A := default d x.

(** ** Price resolver *)

(** The join shared by the price statements:
    [products p LEFT JOIN customer_product_prices cpp
       ON cpp.product_id = p.id AND cpp.customer_id = ? AND cpp.is_active = TRUE] *)
Definition products_with_override (tx : DB) (customerID : Z)
    : list (products.row * option customer_product_prices.row) :=
  LEFT_JOIN
    (λ p cpp, customer_product_prices.product_id cpp = products.id p
              ∧ customer_product_prices.customer_id cpp = customerID
              ∧ customer_product_prices.is_active cpp = true)
    (t_products tx) (t_customer_product_prices tx).

(** [COALESCE(cpp.price, p.price) AS price] *)
Definition price_column (r : products.row * option customer_product_prices.row)
    : decimal :=
  COALESCE (customer_product_prices.price <$> r.2) (products.price r.1).

(** [createOrderHandler], first loop (main.go 623-628): the point read
    [... WHERE p.id=? AND p.is_active=TRUE], scanned into [effPrice].
    [None] is the [err != nil] of [Scan] ([sql.ErrNoRows]). *)
Definition resolveEffectivePrice (tx : DB) (customerID productID : Z)
    : option decimal :=
  head (price_column <$>
        filter (λ r, products.id r.1 = productID ∧ products.is_active r.1 = true)
               (products_with_override tx customerID)).

(** [createOrderHandler], second loop (main.go 649-654): the same
    statement without the [p.is_active] condition, scanned into
    [unitPrice]. *)
Definition queryUnitPrice (tx : DB) (customerID productID : Z)
    : option decimal :=
  head (price_column <$>
        filter (λ r, products.id r.1 = productID)
               (products_with_override tx customerID)).

(** ** Sorting and record updates *)

(** [ORDER BY key] and [ORDER BY key DESC] on an integer column. *)
Definition asc {A} (key : A → Z) : relation A := λ a b, key a ≤ key b.
Definition desc {A} (key : A → Z) : relation A := λ a b, key b ≤ key a.

Global Instance asc_dec {A} (key : A → Z) : RelDecision (asc key).
Proof. intros a b. unfold asc. apply _. Defined.
Global Instance desc_dec {A} (key : A → Z) : RelDecision (desc key).
Proof. intros a b. unfold desc. apply _. Defined.

Definition ORDER_BY {A} (key : A → Z) (l : list A) : list A :=
  merge_sort (asc key) l.
Definition ORDER_BY_DESC {A} (key : A → Z) (l : list A) : list A :=
  merge_sort (desc key) l.

Definition set_users (t : list users.row) (n : Z) (db : DB) : DB :=
  mkDB t n (t_products db) (next_product_id db)
       (t_customer_product_prices db) (t_orders db) (next_order_id db)
       (t_order_items db) (next_order_item_id db)
       (t_order_status_history db) (next_history_id db).

Definition set_products (t : list products.row) (n : Z) (db : DB) : DB :=
  mkDB (t_users db) (next_user_id db) t n
       (t_customer_product_prices db) (t_orders db) (next_order_id db)
       (t_order_items db) (next_order_item_id db)
       (t_order_status_history db) (next_history_id db).

Definition set_customer_product_prices
    (t : list customer_product_prices.row) (db : DB) : DB :=
  mkDB (t_users db) (next_user_id db) (t_products db) (next_product_id db)
       t (t_orders db) (next_order_id db)
       (t_order_items db) (next_order_item_id db)
       (t_order_status_history db) (next_history_id db).

Definition set_orders (t : list orders.row) (n : Z) (db : DB) : DB :=
  mkDB (t_users db) (next_user_id db) (t_products db) (next_product_id db)
       (t_customer_product_prices db) t n
       (t_order_items db) (next_order_item_id db)
       (t_order_status_history db) (next_history_id db).

Definition set_order_items (t : list order_items.row) (n : Z) (db : DB) : DB :=
  mkDB (t_users db) (next_user_id db) (t_products db) (next_product_id db)
       (t_customer_product_prices db) (t_orders db) (next_order_id db)
       t n (t_order_status_history db) (next_history_id db).

Definition set_order_status_history
    (t : list order_status_history.row) (n : Z) (db : DB) : DB :=
  mkDB (t_users db) (next_user_id db) (t_products db) (next_product_id db)
       (t_customer_product_prices db) (t_orders db) (next_order_id db)
       (t_order_items db) (next_order_item_id db) t n.

(** [UPDATE t SET ... WHERE cond]: [set] on the rows that satisfy
    [cond]. *)
Definition UPDATE {A} (cond : A → Prop) `{∀ a, Decision (cond a)}
    (set : A → A) (t : list A) : list A :=
  (λ r, if decide (cond r) then set r else r) <$> t.

(** [RowsAffected()] of an [UPDATE]: MySQL counts the rows the statement
    changed (the DSN of [main.go] does not ask for found rows). *)
Definition RowsAffected {A} `{EqDecision A} (before after : list A) : Z :=
  Z.of_nat (length (filter (λ p : A * A, p.1 ≠ p.2) (zip before after))).

(** ** Products *)

Global Instance products_row_eq_dec : EqDecision products.row.
Proof. solve_decision. Defined.

Definition scanProduct (r : products.row * option customer_product_prices.row)
    : Product.t :=
  Product.mk (products.id r.1) (products.name r.1)
             (products.capacity_liters r.1) (price_column r)
             (products.is_active r.1).

(** [listProductsHandler]; [customerID] is [c.Query("customer_id")],
    [None] when it is empty.  With a customer it is the bulk read of the
    effective prices (main.go 270-278). *)
Definition listProductsHandler (customerID : option Z) (db : DB) : Response :=
  let rows :=
    match customerID with
    | Some cid =>
        ORDER_BY (λ r, products.id r.1)
          (filter (λ r, products.is_active r.1 = true)
                  (products_with_override db cid))
    | None =>
        (λ p, (p, None)) <$>
        ORDER_BY products.id
          (filter (λ p, products.is_active p = true) (t_products db))
    end in
  JSON StatusOK (B_products (scanProduct <$> rows)).

Definition createProductHandler (body : option CreateProductReq.t) (db : DB)
    : Response * DB :=
  match body with
  | None => (JSON StatusBadRequest (H_error "json inválido"), db)
  | Some req =>
      let active := default true (CreateProductReq.IsActive req) in
      let id := next_product_id db in
      (JSON StatusCreated (H_id id),
       set_products
         (t_products db ++
          [products.mk id (CreateProductReq.Name req)
             (CreateProductReq.CapacityLiters req)
             (CreateProductReq.Price req) active])
         (id + 1) db)
  end.

Definition updateProductHandler (id : Z) (body : option CreateProductReq.t)
    (db : DB) : Response * DB :=
  match body with
  | None => (JSON StatusBadRequest (H_error "json inválido"), db)
  | Some req =>
      let active := default true (CreateProductReq.IsActive req) in
      let t :=
        UPDATE (λ p, products.id p = id)
          (λ p, products.mk (products.id p) (CreateProductReq.Name req)
                  (CreateProductReq.CapacityLiters req)
                  (CreateProductReq.Price req) active)
          (t_products db) in
      let db' := set_products t (next_product_id db) db in
      if decide (RowsAffected (t_products db) t = 0)
      then (JSON StatusNotFound (H_error "producto no encontrado"), db')
      else (JSON StatusOK H_ok, db')
  end.

(** Logical delete: [UPDATE products SET is_active=FALSE WHERE id=?]. *)
Definition deleteProductHandler (id : Z) (db : DB) : Response * DB :=
  let t :=
    UPDATE (λ p, products.id p = id)
      (λ p, products.mk (products.id p) (products.name p)
              (products.capacity_liters p) (products.price p) false)
      (t_products db) in
  let db' := set_products t (next_product_id db) db in
  if decide (RowsAffected (t_products db) t = 0)
  then (JSON StatusNotFound (H_error "producto no encontrado"), db')
  else (JSON StatusOK H_ok, db').

(** ** Users *)

Global Instance users_row_eq_dec : EqDecision users.row.
Proof. solve_decision. Defined.

Definition createUserHandler (body : option CreateUserReq.t) (db : DB)
    : Response * DB :=
  match body with
  | None => (JSON StatusBadRequest (H_error "json inválido"), db)
  | Some req =>
      if decide (CreateUserReq.FullName req = ""
                 ∨ CreateUserReq.RoleID req = 0
                 ∨ CreateUserReq.Password req = "")
      then (JSON StatusBadRequest
              (H_error "full_name, role_id y password requeridos"), db)
      else
        let id := next_user_id db in
        (JSON StatusCreated (H_id id),
         set_users
           (t_users db ++
            [users.mk id (CreateUserReq.RoleID req)
               (CreateUserReq.FullName req) (CreateUserReq.Phone req)
               (CreateUserReq.Email req) (CreateUserReq.NumDoc req)
               (CreateUserReq.Password req) true])
           (id + 1) db)
  end.

Definition updateUserHandler (id : Z) (body : option UpdateUserReq.t)
    (db : DB) : Response * DB :=
  match body with
  | None => (JSON StatusBadRequest (H_error "json inválido"), db)
  | Some req =>
      if decide (UpdateUserReq.FullName req = ""
                 ∨ UpdateUserReq.RoleID req = 0)
      then (JSON StatusBadRequest (H_error "full_name y role_id requeridos"),
            db)
      else
        let active := default true (UpdateUserReq.IsActive req) in
        let t :=
          UPDATE (λ u, users.id u = id)
            (λ u, users.mk (users.id u) (UpdateUserReq.RoleID req)
                    (UpdateUserReq.FullName req) (UpdateUserReq.Phone req)
                    (UpdateUserReq.Email req) (UpdateUserReq.NumDoc req)
                    (default (users.password_hash u)
                             (UpdateUserReq.Password req))
                    active)
            (t_users db) in
        let db' := set_users t (next_user_id db) db in
        if decide (RowsAffected (t_users db) t = 0)
        then (JSON StatusNotFound (H_error "usuario no encontrado"), db')
        else (JSON StatusOK H_ok, db')
  end.

(** ** Customer prices *)

Definition scanCustomerPrice (r : customer_product_prices.row)
    : CustomerPrice.t :=
  CustomerPrice.mk (customer_product_prices.customer_id r)
                   (customer_product_prices.product_id r)
                   (customer_product_prices.price r)
                   (customer_product_prices.is_active r).

Definition listCustomerPricesHandler (customerID : option Z) (db : DB)
    : Response :=
  match customerID with
  | None => JSON StatusBadRequest (H_error "customer_id requerido")
  | Some cid =>
      JSON StatusOK
        (B_customer_prices
           (scanCustomerPrice <$>
            ORDER_BY customer_product_prices.product_id
              (filter (λ r, customer_product_prices.customer_id r = cid)
                      (t_customer_product_prices db))))
  end.

(** [SELECT COUNT(1) FROM t WHERE id=?] *)
Definition COUNT {A} (cond : A → Prop) `{∀ a, Decision (cond a)}
    (t : list A) : Z :=
  Z.of_nat (length (filter cond t)).

(** [INSERT INTO customer_product_prices(customer_id, product_id, price,
    is_active) VALUES (?,?,?,?)
    ON DUPLICATE KEY UPDATE price=VALUES(price), is_active=VALUES(is_active)]:
    the row is added when no row has its primary key; otherwise the row
    that has it takes the new [price] and [is_active] and keeps the
    rest. *)
Definition INSERT_ON_DUPLICATE_KEY_UPDATE (now : time)
    (customerID productID : Z) (price : decimal) (active : bool)
    (t : list customer_product_prices.row)
    : list customer_product_prices.row :=
  if decide ((customerID, productID) ∈ customer_product_prices.key <$> t)
  then
    UPDATE (λ r, customer_product_prices.key r = (customerID, productID))
      (λ r, customer_product_prices.mk
              (customer_product_prices.customer_id r)
              (customer_product_prices.product_id r)
              price active (customer_product_prices.created_at r))
      t
  else
    t ++ [customer_product_prices.mk customerID productID price active now].

(** [price DECIMAL(10,2) NOT NULL]: ten digits, two of them decimals.
    The server, in its default (strict) SQL mode, refuses a value out
    of this range with error 1264. *)
Definition DECIMAL_10_2 (d : decimal) : Prop :=
  -9999999999 ≤ d ≤ 9999999999.

Global Instance DECIMAL_10_2_dec d : Decision (DECIMAL_10_2 d).
Proof. unfold DECIMAL_10_2. apply _. Defined.

(** The text of [err.Error()] for this refusal. *)
Definition ER_WARN_DATA_OUT_OF_RANGE : string :=
  "Error 1264 (22003): Out of range value for column 'price' at row 1".

(** [upsertCustomerPriceHandler]; the [err != nil] of [db.Exec] (main.go
    501-503) is the refusal of a price that does not fit the column. *)
Definition upsertCustomerPriceHandler (now : time)
    (body : option UpsertCustomerPriceReq.t) (db : DB) : Response * DB :=
  match body with
  | None => (JSON StatusBadRequest (H_error "json inválido"), db)
  | Some req =>
      let customerID := UpsertCustomerPriceReq.CustomerID req in
      let productID := UpsertCustomerPriceReq.ProductID req in
      if decide (customerID = 0 ∨ productID = 0)
      then (JSON StatusBadRequest
              (H_error "customer_id y product_id requeridos"), db)
      else
        let active := default true (UpsertCustomerPriceReq.IsActive req) in
        if decide (COUNT (λ p, products.id p = productID) (t_products db) = 0)
        then (JSON StatusBadRequest (H_error "product_id inválido"), db)
        else
          if decide (COUNT (λ u, users.id u = customerID) (t_users db) = 0)
          then (JSON StatusBadRequest (H_error "customer_id inválido"), db)
          else
            if decide (DECIMAL_10_2 (UpsertCustomerPriceReq.Price req))
            then
              (JSON StatusOK H_ok,
               set_customer_product_prices
                 (INSERT_ON_DUPLICATE_KEY_UPDATE now customerID productID
                    (UpsertCustomerPriceReq.Price req) active
                    (t_customer_product_prices db))
                 db)
            else
              (JSON StatusInternalServerError
                 (H_error ER_WARN_DATA_OUT_OF_RANGE), db)
  end.

(** [DELETE FROM customer_product_prices WHERE customer_id=? AND product_id=?] *)
Definition deleteCustomerPriceHandler (customerID productID : option Z)
    (db : DB) : Response * DB :=
  match customerID, productID with
  | Some cid, Some pid =>
      (JSON StatusOK H_ok,
       set_customer_product_prices
         (filter (λ r, ¬ (customer_product_prices.customer_id r = cid
                          ∧ customer_product_prices.product_id r = pid))
                 (t_customer_product_prices db))
         db)
  | _, _ =>
      (JSON StatusBadRequest
         (H_error "customer_id y product_id requeridos"), db)
  end.

(** ** Orders *)

(** First loop of [createOrderHandler] (main.go 621-634):
    [subtotal += effPrice * float64(it.Qty)] at the effective price
    scanned into the [float64] [effPrice]; the first item that does not
    resolve ends the request. *)
Fixpoint range_subtotal (tx : DB) (customerID : Z)
    (items : list OrderItemReq.t) (subtotal : float64)
    : Response + float64 :=
  match items with
  | [] => inr subtotal
  | it :: items =>
      match resolveEffectivePrice tx customerID (OrderItemReq.ProductID it) with
      | None =>
          inl (JSON StatusBadRequest
                 (H_error ("producto " +:+ pretty (OrderItemReq.ProductID it)
                           +:+ " no válido")))
      | Some effPrice =>
          range_subtotal tx customerID items
            (fadd subtotal
               (fmul (to_float64 effPrice)
                     (float64_of_int (OrderItemReq.Qty it))))
      end
  end.

(** Second loop of [createOrderHandler]: one [order_items] row per
    requested item, at the unit price read again. *)
Fixpoint range_insert_items (tx : DB) (customerID orderID : Z)
    (items : list OrderItemReq.t) : Response + DB :=
  match items with
  | [] => inr tx
  | it :: items =>
      match queryUnitPrice tx customerID (OrderItemReq.ProductID it) with
      | None =>
          inl (JSON StatusInternalServerError
                 (H_error "sql: no rows in result set"))
      | Some unitPrice =>
          range_insert_items
            (set_order_items
               (t_order_items tx ++
                [order_items.mk (next_order_item_id tx) orderID
                   (OrderItemReq.ProductID it) (OrderItemReq.Qty it)
                   unitPrice])
               (next_order_item_id tx + 1) tx)
            customerID orderID items
      end
  end.

(** [INSERT INTO order_status_history(order_id, old_status, new_status,
    changed_by, note)]; [changed_at] takes its default. *)
Definition insert_history (now : time) (orderID : Z)
    (old : option string) (new : string) (changedBy : Z)
    (note : option string) (tx : DB) : DB :=
  set_order_status_history
    (t_order_status_history tx ++
     [order_status_history.mk (next_history_id tx) orderID old new
        changedBy (Some now) note])
    (next_history_id tx + 1) tx.

Definition createOrderHandler (now : time) (body : option CreateOrderReq.t)
    (db : DB) : Response * DB :=
  match body with
  | None => (JSON StatusBadRequest (H_error "json inválido"), db)
  | Some req =>
      if decide (CreateOrderReq.CustomerID req = 0
                 ∨ CreateOrderReq.AddressID req = 0
                 ∨ length (CreateOrderReq.Items req) = 0%nat)
      then (JSON StatusBadRequest
              (H_error "customer_id, address_id e items requeridos"), db)
      else
        let tx := db in
        match range_subtotal tx (CreateOrderReq.CustomerID req)
                (CreateOrderReq.Items req) float64_0 with
        | inl resp => (resp, db)
        | inr subtotal =>
            let deliveryFee := float64_0 in
            let orderID := next_order_id tx in
            let tx :=
              set_orders
                (t_orders tx ++
                 [orders.mk orderID (CreateOrderReq.CustomerID req)
                    (CreateOrderReq.AddressID req) None "por_atender"
                    subtotal deliveryFee (CreateOrderReq.Notes req)
                    (CreateOrderReq.ScheduledAt req) None (Some now)])
                (orderID + 1) tx in
            match range_insert_items tx (CreateOrderReq.CustomerID req)
                    orderID (CreateOrderReq.Items req) with
            | inl resp => (resp, db)
            | inr tx =>
                let tx :=
                  insert_history now orderID None "por_atender"
                    (CreateOrderReq.CustomerID req) (Some "Pedido creado")
                    tx in
                (JSON StatusCreated (H_order_id orderID), tx)
            end
        end
  end.

(** [SELECT ..., (subtotal+delivery_fee) AS total, ... FROM orders] *)
Definition scanOrder (r : orders.row) : Order.t :=
  Order.mk (orders.id r) (orders.customer_id r) (orders.address_id r)
           (orders.assigned_driver_id r) (orders.status r)
           (orders.subtotal r) (orders.delivery_fee r)
           (fadd (orders.subtotal r) (orders.delivery_fee r))
           (orders.notes r) (orders.scheduled_at r) (orders.delivered_at r)
           (orders.created_at r).

(** [listOrdersHandler]; the two arguments are [c.Query("customer_id")]
    and [c.Query("driver_id")], [None] when empty. *)
Definition listOrdersHandler (customerID driverID : option Z) (db : DB)
    : Response :=
  let rows :=
    match customerID, driverID with
    | Some cid, _ =>
        ORDER_BY_DESC orders.id
          (filter (λ o, orders.customer_id o = cid) (t_orders db))
    | None, Some did =>
        ORDER_BY_DESC orders.id
          (filter (λ o, orders.assigned_driver_id o = Some did) (t_orders db))
    | None, None =>
        take 50 (ORDER_BY_DESC orders.id (t_orders db))
    end in
  JSON StatusOK (B_orders (scanOrder <$> rows)).

(** [SELECT oi.id, ..., (oi.qty*oi.unit_price) AS line_total, p.name,
    p.capacity_liters FROM order_items oi JOIN products p
    ON p.id=oi.product_id WHERE oi.order_id=?]: the server multiplies
    the integer and the [DECIMAL], and the product is scanned into the
    [float64] [LineTotal]. *)
Definition scanOrderItem (r : order_items.row * products.row) : OrderItem.t :=
  OrderItem.mk (order_items.id r.1) (order_items.order_id r.1)
               (order_items.product_id r.1) (order_items.qty r.1)
               (order_items.unit_price r.1)
               (to_float64 (order_items.qty r.1 * order_items.unit_price r.1))
               (products.name r.2) (products.capacity_liters r.2).

Definition getOrderHandler (id : Z) (db : DB) : Response :=
  match head (filter (λ o, orders.id o = id) (t_orders db)) with
  | None => JSON StatusNotFound (H_error "no encontrado")
  | Some r =>
      let o := scanOrder r in
      let items :=
        scanOrderItem <$>
        filter (λ r, order_items.order_id r.1 = id)
          (JOIN (H := λ oi p, Z.eq_dec _ _)
                (λ oi p, products.id p = order_items.product_id oi)
                (t_order_items db) (t_products db)) in
      JSON StatusOK (B_order (OrderWithItems.mk o items))
  end.

(** [SELECT status FROM orders WHERE id=? FOR UPDATE] *)
Definition select_status (tx : DB) (id : Z) : option string :=
  head (orders.status <$> filter (λ o, orders.id o = id) (t_orders tx)).

Definition assignOrderHandler (now : time) (id : Z)
    (body : option AssignOrderReq.t) (db : DB) : Response * DB :=
  match body with
  | None => (JSON StatusBadRequest (H_error "json inválido"), db)
  | Some req =>
      if decide (AssignOrderReq.DriverID req = 0)
      then (JSON StatusBadRequest (H_error "driver_id requerido"), db)
      else
        let tx := db in
        match select_status tx id with
        | None => (JSON StatusNotFound (H_error "pedido no existe"), db)
        | Some old =>
            if decide (old ≠ "por_atender")
            then (JSON StatusBadRequest
                    (H_error "solo pedidos 'por_atender' pueden asignarse"),
                  db)
            else
              let tx :=
                set_orders
                  (UPDATE (λ o, orders.id o = id)
                     (λ o, orders.mk (orders.id o) (orders.customer_id o)
                             (orders.address_id o)
                             (Some (AssignOrderReq.DriverID req)) "asignado"
                             (orders.subtotal o) (orders.delivery_fee o)
                             (orders.notes o) (orders.scheduled_at o)
                             (orders.delivered_at o) (orders.created_at o))
                     (t_orders tx))
                  (next_order_id tx) tx in
              let tx :=
                insert_history now id (Some old) "asignado"
                  (AssignOrderReq.DriverID req)
                  (Some "Asignado a repartidor") tx in
              (JSON StatusOK H_ok, tx)
        end
  end.

(** The transition table of [updateOrderStatusHandler]. *)
Definition valid : gmap string (list string) :=
  {[ "por_atender" := ["asignado"; "cancelado"];
     "asignado" := ["en_camino"; "cancelado"];
     "en_camino" := ["entregado"] ]}.

(** [for _, s := range valid[old] { if s == req.NewStatus { allowed =
    true; break } }] *)
Fixpoint range_allowed (ss : list string) (newStatus : string)
    (allowed : bool) : bool :=
  match ss with
  | [] => allowed
  | s :: ss =>
      if decide (s = newStatus) then true
      else range_allowed ss newStatus allowed
  end.

Definition updateOrderStatusHandler (now : time) (id : Z)
    (body : option UpdateStatusReq.t) (db : DB) : Response * DB :=
  match body with
  | None => (JSON StatusBadRequest (H_error "json inválido"), db)
  | Some req =>
      if decide (UpdateStatusReq.NewStatus req = ""
                 ∨ UpdateStatusReq.ChangedBy req = 0)
      then (JSON StatusBadRequest
              (H_error "new_status y changed_by requeridos"), db)
      else
        let tx := db in
        match select_status tx id with
        | None => (JSON StatusNotFound (H_error "pedido no existe"), db)
        | Some old =>
            let allowed :=
              range_allowed (valid !!! old) (UpdateStatusReq.NewStatus req)
                false in
            if negb allowed
            then (JSON StatusBadRequest
                    (H_error ("transición inválida " +:+ old +:+ " → "
                              +:+ UpdateStatusReq.NewStatus req)), db)
            else
              let tx :=
                set_orders
                  (UPDATE (λ o, orders.id o = id)
                     (λ o, orders.mk (orders.id o) (orders.customer_id o)
                             (orders.address_id o)
                             (orders.assigned_driver_id o)
                             (UpdateStatusReq.NewStatus req)
                             (orders.subtotal o) (orders.delivery_fee o)
                             (orders.notes o) (orders.scheduled_at o)
                             (if decide (UpdateStatusReq.NewStatus req
                                         = "entregado")
                              then Some now else orders.delivered_at o)
                             (orders.created_at o))
                     (t_orders tx))
                  (next_order_id tx) tx in
              let tx :=
                insert_history now id (Some old)
                  (UpdateStatusReq.NewStatus req)
                  (UpdateStatusReq.ChangedBy req)
                  (UpdateStatusReq.Note req) tx in
              (JSON StatusOK H_ok, tx)
        end
  end.

(** ** The routes of [main] *)

Inductive Request :=
| POST_users (body : option CreateUserReq.t)
| PUT_users (id : Z) (body : option UpdateUserReq.t)
| GET_products (customer_id : option Z)
| POST_products (body : option CreateProductReq.t)
| PUT_products (id : Z) (body : option CreateProductReq.t)
| DELETE_products (id : Z)
| GET_customer_prices (customer_id : option Z)
| POST_customer_prices (body : option UpsertCustomerPriceReq.t)
| DELETE_customer_prices (customer_id product_id : option Z)
| POST_orders (body : option CreateOrderReq.t)
| GET_orders (customer_id driver_id : option Z)
| GET_order (id : Z)
| PATCH_assign (id : Z) (body : option AssignOrderReq.t)
| PATCH_status (id : Z) (body : option UpdateStatusReq.t).

(** One request served at time [now]. *)
Definition serve (now : time) (r : Request) (db : DB) : Response * DB :=
  match r with
  | POST_users body => createUserHandler body db
  | PUT_users id body => updateUserHandler id body db
  | GET_products c => (listProductsHandler c db, db)
  | POST_products body => createProductHandler body db
  | PUT_products id body => updateProductHandler id body db
  | DELETE_products id => deleteProductHandler id db
  | GET_customer_prices c => (listCustomerPricesHandler c db, db)
  | POST_customer_prices body => upsertCustomerPriceHandler now body db
  | DELETE_customer_prices c p => deleteCustomerPriceHandler c p db
  | POST_orders body => createOrderHandler now body db
  | GET_orders c d => (listOrdersHandler c d db, db)
  | GET_order id => (getOrderHandler id db, db)
  | PATCH_assign id body => assignOrderHandler now id body db
  | PATCH_status id body => updateOrderStatusHandler now id body db
  end.

(** The databases the API can produce from the empty one. *)
Inductive reachable : DB → Prop :=
| reachable_empty : reachable empty_db
| reachable_serve now r db :
    reachable db → reachable (serve now r db).2.

(** ** Integrity constraints and the vocabulary of the specification *)

(** The primary keys of the tables. *)
Definition products_pk (db : DB) : Prop :=
  NoDup (products.id <$> t_products db).
Definition customer_product_prices_pk (db : DB) : Prop :=
  NoDup (customer_product_prices.key <$> t_customer_product_prices db).
Definition orders_pk (db : DB) : Prop :=
  NoDup (orders.id <$> t_orders db).

Definition sumZ (l : list Z) : Z := foldr Z.add 0 l.

(** The line items stored for an order, and the sum of their line
    totals [qty * unit_price]. *)
Definition items_of (db : DB) (orderID : Z) : list order_items.row :=
  filter (λ it, order_items.order_id it = orderID) (t_order_items db).

(** The [float64] sum of unit price times quantity over [lines], each a
    unit price and a quantity: accumulated from [0.0], one line after
    the other. *)
Definition float64_total (lines : list (decimal * Z)) : float64 :=
  foldl (λ subtotal l, fadd subtotal
                         (fmul (to_float64 l.1) (float64_of_int l.2)))
        float64_0 lines.

(** The same sum over the line items [rows], in the sequence in which
    they were written. *)
Definition items_float64_total (rows : list order_items.row) : float64 :=
  float64_total ((λ it, (order_items.unit_price it, order_items.qty it)) <$>
                 rows).


(** The lines of a request for customer [C]: for each item the price
    [resolveEffectivePrice] gives, and the quantity. *)
Definition requested_lines (db : DB) (C : Z) (items : list OrderItemReq.t)
    : list (decimal * Z) :=
  (λ it, (default 0 (resolveEffectivePrice db C (OrderItemReq.ProductID it)),
          OrderItemReq.Qty it)) <$> items.

(** The override rows the join condition matches with product [p]. *)
Definition overrides_for (db : DB) (customerID : Z) (p : products.row)
    : list customer_product_prices.row :=
  filter (λ cpp, customer_product_prices.product_id cpp = products.id p
                 ∧ customer_product_prices.customer_id cpp = customerID
                 ∧ customer_product_prices.is_active cpp = true)
         (t_customer_product_prices db).

(** The override in force for a customer and a product: the active row
    of [(customerID, p.id)], if the table has one. *)
Inductive in_force (db : DB) (customerID : Z) (p : products.row)
    : option customer_product_prices.row → Prop :=
| in_force_none :
    (∀ r, r ∈ t_customer_product_prices db →
          customer_product_prices.key r = (customerID, products.id p) →
          customer_product_prices.is_active r = false) →
    in_force db customerID p None
| in_force_some r :
    r ∈ t_customer_product_prices db →
    customer_product_prices.key r = (customerID, products.id p) →
    customer_product_prices.is_active r = true →
    in_force db customerID p (Some r).

(** The order states, under the names [main.go] stores. *)
Definition pending : string := "por_atender".
Definition assigned : string := "asignado".
Definition en_route : string := "en_camino".
Definition delivered : string := "entregado".
Definition cancelled : string := "cancelado".

(** The transition table of the specification (section 4.3). *)
Inductive transition : string → string → Prop :=
| pending_assigned : transition pending assigned
| pending_cancelled : transition pending cancelled
| assigned_en_route : transition assigned en_route
| assigned_cancelled : transition assigned cancelled
| en_route_delivered : transition en_route delivered.

(** The row an accepted status update leaves in place of [o]. *)
Definition with_status (now : time) (newStatus : string) (o : orders.row)
    : orders.row :=
  orders.mk (orders.id o) (orders.customer_id o) (orders.address_id o)
    (orders.assigned_driver_id o) newStatus (orders.subtotal o)
    (orders.delivery_fee o) (orders.notes o) (orders.scheduled_at o)
    (if decide (newStatus = delivered) then Some now
     else orders.delivered_at o)
    (orders.created_at o).

(** The row an accepted assignment leaves in place of [o]. *)
Definition with_driver (driverID : Z) (o : orders.row) : orders.row :=
  orders.mk (orders.id o) (orders.customer_id o) (orders.address_id o)
    (Some driverID) assigned (orders.subtotal o) (orders.delivery_fee o)
    (orders.notes o) (orders.scheduled_at o) (orders.delivered_at o)
    (orders.created_at o).

(** A small database for examples: one customer, an active product at
    10.00 and an inactive one at 6.00. *)
Definition sample_db : DB :=
  mkDB [users.mk 1 3 "Ana" None None None "pw" true] 2
       [products.mk 1 "Bidon 20L" None 1000 true;
        products.mk 2 "Bidon 10L" None 600 false] 3
       [] [] 1 [] 1 [] 1.

(** [sample_db] after customer 1 got product 1 at 8.50. *)
Definition sample_db_override : DB :=
  set_customer_product_prices
    [customer_product_prices.mk 1 1 850 true 100] sample_db.

(** The [order_items] rows the second loop of [createOrderHandler]
    writes for the requested items, the first of them under key [n]. *)
Fixpoint item_rows (tx : DB) (customerID orderID : Z) (n : Z)
    (items : list OrderItemReq.t) : list order_items.row :=
  match items with
  | [] => []
  | it :: items =>
      order_items.mk n orderID (OrderItemReq.ProductID it)
        (OrderItemReq.Qty it)
        (default 0 (queryUnitPrice tx customerID (OrderItemReq.ProductID it)))
      :: item_rows tx customerID orderID (n + 1) items
  end.

(** The database [createOrderHandler] commits for an accepted request. *)
Definition order_created (now : time) (req : CreateOrderReq.t)
    (subtotal : float64) (db : DB) : DB :=
  let orderID := next_order_id db in
  insert_history now orderID None pending (CreateOrderReq.CustomerID req)
    (Some "Pedido creado")
    (set_order_items
       (t_order_items db ++
        item_rows db (CreateOrderReq.CustomerID req) orderID
          (next_order_item_id db) (CreateOrderReq.Items req))
       (next_order_item_id db + Z.of_nat (length (CreateOrderReq.Items req)))
       (set_orders
          (t_orders db ++
           [orders.mk orderID (CreateOrderReq.CustomerID req)
              (CreateOrderReq.AddressID req) None pending subtotal
              float64_0 (CreateOrderReq.Notes req)
              (CreateOrderReq.ScheduledAt req) None (Some now)])
          (orderID + 1) db)).

(** What every database the API produces satisfies: the keys are keys
    and lie below their counters, every line item belongs to an order
    key that was issued and to a product of the catalogue, and every
    order carries the [float64] sum of its line totals and no delivery
    fee. *)
Record consistent (db : DB) : Prop := {
  c_products_pk : products_pk db;
  c_products_lt :
    Forall (λ i, i < next_product_id db) (products.id <$> t_products db);
  c_prices_pk : customer_product_prices_pk db;
  c_orders_pk : orders_pk db;
  c_orders_lt :
    Forall (λ i, i < next_order_id db) (orders.id <$> t_orders db);
  c_items_order :
    Forall (λ it, order_items.order_id it < next_order_id db)
           (t_order_items db);
  c_items_product :
    Forall (λ it, order_items.product_id it ∈ products.id <$> t_products db)
           (t_order_items db);
  c_totals :
    Forall (λ o, orders.subtotal o
                 = items_float64_total (items_of db (orders.id o))
                 ∧ orders.delivery_fee o = float64_0)
           (t_orders db) }.

(** A database the API produces: a product, then an order of customer 1
    for three units of it. *)
Definition sample_reachable : DB :=
  (serve 200
     (POST_orders (Some (CreateOrderReq.mk 1 7 [OrderItemReq.mk 1 3]
                           None None)))
     (serve 100
        (POST_products (Some (CreateProductReq.mk "Bidon 20L" None 1000 None)))
        empty_db).2).2.


(** A catalogue with product 1 at 99999999.99 and product 2 at 10.00,
    and the database after customer 1 ordered 2147483647 units of
    product 1, one unit of product 2 and -2147483647 units of
    product 1. *)
Definition cancelling_catalogue : DB :=
  (serve 110
     (POST_products (Some (CreateProductReq.mk "Bidon 10L" None 1000 None)))
     (serve 100
        (POST_products
           (Some (CreateProductReq.mk "Cisterna" None 9999999999 None)))
        empty_db).2).2.



(** A database with [n] orders of customer 1, keyed 1 to [n]. *)
Definition many_orders (n : Z) : DB :=
  set_orders
    ((λ i, orders.mk i 1 7 None "por_atender" float64_0 float64_0 None None
             None None) <$>
     seqZ 1 n)
    (n + 1) empty_db.

(** ** The remaining read handlers *)

Module User.
Record t := mk {
  ID : Z; RoleID : Z; FullName : string; Phone : option string;
  Email : option string; NumDoc : option string; IsActive : bool;
  CreatedAt : option time }.
End User.

Module StatusHistory.
Record t := mk {
  ID : Z; OrderID : Z; OldStatus : option string; NewStatus : string;
  ChangedBy : Z; ChangedAt : option time; Note : option string }.
End StatusHistory.

Definition StatusUnauthorized : Z := 401.

(** [listUserHandler]: the statement selects [id, role_id, full_name,
    phone, email, num_doc]; [IsActive] and [CreatedAt] of the scanned
    [User] keep their zero values.  The result is the status and the
    list written with [c.JSON]. *)
Definition scanUser (u : users.row) : User.t :=
  User.mk (users.id u) (users.role_id u) (users.full_name u)
          (users.phone u) (users.email u) (users.num_doc u) false None.

Definition listUserHandler (db : DB) : Z * list User.t :=
  (StatusOK, scanUser <$> ORDER_BY users.id (t_users db)).

(** [basicAuthLoginHandler].  [auth] is [c.Request.BasicAuth()], [None]
    when the header is missing.  The comparison of the statement
    [email=? OR phone=? OR num_doc=?] follows the collation of the
    columns, which the repository does not declare: it is the parameter
    [collate]; a [NULL] column matches nothing.  The password is
    compared by the Go code, byte for byte. *)
Inductive LoginBody :=
| L_error (msg : string)             (* gin.H{"error": msg} *)
| L_user (u : User.t).               (* gin.H{"ok": true, "user": u} *)

Record LoginResponse := LoginJSON {
  WWW_Authenticate : option string; login_code : Z; login_body : LoginBody }.

Definition matches (collate : string → string → bool) (username : string)
    (column : option string) : Prop :=
  ∃ v, column = Some v ∧ collate v username = true.

Global Instance matches_dec collate username column :
  Decision (matches collate username column).
Proof.
  unfold matches. destruct column as [v|].
  - destruct (collate v username) eqn:E.
    + left. by exists v.
    + right. intros (? & [= <-] & ?). congruence.
  - right. by intros (? & ? & _).
Defined.

Definition basicAuthLoginHandler (collate : string → string → bool)
    (auth : option (string * string)) (db : DB) : LoginResponse :=
  match auth with
  | None =>
      LoginJSON (Some "Basic realm=Login") StatusUnauthorized
                (L_error "credenciales requeridas")
  | Some (username, password) =>
      match head (filter (λ u, matches collate username (users.email u)
                               ∨ matches collate username (users.phone u)
                               ∨ matches collate username (users.num_doc u))
                         (t_users db)) with
      | None =>
          LoginJSON (Some "Basic realm=Login") StatusUnauthorized
                    (L_error "usuario o contraseña inválidos")
      | Some r =>
          let stored := users.password_hash r in
          let active := users.is_active r in
          if decide (active = false ∨ stored ≠ password)
          then LoginJSON (Some "Basic realm=Login") StatusUnauthorized
                         (L_error "usuario o contraseña inválidos")
          else LoginJSON None StatusOK
                 (L_user (User.mk (users.id r) (users.role_id r)
                            (users.full_name r) (users.phone r)
                            (users.email r) (users.num_doc r) active None))
      end
  end.

(** [listOrderHistoryHandler]: [SELECT ... FROM order_status_history
    WHERE order_id=? ORDER BY id]. *)
Definition scanStatusHistory (h : order_status_history.row)
    : StatusHistory.t :=
  StatusHistory.mk (order_status_history.id h)
    (order_status_history.order_id h) (order_status_history.old_status h)
    (order_status_history.new_status h) (order_status_history.changed_by h)
    (order_status_history.changed_at h) (order_status_history.note h).

Definition listOrderHistoryHandler (id : Z) (db : DB)
    : Z * list StatusHistory.t :=
  (StatusOK,
   scanStatusHistory <$>
   ORDER_BY order_status_history.id
     (filter (λ h, order_status_history.order_id h = id)
             (t_order_status_history db))).

(** ** The audit trail *)

(** The history rows of an order, in the order they were written. *)
Definition history_of (db : DB) (orderID : Z)
    : list order_status_history.row :=
  filter (λ h, order_status_history.order_id h = orderID)
         (t_order_status_history db).

(** A history row records the creation of an order or a transition of
    the table. *)
Definition legal_step (h : order_status_history.row) : Prop :=
  (order_status_history.old_status h = None
   ∧ order_status_history.new_status h = pending)
  ∨ ∃ a, order_status_history.old_status h = Some a
         ∧ transition a (order_status_history.new_status h).

(** Each row starts from the status the row before it arrived at. *)
Fixpoint chained (prev : option string)
    (l : list order_status_history.row) : Prop :=
  match l with
  | [] => True
  | h :: l =>
      order_status_history.old_status h = prev
      ∧ chained (Some (order_status_history.new_status h)) l
  end.

(** What the order and user tables of every database the API produces
    satisfy, beyond [consistent]. *)
Record lifecycle (db : DB) : Prop := {
  l_status :
    Forall (λ o, orders.status o
                 ∈ [pending; assigned; en_route; delivered; cancelled])
           (t_orders db);
  l_pending :
    Forall (λ o, orders.status o = pending →
                 orders.assigned_driver_id o = None) (t_orders db);
  l_delivered :
    Forall (λ o, is_Some (orders.delivered_at o)
                 ↔ orders.status o = delivered) (t_orders db);
  l_history_legal : Forall legal_step (t_order_status_history db);
  l_history_order :
    Forall (λ h, order_status_history.order_id h < next_order_id db)
           (t_order_status_history db);
  l_chain :
    Forall (λ o, chained None (history_of db (orders.id o))) (t_orders db);
  l_latest :
    Forall (λ o, last (order_status_history.new_status <$>
                       history_of db (orders.id o))
                 = Some (orders.status o)) (t_orders db);
  l_users_pk : NoDup (users.id <$> t_users db);
  l_users_lt : Forall (λ i, i < next_user_id db) (users.id <$> t_users db);
  l_items_pk : NoDup (order_items.id <$> t_order_items db);
  l_items_lt :
    Forall (λ i, i < next_order_item_id db)
           (order_items.id <$> t_order_items db);
  l_history_pk :
    NoDup (order_status_history.id <$> t_order_status_history db);
  l_history_lt :
    Forall (λ i, i < next_history_id db)
           (order_status_history.id <$> t_order_status_history db);
  l_history_sorted :
    StronglySorted Z.lt
      (order_status_history.id <$> t_order_status_history db);
  l_history_exists :
    Forall (λ h, order_status_history.order_id h
                 ∈ orders.id <$> t_orders db)
           (t_order_status_history db) }.

(** ** What stays of an order *)

(** The columns of an order that no statement of [main.go] updates. *)
Definition frozen_columns (o : orders.row)
    : Z * Z * Z * float64 * float64 * option string * option time
      * option time :=
  (orders.id o, orders.customer_id o, orders.address_id o,
   orders.subtotal o, orders.delivery_fee o, orders.notes o,
   orders.scheduled_at o, orders.created_at o).

(** The amounts of an answer of [getOrderHandler]: subtotal, delivery
    fee and total of the order and, for each item, product, quantity,
    unit price and line total. *)
Definition amounts (resp : Response)
    : option (float64 * float64 * float64
              * list (Z * Z * decimal * float64)) :=
  match body resp with
  | B_order ow =>
      Some (Order.Subtotal (OrderWithItems.Order ow),
            Order.DeliveryFee (OrderWithItems.Order ow),
            Order.Total (OrderWithItems.Order ow),
            (λ it, (OrderItem.ProductID it, OrderItem.Qty it,
                    OrderItem.UnitPrice it, OrderItem.LineTotal it)) <$>
            OrderWithItems.Items ow)
  | _ => None
  end.

(** ** Addresses *)

(** The coordinates [lat] and [lng] are [float64] values that the
    handlers store and return without computing with them: their type is
    a parameter.  The two handlers touch the table [addresses] only,
    which is kept here with its counter, apart from [DB]. *)
Module Address.
Record t {float64 : Type} := mk {
  ID : Z; UserID : Z; Label : option string; Street : string;
  Reference : option string; Lat : option float64; Lng : option float64;
  IsDefault : bool }.
Arguments t : clear implicits.
End Address.

Module CreateAddressReq.
Record t {float64 : Type} := mk {
  UserID : Z; Label : option string; Street : string;
  Reference : option string; Lat : option float64; Lng : option float64;
  IsDefault : bool }.
Arguments t : clear implicits.
End CreateAddressReq.

Module addresses.
Record row {float64 : Type} := mk {
  id : Z; user_id : Z; label : option string; street : string;
  reference : option string; lat : option float64; lng : option float64;
  is_default : bool }.
Arguments row : clear implicits.
Record table {float64 : Type} := mkTable {
  rows : list (row float64); next_id : Z }.
Arguments table : clear implicits.
End addresses.

Definition scanAddress {float64} (a : addresses.row float64)
    : Address.t float64 :=
  Address.mk float64 (addresses.id a) (addresses.user_id a)
    (addresses.label a) (addresses.street a) (addresses.reference a)
    (addresses.lat a) (addresses.lng a) (addresses.is_default a).

(** [listAddressesHandler]; [userID] is [c.Query("user_id")].  The
    result is the status with the error message or the list. *)
Definition listAddressesHandler {float64} (userID : option Z)
    (t : addresses.table float64)
    : Z * (string + list (Address.t float64)) :=
  match userID with
  | None => (StatusBadRequest, inl "user_id requerido")
  | Some uid =>
      (StatusOK,
       inr (scanAddress <$>
            ORDER_BY addresses.id
              (filter (λ a, addresses.user_id a = uid) (addresses.rows t))))
  end.

Definition createAddressHandler {float64}
    (body : option (CreateAddressReq.t float64))
    (t : addresses.table float64) : Response * addresses.table float64 :=
  match body with
  | None => (JSON StatusBadRequest (H_error "json inválido"), t)
  | Some req =>
      if decide (CreateAddressReq.UserID req = 0
                 ∨ CreateAddressReq.Street req = "")
      then (JSON StatusBadRequest (H_error "user_id y street requeridos"), t)
      else
        let id := addresses.next_id t in
        (JSON StatusCreated (H_id id),
         addresses.mkTable float64
           (addresses.rows t ++
            [addresses.mk float64 id (CreateAddressReq.UserID req)
               (CreateAddressReq.Label req) (CreateAddressReq.Street req)
               (CreateAddressReq.Reference req) (CreateAddressReq.Lat req)
               (CreateAddressReq.Lng req) (CreateAddressReq.IsDefault req)])
           (id + 1))
  end.

(** * Properties *)

(** ** Keyed tables *)

Section keyed.
Context {A K : Type} (key : A → K).

Lemma filter_none (P : A → Prop) `{∀ a, Decision (P a)} (l : list A) :
  (∀ x, x ∈ l → ¬ P x) → filter P l = [].
Proof.
  induction l as [|a l IH]; intros Hl; [done|].
  rewrite filter_cons_False by (apply Hl; left).
  apply IH. intros x Hx. apply Hl. by right.
Qed.

(** In a table with a key, a condition that fixes the key selects the
    row that satisfies it and nothing else. *)
Lemma filter_pk (P : A → Prop) `{∀ a, Decision (P a)} (l : list A) (r : A) :
  NoDup (key <$> l) → r ∈ l → P r →
  (∀ x, P x → key x = key r) →
  filter P l = [r].
Proof.
  intros Hnd Hr HP Hkey.
  induction l as [|a l IH]; [by apply elem_of_nil in Hr|].
  rewrite fmap_cons in Hnd. apply NoDup_cons in Hnd as [Ha Hnd].
  apply elem_of_cons in Hr as [<-|Hr].
  - rewrite filter_cons_True by done. f_equal.
    apply filter_none. intros x Hx HPx. apply Ha.
    rewrite <- (Hkey x HPx). by apply list_elem_of_fmap_2.
  - rewrite filter_cons_False; [by apply IH|].
    intros HPa. apply Ha. rewrite (Hkey a HPa).
    by apply list_elem_of_fmap_2.
Qed.

(** ... and at most one row otherwise. *)
Lemma filter_pk_cases (P : A → Prop) `{∀ a, Decision (P a)} (l : list A)
    (k : K) :
  NoDup (key <$> l) → (∀ x, P x → key x = k) →
  filter P l = [] ∨ ∃ r, r ∈ l ∧ P r ∧ filter P l = [r].
Proof.
  intros Hnd Hkey.
  destruct (filter P l) as [|r m] eqn:E; [by left|right].
  assert (r ∈ filter P l) as Hr by (rewrite E; left).
  apply list_elem_of_filter in Hr as [HP Hr].
  exists r. split_and!; [done..|].
  rewrite <- E. apply filter_pk; [done..|].
  intros x Hx. by rewrite !Hkey.
Qed.

(** An [UPDATE] by key rewrites the one row that has the key. *)
Lemma UPDATE_pk (P : A → Prop) `{∀ a, Decision (P a)} (set : A → A)
    (l : list A) (i : nat) (r : A) :
  NoDup (key <$> l) → l !! i = Some r → P r →
  (∀ x, P x → key x = key r) →
  UPDATE P set l = <[i := set r]> l.
Proof.
  intros Hnd Hi HP Hkey. apply list_eq. intros j. unfold UPDATE.
  rewrite list_lookup_fmap.
  destruct (decide (j = i)) as [->|Hne].
  - rewrite list_lookup_insert_eq by (by eapply lookup_lt_Some).
    rewrite Hi. simpl. by rewrite decide_True.
  - rewrite list_lookup_insert_ne by done.
    destruct (l !! j) as [x|] eqn:Hj; [simpl|done].
    rewrite decide_False; [done|]. intros HPx. apply Hne.
    eapply (NoDup_lookup (key <$> l)); [done|..].
    + rewrite list_lookup_fmap, Hj. done.
    + rewrite list_lookup_fmap, Hi. simpl. by rewrite (Hkey x HPx).
Qed.

Lemma UPDATE_none (P : A → Prop) `{∀ a, Decision (P a)} (set : A → A)
    (l : list A) :
  (∀ x, x ∈ l → ¬ P x) → UPDATE P set l = l.
Proof.
  intros Hl. unfold UPDATE. induction l as [|a l IH]; [done|].
  rewrite fmap_cons, decide_False by (apply Hl; left).
  f_equal. apply IH. intros x Hx. apply Hl. by right.
Qed.

(** An [UPDATE] that keeps the key column keeps the key. *)
Lemma UPDATE_keys (P : A → Prop) `{∀ a, Decision (P a)} (set : A → A)
    (l : list A) :
  (∀ x, key (set x) = key x) → key <$> UPDATE P set l = key <$> l.
Proof.
  intros Hset. unfold UPDATE. rewrite <- list_fmap_compose.
  apply list_fmap_ext. intros _ x _. simpl. by case_decide.
Qed.
End keyed.

(** ** Joins *)

Section joins.
Context {A B : Type} (on : A → B → Prop) `{∀ a b, Decision (on a b)}.

Lemma filter_all (P : A → Prop) `{∀ a, Decision (P a)} (l : list A) :
  (∀ x, x ∈ l → P x) → filter P l = l.
Proof.
  induction l as [|a l IH]; intros Hl; [done|].
  rewrite filter_cons_True by (apply Hl; left).
  f_equal. apply IH. intros x Hx. apply Hl. by right.
Qed.

Lemma joined_fst (a : A) (m : list B) x : x ∈ joined a m → x.1 = a.
Proof.
  destruct m as [|b m]; unfold joined.
  - by intros ->%list_elem_of_singleton.
  - by intros (? & -> & _)%list_elem_of_fmap.
Qed.

(** A [WHERE] on the columns of the left table may be applied to the
    left table before the join. *)
Lemma LEFT_JOIN_where (Q : A * option B → Prop) `{∀ x, Decision (Q x)}
    (P : A → Prop) `{∀ a, Decision (P a)} (l : list A) (r : list B) :
  (∀ x, Q x ↔ P x.1) →
  filter Q (LEFT_JOIN on l r) = LEFT_JOIN on (filter P l) r.
Proof.
  intros HQ. unfold LEFT_JOIN. induction l as [|a l IH]; [done|].
  rewrite bind_cons, filter_app, IH.
  set (m := joined a (filter (on a) r)).
  assert (∀ x, x ∈ m → x.1 = a) as Hm by apply joined_fst.
  destruct (decide (P a)) as [HP|HP].
  - rewrite filter_cons_True, bind_cons by done. f_equal.
    fold m. clearbody m. induction m as [|x m IHm]; [done|].
    rewrite filter_cons_True.
    + f_equal. apply IHm. intros y Hy. apply Hm. by right.
    + apply HQ. rewrite Hm; [done|left].
  - rewrite filter_cons_False by done.
    replace (filter Q m) with (@nil (A * option B)); [done|].
    symmetry. clearbody m. induction m as [|x m IHm]; [done|].
    rewrite filter_cons_False.
    + apply IHm. intros y Hy. apply Hm. by right.
    + rewrite HQ, Hm; [done|left].
Qed.

Lemma elem_of_LEFT_JOIN (l : list A) (r : list B) x :
  x ∈ LEFT_JOIN on l r ↔
  ∃ a, a ∈ l ∧ x ∈ joined a (filter (on a) r).
Proof.
  unfold LEFT_JOIN. rewrite list_elem_of_bind.
  split; intros (a & ? & ?); exists a; done.
Qed.
End joins.

(** ** The effective price *)

Section price.
Variable db : DB.
Variable customerID : Z.

Local Abbreviation overrides_for := (overrides_for db customerID).
Local Abbreviation in_force := (in_force db customerID).

Lemma overrides_for_pk (p : products.row) :
  customer_product_prices_pk db →
  ∃ o, joined p (overrides_for p) = [(p, o)] ∧ in_force p o.
Proof.
  intros Hpk. unfold overrides_for.
  edestruct (filter_pk_cases customer_product_prices.key
    (λ cpp, customer_product_prices.product_id cpp = products.id p
            ∧ customer_product_prices.customer_id cpp = customerID
            ∧ customer_product_prices.is_active cpp = true)
    (t_customer_product_prices db) (customerID, products.id p))
    as [E|(r & Hr & (Hp & Hc & Ha) & E)]; [done| |..].
  - intros x (Hp & Hc & _). unfold customer_product_prices.key.
    by rewrite Hp, Hc.
  - exists None. rewrite E. split; [done|]. constructor.
    intros r Hr Hk.
    destruct (customer_product_prices.is_active r) eqn:Ha; [|done].
    exfalso. eapply filter_nil_not_elem_of; [exact E| |exact Hr].
    unfold customer_product_prices.key in Hk. by simplify_eq.
  - exists (Some r). rewrite E. split; [done|].
    constructor; [done| |done].
    unfold customer_product_prices.key. by rewrite Hp, Hc.
Qed.

Lemma in_force_unique (p : products.row) o1 o2 :
  customer_product_prices_pk db →
  in_force p o1 → in_force p o2 → o1 = o2.
Proof.
  intros Hpk H1 H2.
  destruct H1 as [H1|r1 Hr1 Hk1 Ha1], H2 as [H2|r2 Hr2 Hk2 Ha2]; [done|..].
  - rewrite (H1 r2) in Ha2; done.
  - rewrite (H2 r1) in Ha1; done.
  - f_equal.
    apply list_elem_of_lookup in Hr1 as [i Hi], Hr2 as [j Hj].
    assert (i = j) as ->; [|congruence].
    eapply (NoDup_lookup _ i j); [exact Hpk|..];
      rewrite list_lookup_fmap; [rewrite Hi|rewrite Hj]; simpl;
      [by rewrite Hk1|by rewrite Hk2].
Qed.

(** The rows the point read of [resolveEffectivePrice] selects. *)
Lemma resolve_rows (p : products.row) :
  products_pk db → p ∈ t_products db → products.is_active p = true →
  filter (λ r, products.id r.1 = products.id p
               ∧ products.is_active r.1 = true)
         (products_with_override db customerID)
  = joined p (overrides_for p).
Proof.
  intros Hpk Hp Ha. unfold products_with_override.
  rewrite (LEFT_JOIN_where _ _
    (λ q, products.id q = products.id p ∧ products.is_active q = true)) by done.
  rewrite (filter_pk products.id _ _ p); [|done..|by intros x [? _]].
  unfold LEFT_JOIN. rewrite bind_singleton. done.
Qed.

Lemma resolve_rows_none (productID : Z) :
  (∀ p, p ∈ t_products db → products.id p = productID →
        products.is_active p = false) →
  filter (λ r, products.id r.1 = productID
               ∧ products.is_active r.1 = true)
         (products_with_override db customerID) = [].
Proof.
  intros Hno. unfold products_with_override.
  rewrite (LEFT_JOIN_where _ _
    (λ q, products.id q = productID ∧ products.is_active q = true)) by done.
  rewrite filter_none; [done|].
  intros p Hp [Hid Ha]. rewrite (Hno p Hp Hid) in Ha. done.
Qed.

(** The rows the second point read selects. *)
Lemma unit_price_rows (p : products.row) :
  products_pk db → p ∈ t_products db →
  filter (λ r, products.id r.1 = products.id p)
         (products_with_override db customerID)
  = joined p (overrides_for p).
Proof.
  intros Hpk Hp. unfold products_with_override.
  rewrite (LEFT_JOIN_where _ _ (λ q, products.id q = products.id p)) by done.
  rewrite (filter_pk products.id _ _ p); [|done..].
  unfold LEFT_JOIN. rewrite bind_singleton. done.
Qed.

(** [resolveEffectivePrice] on a product that is on sale. *)
Lemma resolve_active (p : products.row) o :
  products_pk db → customer_product_prices_pk db →
  p ∈ t_products db → products.is_active p = true → in_force p o →
  resolveEffectivePrice db customerID (products.id p)
  = Some (price_column (p, o)).
Proof.
  intros Hpk Hcpk Hp Ha Ho. unfold resolveEffectivePrice.
  rewrite resolve_rows by done.
  destruct (overrides_for_pk p Hcpk) as (o' & -> & Ho').
  by rewrite (in_force_unique p o o').
Qed.

Lemma resolve_inactive (productID : Z) :
  (∀ p, p ∈ t_products db → products.id p = productID →
        products.is_active p = false) →
  resolveEffectivePrice db customerID productID = None.
Proof.
  intros Hno. unfold resolveEffectivePrice.
  by rewrite resolve_rows_none.
Qed.

Lemma unit_price_present (p : products.row) o :
  products_pk db → customer_product_prices_pk db →
  p ∈ t_products db → in_force p o →
  queryUnitPrice db customerID (products.id p)
  = Some (price_column (p, o)).
Proof.
  intros Hpk Hcpk Hp Ho. unfold queryUnitPrice.
  rewrite unit_price_rows by done.
  destruct (overrides_for_pk p Hcpk) as (o' & -> & Ho').
  by rewrite (in_force_unique p o o').
Qed.

(** The product behind a resolved price. *)
Lemma resolve_Some_inv (productID : Z) (x : decimal) :
  resolveEffectivePrice db customerID productID = Some x →
  ∃ p, p ∈ t_products db ∧ products.id p = productID
       ∧ products.is_active p = true.
Proof.
  unfold resolveEffectivePrice. intros Hx.
  apply head_Some_elem_of, list_elem_of_fmap in Hx as (r & _ & Hr).
  apply list_elem_of_filter in Hr as [[Hid Ha] Hr].
  apply elem_of_LEFT_JOIN in Hr as (p & Hp & Hj).
  apply joined_fst in Hj. subst p. by exists r.1.
Qed.
End price.

(** ** Upsert of an override *)

Section upsert.
Variables (customerID productID : Z) (price : decimal) (active : bool).

Local Abbreviation upsert now :=
  (INSERT_ON_DUPLICATE_KEY_UPDATE now customerID productID price active).

Lemma UPDATE_id {A} (P : A → Prop) `{∀ a, Decision (P a)} (set : A → A)
    (l : list A) :
  (∀ x, x ∈ l → P x → set x = x) → UPDATE P set l = l.
Proof.
  intros Hl. unfold UPDATE. induction l as [|a l IH]; [done|].
  rewrite fmap_cons. f_equal.
  - case_decide; [apply Hl; [left|done]|done].
  - apply IH. intros x Hx. apply Hl. by right.
Qed.

Lemma elem_of_UPDATE {A} (P : A → Prop) `{∀ a, Decision (P a)} (set : A → A)
    (l : list A) y :
  y ∈ UPDATE P set l ↔
  ∃ x, x ∈ l ∧ (P x ∧ y = set x ∨ ¬ P x ∧ y = x).
Proof.
  unfold UPDATE. rewrite list_elem_of_fmap. split.
  - intros (x & -> & Hx). exists x. split; [done|].
    case_decide; [by left|by right].
  - intros (x & Hx & [[HP ->]|[HP ->]]); exists x;
      (split; [|done]); [by rewrite decide_True|by rewrite decide_False].
Qed.

(** The key stays a key. *)
Lemma upsert_pk now t :
  NoDup (customer_product_prices.key <$> t) →
  NoDup (customer_product_prices.key <$> upsert now t).
Proof.
  intros Hpk. unfold INSERT_ON_DUPLICATE_KEY_UPDATE. case_decide as Hin.
  - by rewrite UPDATE_keys.
  - rewrite fmap_app. apply NoDup_app. split_and!; [done| |].
    + intros k Hk ->%list_elem_of_singleton. done.
    + apply NoDup_singleton.
Qed.

(** After the statement the key has a row, and every row that has the
    key carries the submitted price and flag. *)
Lemma upsert_has_key now t :
  (customerID, productID) ∈ customer_product_prices.key <$> upsert now t.
Proof.
  unfold INSERT_ON_DUPLICATE_KEY_UPDATE. case_decide as Hin.
  - by rewrite UPDATE_keys.
  - rewrite fmap_app. apply elem_of_app. right. by left.
Qed.

Lemma upsert_sets now t r :
  r ∈ upsert now t →
  customer_product_prices.key r = (customerID, productID) →
  customer_product_prices.price r = price
  ∧ customer_product_prices.is_active r = active.
Proof.
  unfold INSERT_ON_DUPLICATE_KEY_UPDATE. case_decide as Hin.
  - intros (x & Hx & [[HP ->]|[HP ->]])%elem_of_UPDATE Hk; done.
  - intros [Hr| ->%list_elem_of_singleton]%elem_of_app Hk; [|done].
    destruct Hin. rewrite <- Hk. by apply list_elem_of_fmap_2.
Qed.

(** The rows of the other keys are the rows there were. *)
Lemma upsert_others now t r :
  customer_product_prices.key r ≠ (customerID, productID) →
  r ∈ upsert now t ↔ r ∈ t.
Proof.
  intros Hk. unfold INSERT_ON_DUPLICATE_KEY_UPDATE. case_decide as Hin.
  - rewrite elem_of_UPDATE. split.
    + intros (x & Hx & [[HP ->]|[HP ->]]); [|done].
      destruct Hk. by destruct x.
    + intros Hr. exists r. split; [done|]. by right.
  - rewrite elem_of_app, list_elem_of_singleton. split; [|by left].
    intros [?| ->]; [done|]. by destruct Hk.
Qed.

(** Submitting the same values again changes nothing, whenever the
    second request arrives. *)
Lemma upsert_idempotent now1 now2 t :
  upsert now2 (upsert now1 t) = upsert now1 t.
Proof.
  unfold INSERT_ON_DUPLICATE_KEY_UPDATE at 1.
  rewrite decide_True by apply upsert_has_key.
  apply UPDATE_id. intros r Hr Hk.
  destruct (upsert_sets _ _ _ Hr Hk) as [<- <-].
  unfold customer_product_prices.key in Hk. by destruct r; simplify_eq/=.
Qed.

(** With the key in place, exactly one row has it. *)
Lemma upsert_one_row now t :
  NoDup (customer_product_prices.key <$> t) →
  length (filter (λ r, customer_product_prices.key r
                       = (customerID, productID)) (upsert now t)) = 1%nat.
Proof.
  intros Hpk.
  destruct (list_elem_of_fmap_1 _ _ _ (upsert_has_key now t))
    as (r & Hk & Hr).
  rewrite (filter_pk customer_product_prices.key _ _ r);
    [done|by apply upsert_pk|done|done|].
  intros x ->. done.
Qed.
End upsert.

Lemma upsert_handler_inv now req db db' :
  upsertCustomerPriceHandler now (Some req) db = (JSON StatusOK H_ok, db') →
  COUNT (λ p, products.id p = UpsertCustomerPriceReq.ProductID req)
        (t_products db) ≠ 0
  ∧ COUNT (λ u, users.id u = UpsertCustomerPriceReq.CustomerID req)
          (t_users db) ≠ 0
  ∧ UpsertCustomerPriceReq.CustomerID req ≠ 0
  ∧ UpsertCustomerPriceReq.ProductID req ≠ 0
  ∧ db' = set_customer_product_prices
            (INSERT_ON_DUPLICATE_KEY_UPDATE now
               (UpsertCustomerPriceReq.CustomerID req)
               (UpsertCustomerPriceReq.ProductID req)
               (UpsertCustomerPriceReq.Price req)
               (default true (UpsertCustomerPriceReq.IsActive req))
               (t_customer_product_prices db))
            db.
Proof.
  unfold upsertCustomerPriceHandler.
  repeat case_decide; intros [= <-] || intros [=].
  split_and!; [done..|tauto|tauto|done].
Qed.

(** An accepted price fits the column. *)
Lemma upsert_handler_range now req db db' :
  upsertCustomerPriceHandler now (Some req) db = (JSON StatusOK H_ok, db') →
  DECIMAL_10_2 (UpsertCustomerPriceReq.Price req).
Proof.
  unfold upsertCustomerPriceHandler.
  by repeat case_decide; intros [= <-] || intros [=].
Qed.

(** C9.  [upsertCustomerPriceHandler] is idempotent.  When a request is
    accepted and the same request is sent again (at any later time), the
    second request is accepted too and leaves the database as the first
    one left it: the override table has the same rows, so the same
    number of rows, every effective price resolves as before, and the
    table holds exactly one row for the (customer, product) key of the
    request, its primary key being kept. *)
Theorem upsertCustomerPrice_idempotent now1 now2 req db db1 :
  customer_product_prices_pk db →
  upsertCustomerPriceHandler now1 (Some req) db = (JSON StatusOK H_ok, db1) →
  upsertCustomerPriceHandler now2 (Some req) db1 = (JSON StatusOK H_ok, db1)
  ∧ (let db2 := (upsertCustomerPriceHandler now2 (Some req) db1).2 in
     t_customer_product_prices db2 = t_customer_product_prices db1
     ∧ length (t_customer_product_prices db2)
       = length (t_customer_product_prices db1)
     ∧ ∀ c p, resolveEffectivePrice db2 c p = resolveEffectivePrice db1 c p)
  ∧ customer_product_prices_pk db1
  ∧ length (filter (λ r, customer_product_prices.key r
                         = (UpsertCustomerPriceReq.CustomerID req,
                            UpsertCustomerPriceReq.ProductID req))
                   (t_customer_product_prices db1)) = 1%nat.
Proof.
  intros Hpk H1.
  pose proof (upsert_handler_range _ _ _ _ H1) as Hrange.
  apply upsert_handler_inv in H1 as (Hp & Hu & Hc0 & Hp0 & ->).
  assert (upsertCustomerPriceHandler now2 (Some req)
            (set_customer_product_prices
               (INSERT_ON_DUPLICATE_KEY_UPDATE now1
                  (UpsertCustomerPriceReq.CustomerID req)
                  (UpsertCustomerPriceReq.ProductID req)
                  (UpsertCustomerPriceReq.Price req)
                  (default true (UpsertCustomerPriceReq.IsActive req))
                  (t_customer_product_prices db)) db)
          = (JSON StatusOK H_ok,
             set_customer_product_prices
               (INSERT_ON_DUPLICATE_KEY_UPDATE now1
                  (UpsertCustomerPriceReq.CustomerID req)
                  (UpsertCustomerPriceReq.ProductID req)
                  (UpsertCustomerPriceReq.Price req)
                  (default true (UpsertCustomerPriceReq.IsActive req))
                  (t_customer_product_prices db)) db)) as H2.
  { unfold upsertCustomerPriceHandler.
    rewrite decide_False by tauto. simpl.
    rewrite !decide_False by done. rewrite decide_True by done.
    by rewrite upsert_idempotent. }
  split_and!.
  - exact H2.
  - by rewrite H2.
  - by apply upsert_pk.
  - by apply upsert_one_row.
Qed.

(** The theorem at an override of 8.50 for customer 1 and product 1 of
    [sample_db]. *)
Lemma upsertCustomerPrice_idempotent_witness :
  let req := UpsertCustomerPriceReq.mk 1 1 850 (Some true) in
  let db1 := (upsertCustomerPriceHandler 100 (Some req) sample_db).2 in
  customer_product_prices_pk sample_db
  ∧ upsertCustomerPriceHandler 100 (Some req) sample_db
    = (JSON StatusOK H_ok, db1)
  ∧ upsertCustomerPriceHandler 200 (Some req) db1 = (JSON StatusOK H_ok, db1)
  ∧ length (t_customer_product_prices db1) = 1%nat.
Proof.
  intros req db1.
  assert (customer_product_prices_pk sample_db) as Hpk by apply NoDup_nil_2.
  assert (upsertCustomerPriceHandler 100 (Some req) sample_db
          = (JSON StatusOK H_ok, db1)) as H1 by reflexivity.
  destruct (upsertCustomerPrice_idempotent 100 200 req sample_db db1 Hpk H1)
    as (H2 & _ & _ & _).
  split_and!; [exact Hpk|exact H1|exact H2|reflexivity].
Defined.

(** ** Order creation *)

Lemma sumZ_cons x l : sumZ (x :: l) = x + sumZ l.
Proof. done. Qed.

Lemma sumZ_app l k : sumZ (l ++ k) = sumZ l + sumZ k.
Proof.
  induction l as [|x l IH]; [done|].
  rewrite <- app_comm_cons, !sumZ_cons, IH. lia.
Qed.

(** The second point read finds a row wherever the first one does ... *)
Lemma resolve_unit_price_is_Some db C P x :
  resolveEffectivePrice db C P = Some x → is_Some (queryUnitPrice db C P).
Proof.
  unfold resolveEffectivePrice, queryUnitPrice. intros Hx.
  apply head_Some_elem_of, list_elem_of_fmap in Hx as (r & _ & Hr).
  apply list_elem_of_filter in Hr as [[Hid _] Hr].
  apply head_is_Some. intros E.
  apply fmap_nil_inv in E.
  by apply (filter_nil_not_elem_of _ _ r E).
Qed.

(** ... and, the product key being a key, the same row. *)
Lemma resolve_unit_price db C P x :
  products_pk db →
  resolveEffectivePrice db C P = Some x → queryUnitPrice db C P = Some x.
Proof.
  intros Hpk Hx.
  destruct (resolve_Some_inv _ _ _ _ Hx) as (p & Hp & <- & Ha).
  revert Hx. unfold resolveEffectivePrice, queryUnitPrice.
  by rewrite resolve_rows, unit_price_rows.
Qed.

(** The price reads do not look at the order tables. *)
Lemma queryUnitPrice_set_order_items t n tx C P :
  queryUnitPrice (set_order_items t n tx) C P = queryUnitPrice tx C P.
Proof. done. Qed.

Lemma queryUnitPrice_set_orders t n tx C P :
  queryUnitPrice (set_orders t n tx) C P = queryUnitPrice tx C P.
Proof. done. Qed.

Lemma item_rows_ext tx tx' C oid n items :
  t_products tx' = t_products tx →
  t_customer_product_prices tx' = t_customer_product_prices tx →
  item_rows tx' C oid n items = item_rows tx C oid n items.
Proof.
  intros Hp Hc. revert n. induction items as [|it items IH]; intros n; [done|].
  simpl. rewrite IH. do 2 f_equal.
  unfold queryUnitPrice, products_with_override. by rewrite Hp, Hc.
Qed.

(** The first loop stops at the first item that does not resolve. *)
Lemma range_subtotal_fail tx C items subtotal :
  (∃ it, it ∈ items
         ∧ resolveEffectivePrice tx C (OrderItemReq.ProductID it) = None) →
  ∃ it, it ∈ items
        ∧ resolveEffectivePrice tx C (OrderItemReq.ProductID it) = None
        ∧ range_subtotal tx C items subtotal
          = inl (JSON StatusBadRequest
                   (H_error ("producto " +:+ pretty (OrderItemReq.ProductID it)
                             +:+ " no válido"))).
Proof.
  revert subtotal. induction items as [|it items IH]; intros subtotal.
  - intros (? & []%elem_of_nil & _).
  - intros Hex. simpl.
    destruct (resolveEffectivePrice tx C (OrderItemReq.ProductID it))
      as [x|] eqn:E.
    + destruct (IH (fadd subtotal
                      (fmul (to_float64 x)
                            (float64_of_int (OrderItemReq.Qty it)))))
        as (it' & Hin & Hnone & Hr).
      * destruct Hex as (it' & [->|Hin]%elem_of_cons & Hnone);
          [congruence|by exists it'].
      * exists it'. split; [by right|done].
    + exists it. split; [left|done].
Qed.

(** When it runs to the end every item resolved, and the subtotal has
    taken in, item after item, the resolved price times the quantity. *)
Lemma range_subtotal_acc tx C items subtotal total :
  range_subtotal tx C items subtotal = inr total →
  Forall (λ it, is_Some (resolveEffectivePrice tx C
                           (OrderItemReq.ProductID it))) items
  ∧ total
    = foldl (λ subtotal l, fadd subtotal
                             (fmul (to_float64 l.1) (float64_of_int l.2)))
        subtotal (requested_lines tx C items).
Proof.
  revert subtotal. induction items as [|it items IH]; intros subtotal.
  - intros [= <-]. split; [constructor|done].
  - cbn [range_subtotal].
    destruct (resolveEffectivePrice tx C (OrderItemReq.ProductID it))
      as [x|] eqn:E; [|done].
    intros [Hall ->]%IH. split.
    + constructor; [by rewrite E|done].
    + unfold requested_lines. rewrite fmap_cons. simpl. by rewrite E.
Qed.

Lemma range_subtotal_ok tx C items total :
  range_subtotal tx C items float64_0 = inr total →
  Forall (λ it, is_Some (resolveEffectivePrice tx C
                           (OrderItemReq.ProductID it))) items
  ∧ total = float64_total (requested_lines tx C items).
Proof. apply range_subtotal_acc. Qed.

Lemma range_subtotal_total tx C items subtotal :
  Forall (λ it, is_Some (resolveEffectivePrice tx C
                           (OrderItemReq.ProductID it))) items →
  ∃ total, range_subtotal tx C items subtotal = inr total.
Proof.
  intros Hall. revert subtotal.
  induction Hall as [|it items [x Hx] _ IH]; intros subtotal; simpl.
  - by eexists.
  - rewrite Hx. apply IH.
Qed.

(** The second loop writes [item_rows]. *)
Lemma range_insert_items_ok tx C oid items :
  Forall (λ it, is_Some (queryUnitPrice tx C (OrderItemReq.ProductID it)))
         items →
  range_insert_items tx C oid items
  = inr (set_order_items
           (t_order_items tx
            ++ item_rows tx C oid (next_order_item_id tx) items)
           (next_order_item_id tx + Z.of_nat (length items)) tx).
Proof.
  intros Hall. revert tx Hall.
  induction items as [|it items IH]; intros tx Hall; simpl.
  - rewrite app_nil_r, Z.add_0_r. by destruct tx.
  - apply Forall_cons in Hall as [[x Hx] Hall]. rewrite Hx.
    rewrite IH by done. simpl. f_equal. unfold set_order_items. simpl.
    f_equal.
    + rewrite <- app_assoc. simpl. do 2 f_equal.
      by apply item_rows_ext.
    + lia.
Qed.

(** [createOrderHandler] either answers 400 and leaves the database as
    it was, or answers 201 with the key of the new order and commits
    [order_created]. *)
Lemma createOrderHandler_cases now body db :
  (∃ msg, createOrderHandler now body db
          = (JSON StatusBadRequest (H_error msg), db))
  ∨ (∃ req subtotal,
       body = Some req
       ∧ CreateOrderReq.CustomerID req ≠ 0
       ∧ CreateOrderReq.AddressID req ≠ 0
       ∧ CreateOrderReq.Items req ≠ []
       ∧ range_subtotal db (CreateOrderReq.CustomerID req)
           (CreateOrderReq.Items req) float64_0 = inr subtotal
       ∧ createOrderHandler now body db
         = (JSON StatusCreated (H_order_id (next_order_id db)),
            order_created now req subtotal db)).
Proof.
  destruct body as [req|]; [|left; by eexists].
  unfold createOrderHandler. case_decide as Hv; [left; by eexists|].
  destruct (range_subtotal db _ _ float64_0) as [resp|subtotal] eqn:E.
  - left.
    destruct (Forall_Exists_dec
      (λ it, is_Some (resolveEffectivePrice db (CreateOrderReq.CustomerID req)
                        (OrderItemReq.ProductID it)))
      (λ it, ¬ is_Some (resolveEffectivePrice db
                          (CreateOrderReq.CustomerID req)
                          (OrderItemReq.ProductID it)))
      (λ it, decide _) (CreateOrderReq.Items req)) as [Hall|Hex].
    + destruct (range_subtotal_total _ _ _ float64_0 Hall) as [? ?].
      congruence.
    + apply Exists_exists in Hex as (it & Hin & Hnone).
      destruct (range_subtotal_fail db (CreateOrderReq.CustomerID req)
                  (CreateOrderReq.Items req) float64_0)
        as (it' & _ & _ & Hr).
      { exists it. split; [done|].
        by apply eq_None_not_Some. }
      rewrite Hr in E. injection E as <-. by eexists.
  - right. exists req, subtotal.
    destruct (range_subtotal_ok _ _ _ _ E) as [Hall _].
    split_and!; [done|tauto|tauto| |done|].
    { intros Hnil. apply Hv. right. right. by rewrite Hnil. }
    rewrite range_insert_items_ok.
    { unfold order_created. simpl.
      by rewrite (item_rows_ext db) by done. }
    eapply Forall_impl; [exact Hall|].
    intros it [x Hx]. by eapply resolve_unit_price_is_Some.
Qed.

(** C3.  Order creation is all-or-nothing.  When the effective price of
    some requested item does not resolve (its product is absent or not
    on sale), [createOrderHandler] answers 400 and the database after
    the request is the database before it: no [orders] row, no
    [order_items] row and no [order_status_history] row is added. *)
Theorem createOrder_all_or_nothing now req db :
  (∃ it, it ∈ CreateOrderReq.Items req
         ∧ resolveEffectivePrice db (CreateOrderReq.CustomerID req)
             (OrderItemReq.ProductID it) = None) →
  (∃ msg, (createOrderHandler now (Some req) db).1
          = JSON StatusBadRequest (H_error msg))
  ∧ (createOrderHandler now (Some req) db).2 = db
  ∧ t_orders (createOrderHandler now (Some req) db).2 = t_orders db
  ∧ t_order_items (createOrderHandler now (Some req) db).2
    = t_order_items db
  ∧ t_order_status_history (createOrderHandler now (Some req) db).2
    = t_order_status_history db.
Proof.
  intros (it & Hin & Hnone).
  destruct (createOrderHandler_cases now (Some req) db)
    as [[msg ->]|(req' & subtotal & [= <-] & _ & _ & _ & Hsub & _)].
  - split_and!; [by exists msg|done..].
  - apply range_subtotal_ok in Hsub as [Hall _].
    rewrite Forall_forall in Hall. apply Hall in Hin as [x Hx]. congruence.
Qed.

(** The theorem at a request of customer 1 for product 1 and for
    product 2, which [sample_db] has withdrawn from sale. *)
Lemma createOrder_all_or_nothing_witness :
  let req := CreateOrderReq.mk 1 7
               [OrderItemReq.mk 1 2; OrderItemReq.mk 2 1] None None in
  resolveEffectivePrice sample_db 1 2 = None
  ∧ createOrderHandler 200 (Some req) sample_db
    = (JSON StatusBadRequest (H_error "producto 2 no válido"), sample_db).
Proof.
  intros req. split; [reflexivity|].
  destruct (createOrder_all_or_nothing 200 req sample_db) as (_ & Hdb & _).
  - exists (OrderItemReq.mk 2 1). split; [right; left|reflexivity].
  - rewrite <- Hdb at 2. reflexivity.
Defined.

(** C6, amended.  [createOrderHandler] rejects the request with status
    400 before any write when [customer_id] or [address_id] is unset
    (zero) or the list of items is empty.  The quantities of the items
    are not part of this check. *)
Theorem createOrder_validation now req db :
  CreateOrderReq.CustomerID req = 0
  ∨ CreateOrderReq.AddressID req = 0
  ∨ CreateOrderReq.Items req = [] →
  createOrderHandler now (Some req) db
  = (JSON StatusBadRequest
       (H_error "customer_id, address_id e items requeridos"), db).
Proof.
  intros Hv. unfold createOrderHandler.
  rewrite decide_True; [done|].
  destruct Hv as [?|[?| ->]]; auto.
Qed.

Lemma createOrder_validation_witness :
  let req := CreateOrderReq.mk 1 7 [] None None in
  CreateOrderReq.Items req = []
  ∧ createOrderHandler 200 (Some req) sample_db
    = (JSON StatusBadRequest
         (H_error "customer_id, address_id e items requeridos"), sample_db).
Proof.
  intros req. split; [reflexivity|].
  apply (createOrder_validation 200 req sample_db).
  right. right. reflexivity.
Defined.

(** C6, counterexample.  The quantity of an item is not checked: a
    request whose only item has quantity 0 is not rejected.  It is
    answered 201, and an order with that item is written. *)
Lemma createOrder_accepts_zero_quantity :
  let req := CreateOrderReq.mk 1 7 [OrderItemReq.mk 1 0] None None in
  (∃ it, it ∈ CreateOrderReq.Items req ∧ ¬ 0 < OrderItemReq.Qty it)
  ∧ (createOrderHandler 200 (Some req) sample_db).1
    = JSON StatusCreated (H_order_id 1)
  ∧ t_orders (createOrderHandler 200 (Some req) sample_db).2
    = [orders.mk 1 1 7 None "por_atender" float64_0 float64_0
          None None None (Some 200)]
  ∧ t_order_items (createOrderHandler 200 (Some req) sample_db).2
    = [order_items.mk 1 1 1 0 1000].
Proof.
  intros req. split_and!; [|reflexivity..].
  exists (OrderItemReq.mk 1 0). split; [left|]. simpl. lia.
Qed.

(** ** The invariant of the API *)

Lemma Forall_UPDATE {A} (Q : A → Prop) (P : A → Prop) `{∀ a, Decision (P a)}
    (set : A → A) (l : list A) :
  (∀ x, Q x → Q (set x)) → Forall Q l → Forall Q (UPDATE P set l).
Proof.
  intros Hset Hl. unfold UPDATE. apply Forall_fmap.
  eapply Forall_impl; [exact Hl|]. intros x Hx. simpl.
  case_decide; auto.
Qed.

Lemma NoDup_fmap_filter {A K} (key : A → K) (P : A → Prop)
    `{∀ a, Decision (P a)} (l : list A) :
  NoDup (key <$> l) → NoDup (key <$> filter P l).
Proof.
  induction l as [|a l IH]; [done|].
  rewrite fmap_cons. intros [Ha Hl]%NoDup_cons.
  destruct (decide (P a)).
  - rewrite filter_cons_True, fmap_cons by done.
    apply NoDup_cons. split; [|auto].
    intros (x & Hk & [_ Hx]%list_elem_of_filter)%list_elem_of_fmap.
    apply Ha. rewrite Hk. by apply list_elem_of_fmap_2.
  - rewrite filter_cons_False by done. auto.
Qed.

Lemma consistent_empty : consistent empty_db.
Proof.
  split; try apply NoDup_nil_2; by constructor.
Qed.

(** Requests that touch the [users] table only. *)
Lemma consistent_set_users t n db :
  consistent db → consistent (set_users t n db).
Proof. intros []. by split. Qed.

(** Requests that rewrite products in place, keeping their keys. *)
Lemma consistent_update_products P `{∀ p, Decision (P p)} set db :
  (∀ p, products.id (set p) = products.id p) →
  consistent db →
  consistent (set_products (UPDATE P set (t_products db))
                (next_product_id db) db).
Proof.
  intros Hset [].
  split; try done; unfold products_pk; simpl;
    by rewrite (UPDATE_keys products.id).
Qed.

Lemma consistent_createProduct body db :
  consistent db → consistent (createProductHandler body db).2.
Proof.
  intros Hc. destruct body as [req|]; [|done].
  destruct Hc. split; try done; simpl.
  - unfold products_pk. simpl. rewrite fmap_app. apply NoDup_app.
    split_and!; [done| |apply NoDup_singleton].
    intros i Hi ->%list_elem_of_singleton.
    rewrite Forall_forall in c_products_lt0.
    apply c_products_lt0 in Hi. simpl in Hi. lia.
  - rewrite fmap_app. apply Forall_app. split.
    + eapply Forall_impl; [done|]. simpl. intros; lia.
    + apply Forall_singleton. simpl. lia.
  - eapply Forall_impl; [done|]. simpl. intros it Hit.
    rewrite fmap_app. apply elem_of_app. by left.
Qed.

Lemma consistent_set_prices t db :
  NoDup (customer_product_prices.key <$> t) →
  consistent db → consistent (set_customer_product_prices t db).
Proof. intros Ht []. by split. Qed.

(** Requests that rewrite orders in place, keeping their key and their
    amounts. *)
Lemma consistent_update_orders P `{∀ o, Decision (P o)} set db :
  (∀ o, orders.id (set o) = orders.id o
        ∧ orders.subtotal (set o) = orders.subtotal o
        ∧ orders.delivery_fee (set o) = orders.delivery_fee o) →
  consistent db →
  consistent (set_orders (UPDATE P set (t_orders db)) (next_order_id db) db).
Proof.
  intros Hset [].
  split; try done; unfold orders_pk; simpl.
  - rewrite (UPDATE_keys orders.id); [done|]. intros o. apply Hset.
  - rewrite (UPDATE_keys orders.id); [done|]. intros o. apply Hset.
  - apply Forall_UPDATE; [|done]. intros o.
    destruct (Hset o) as (-> & -> & ->). done.
Qed.

Lemma consistent_insert_history now id old new by_ note db :
  consistent db → consistent (insert_history now id old new by_ note db).
Proof. intros []. by split. Qed.

(** The rows [createOrderHandler] writes for the items of a request. *)
Lemma item_rows_order_id tx C oid n items :
  Forall (λ r, order_items.order_id r = oid) (item_rows tx C oid n items).
Proof.
  revert n. induction items as [|it items IH]; intros n; simpl;
    by constructor.
Qed.

Lemma item_rows_products tx C oid n items :
  Forall (λ it, is_Some (resolveEffectivePrice tx C
                           (OrderItemReq.ProductID it))) items →
  Forall (λ r, order_items.product_id r ∈ products.id <$> t_products tx)
         (item_rows tx C oid n items).
Proof.
  intros Hall. revert n.
  induction Hall as [|it items [x Hx] _ IH]; intros n; simpl.
  { constructor. }
  constructor; [|done]. simpl.
  destruct (resolve_Some_inv _ _ _ _ Hx) as (p & Hp & <- & _).
  by apply list_elem_of_fmap_2.
Qed.

(** The written rows carry the lines the first loop added up: the
    second read returns the price the first one did. *)
Lemma item_rows_lines tx C oid n items :
  products_pk tx →
  Forall (λ it, is_Some (resolveEffectivePrice tx C
                           (OrderItemReq.ProductID it))) items →
  (λ it, (order_items.unit_price it, order_items.qty it)) <$>
  item_rows tx C oid n items
  = requested_lines tx C items.
Proof.
  intros Hpk Hall. revert n. unfold requested_lines.
  induction Hall as [|it items [x Hx] _ IH]; intros n; [done|].
  cbn [item_rows]. rewrite !fmap_cons, IH. simpl.
  by rewrite Hx, (resolve_unit_price _ _ _ _ Hpk Hx).
Qed.

Lemma item_rows_total tx C oid n items :
  products_pk tx →
  Forall (λ it, is_Some (resolveEffectivePrice tx C
                           (OrderItemReq.ProductID it))) items →
  items_float64_total (item_rows tx C oid n items)
  = float64_total (requested_lines tx C items).
Proof.
  intros Hpk Hall. unfold items_float64_total.
  by rewrite item_rows_lines.
Qed.

Lemma consistent_order_created now req subtotal db :
  range_subtotal db (CreateOrderReq.CustomerID req)
    (CreateOrderReq.Items req) float64_0 = inr subtotal →
  consistent db → consistent (order_created now req subtotal db).
Proof.
  intros [Hall ->]%range_subtotal_ok Hc.
  apply consistent_insert_history. destruct Hc.
  assert (∀ o, o ∈ t_orders db → orders.id o < next_order_id db) as Hlt.
  { intros o Ho. rewrite Forall_forall in c_orders_lt0.
    apply (c_orders_lt0 (orders.id o)). by apply list_elem_of_fmap_2. }
  assert (∀ k, k ≠ next_order_id db →
            filter (λ it, order_items.order_id it = k)
              (item_rows db (CreateOrderReq.CustomerID req)
                 (next_order_id db) (next_order_item_id db)
                 (CreateOrderReq.Items req)) = []) as Hnew_other.
  { intros k Hk. apply filter_none. intros r Hr Hid.
    pose proof (item_rows_order_id db (CreateOrderReq.CustomerID req)
                  (next_order_id db) (next_order_item_id db)
                  (CreateOrderReq.Items req)) as Hrows.
    rewrite Forall_forall in Hrows. apply Hrows in Hr. congruence. }
  split; try done; simpl.
  - unfold orders_pk. simpl. rewrite fmap_app. apply NoDup_app.
    split_and!; [done| |apply NoDup_singleton].
    intros i Hi ->%list_elem_of_singleton.
    rewrite Forall_forall in c_orders_lt0.
    apply c_orders_lt0 in Hi. simpl in Hi. lia.
  - rewrite fmap_app. apply Forall_app. split.
    + eapply Forall_impl; [done|]. simpl. intros; lia.
    + apply Forall_singleton. simpl. lia.
  - apply Forall_app. split.
    + eapply Forall_impl; [exact c_items_order0|]. simpl. intros; lia.
    + eapply Forall_impl; [apply item_rows_order_id|].
      simpl. intros; lia.
  - apply Forall_app. split; [done|]. by apply item_rows_products.
  - apply Forall_app. split.
    + rewrite Forall_forall in c_totals0. apply Forall_forall.
      intros o Ho. destruct (c_totals0 o Ho) as [Hsub Hfee].
      split; [|done]. rewrite Hsub. f_equal. unfold items_of. simpl.
      rewrite filter_app, Hnew_other, app_nil_r; [done|].
      apply Hlt in Ho. lia.
    + apply Forall_singleton. simpl. split; [|done].
      unfold items_of. simpl. rewrite filter_app.
      rewrite filter_none.
      * rewrite filter_all.
        { by rewrite app_nil_l, item_rows_total. }
        apply Forall_forall, item_rows_order_id.
      * intros r Hr. rewrite Forall_forall in c_items_order0.
        apply c_items_order0 in Hr. lia.
Qed.

Lemma consistent_createOrder now body db :
  consistent db → consistent (createOrderHandler now body db).2.
Proof.
  intros Hc.
  destruct (createOrderHandler_cases now body db)
    as [[msg ->]|(req & subtotal & _ & _ & _ & _ & Hsub & ->)]; [done|].
  by apply consistent_order_created.
Qed.

Lemma consistent_assignOrder now id body db :
  consistent db → consistent (assignOrderHandler now id body db).2.
Proof.
  intros Hc. unfold assignOrderHandler.
  destruct body as [req|]; [|done].
  case_decide; [done|].
  destruct (select_status db id) as [old|]; [|done].
  case_decide; [done|]. simpl.
  apply consistent_insert_history.
  by apply consistent_update_orders.
Qed.

Lemma consistent_updateOrderStatus now id body db :
  consistent db → consistent (updateOrderStatusHandler now id body db).2.
Proof.
  intros Hc. unfold updateOrderStatusHandler.
  destruct body as [req|]; [|done].
  case_decide; [done|].
  destruct (select_status db id) as [old|]; [|done].
  destruct (negb _); [done|]. simpl.
  apply consistent_insert_history.
  by apply consistent_update_orders.
Qed.

(** Every request keeps the invariant. *)
Lemma consistent_serve now r db :
  consistent db → consistent (serve now r db).2.
Proof.
  intros Hc. destruct r as [body|id body|c|body|id body|id|c|body|c p|body
                           |c d|id|id body|id body]; simpl; try done.
  - destruct body as [req|]; [|done]. simpl.
    case_decide; [done|]. by apply consistent_set_users.
  - destruct body as [req|]; [|done]. simpl.
    case_decide; [done|].
    case_decide; by apply consistent_set_users.
  - by apply consistent_createProduct.
  - destruct body as [req|]; [|done]. simpl.
    case_decide; by apply consistent_update_products.
  - unfold deleteProductHandler.
    case_decide; by apply consistent_update_products.
  - destruct body as [req|]; [|done]. simpl.
    repeat (case_decide; [done|]). case_decide; [|done].
    apply consistent_set_prices; [|done].
    apply upsert_pk, Hc.
  - destruct c as [cid|], p as [pid|]; try done. simpl.
    apply consistent_set_prices; [|done].
    apply NoDup_fmap_filter, Hc.
  - by apply consistent_createOrder.
  - by apply consistent_assignOrder.
  - by apply consistent_updateOrderStatus.
Qed.

Lemma reachable_consistent db : reachable db → consistent db.
Proof.
  induction 1 as [|now r db _ IH];
    [apply consistent_empty|by apply consistent_serve].
Qed.

(** ** Reading an order *)

Lemma fmap_fst_filter {A B} (P : A → Prop) `{∀ a, Decision (P a)}
    (l : list (A * B)) :
  (filter (λ r, P r.1) l).*1 = filter P (l.*1).
Proof.
  induction l as [|[a b] l IH]; [done|]. rewrite fmap_cons. simpl.
  destruct (decide (P a)).
  - rewrite !filter_cons_True by done. rewrite fmap_cons, IH. done.
  - rewrite !filter_cons_False by done. done.
Qed.

(** Joined with the catalogue, every line item appears once. *)
Lemma JOIN_products_fst db (l : list order_items.row) :
  products_pk db →
  Forall (λ it, order_items.product_id it ∈ products.id <$> t_products db) l →
  (JOIN (H := λ oi p, Z.eq_dec _ _)
        (λ oi p, products.id p = order_items.product_id oi)
        l (t_products db)).*1 = l.
Proof.
  intros Hpk Hl. unfold JOIN.
  induction Hl as [|it l Hit _ IH]; [done|].
  rewrite bind_cons, fmap_app, IH.
  apply list_elem_of_fmap in Hit as (p & Hid & Hp).
  rewrite (filter_pk products.id _ _ p); [done|done|done|done|].
  intros q Hq. congruence.
Qed.

(** The items [getOrderHandler] returns carry the quantities and unit
    prices of the stored rows of the order, in the same sequence. *)
Lemma getOrder_items db id :
  consistent db →
  (λ r : order_items.row * products.row,
     (order_items.qty r.1, order_items.unit_price r.1)) <$>
    filter (λ r, order_items.order_id r.1 = id)
      (JOIN (H := λ oi p, Z.eq_dec _ _)
            (λ oi p, products.id p = order_items.product_id oi)
            (t_order_items db) (t_products db))
  = (λ it, (order_items.qty it, order_items.unit_price it)) <$>
    items_of db id.
Proof.
  intros Hc. unfold items_of.
  rewrite <- (JOIN_products_fst db (t_order_items db)) at 2;
    [|apply Hc..].
  rewrite <- (fmap_fst_filter (λ it, order_items.order_id it = id)).
  rewrite <- list_fmap_compose. done.
Qed.


(** The stored rows behind the items [getOrderHandler] returns. *)
Lemma getOrder_item_rows db id :
  consistent db →
  (filter (λ r : order_items.row * products.row,
             order_items.order_id r.1 = id)
     (JOIN (H := λ oi p, Z.eq_dec _ _)
           (λ oi p, products.id p = order_items.product_id oi)
           (t_order_items db) (t_products db))).*1
  = items_of db id.
Proof.
  intros Hc. unfold items_of.
  rewrite <- (JOIN_products_fst db (t_order_items db)) at 2;
    [|apply Hc..].
  by rewrite <- (fmap_fst_filter (λ it, order_items.order_id it = id)).
Qed.





(** Nor with positive quantities only: after 2147483647 units at
    99999999.99, four single units at 10.00 leave the subtotal where it
    was. *)
Example order_subtotal_absorbs_items :
  let big := OrderItemReq.mk 1 2147483647 in
  let one := OrderItemReq.mk 2 1 in
  range_subtotal cancelling_catalogue 1 [big; one; one; one; one] float64_0
  = range_subtotal cancelling_catalogue 1 [big] float64_0
  ∧ range_subtotal cancelling_catalogue 1 [big] float64_0
    ≠ inr (to_float64 (9999999999 * 2147483647 + 4 * 1000)).
Proof. split; [by vm_compute|]. vm_compute. discriminate. Qed.

(** ** The bulk read and the point reads *)

(** The rows of the listing of [listProductsHandler] for a customer. *)
Lemma listProducts_rows db C :
  ∃ rows,
    listProductsHandler (Some C) db
    = JSON StatusOK (B_products (scanProduct <$> rows))
    ∧ ∀ r, r ∈ rows ↔
           ∃ p, p ∈ t_products db ∧ products.is_active p = true
                ∧ r ∈ joined p (overrides_for db C p).
Proof.
  eexists. split; [reflexivity|]. intros r. unfold ORDER_BY.
  rewrite merge_sort_Permutation. unfold products_with_override.
  rewrite (LEFT_JOIN_where _ _ (λ p, products.is_active p = true)) by done.
  rewrite elem_of_LEFT_JOIN. split.
  - intros (p & [Ha Hp]%list_elem_of_filter & Hr). by exists p.
  - intros (p & Hp & Ha & Hr). exists p. split; [|done].
    by apply list_elem_of_filter.
Qed.

(** The listing has an entry for [P] priced [x] exactly when the first
    point read resolves [P] to [x]. *)
Lemma listing_resolve db C :
  products_pk db → customer_product_prices_pk db →
  ∃ listing,
    listProductsHandler (Some C) db = JSON StatusOK (B_products listing)
    ∧ ∀ P x, resolveEffectivePrice db C P = Some x ↔
             ∃ e, e ∈ listing ∧ Product.ID e = P ∧ Product.Price e = x.
Proof.
  intros Hpk Hcpk.
  destruct (listProducts_rows db C) as (rows & Hlist & Hrows).
  exists (scanProduct <$> rows). split; [done|].
  intros P x. split.
  - intros Hx.
    destruct (resolve_Some_inv _ _ _ _ Hx) as (p & Hp & <- & Ha).
    destruct (overrides_for_pk db C p Hcpk) as (o & Hj & Ho).
    rewrite (resolve_active db C p o) in Hx by done.
    injection Hx as <-.
    exists (scanProduct (p, o)). split; [|done].
    apply list_elem_of_fmap_2, Hrows. exists p.
    split_and!; [done..|]. rewrite Hj. left.
  - intros (e & (r & -> & Hr)%list_elem_of_fmap & <- & <-).
    apply Hrows in Hr as (p & Hp & Ha & Hr).
    destruct (overrides_for_pk db C p Hcpk) as (o & Hj & Ho).
    rewrite Hj in Hr. apply list_elem_of_singleton in Hr as ->.
    by apply resolve_active.
Qed.

(** C1.  Price resolution for a customer [C] and a product [p] on sale,
    in a database whose tables keep their primary keys:
    - when the override table has an active row for [(C, p)],
      [resolveEffectivePrice] returns the price of that row;
    - otherwise (no row for [(C, p)], or a row with [is_active = false])
      it returns the base price of [p];
    - switching an override off through the upsert keeps its row, with
      its price, in the table, and resolution then returns the base
      price;
    - the listing of [listProductsHandler] for [C] has an entry for [p]
      at the resolved price. *)
Theorem resolveEffectivePrice_precedence db C p :
  products_pk db → customer_product_prices_pk db →
  p ∈ t_products db → products.is_active p = true →
  (∀ r, r ∈ t_customer_product_prices db →
        customer_product_prices.key r = (C, products.id p) →
        customer_product_prices.is_active r = true →
        resolveEffectivePrice db C (products.id p)
        = Some (customer_product_prices.price r))
  ∧ ((∀ r, r ∈ t_customer_product_prices db →
           customer_product_prices.key r = (C, products.id p) →
           customer_product_prices.is_active r = false) →
     resolveEffectivePrice db C (products.id p) = Some (products.price p))
  ∧ (∀ now price db',
       upsertCustomerPriceHandler now
         (Some (UpsertCustomerPriceReq.mk C (products.id p) price (Some false)))
         db = (JSON StatusOK H_ok, db') →
       (∃ r, r ∈ t_customer_product_prices db'
             ∧ customer_product_prices.key r = (C, products.id p)
             ∧ customer_product_prices.price r = price
             ∧ customer_product_prices.is_active r = false)
       ∧ resolveEffectivePrice db' C (products.id p)
         = Some (products.price p))
  ∧ (∃ listing e,
       listProductsHandler (Some C) db = JSON StatusOK (B_products listing)
       ∧ e ∈ listing ∧ Product.ID e = products.id p
       ∧ resolveEffectivePrice db C (products.id p)
         = Some (Product.Price e)).
Proof.
  intros Hpk Hcpk Hp Ha. split_and!.
  - intros r Hr Hk Hact.
    by rewrite (resolve_active db C p (Some r)); [|done..|constructor].
  - intros Hnone.
    by rewrite (resolve_active db C p None); [|done..|constructor].
  - intros now price db' (_ & _ & _ & _ & ->)%upsert_handler_inv.
    simpl. split.
    + destruct (list_elem_of_fmap_1 _ _ _
        (upsert_has_key C (products.id p) price false now
           (t_customer_product_prices db))) as (r & Hk & Hr).
      exists r. split; [done|]. split; [done|].
      by eapply upsert_sets.
    + rewrite (resolve_active _ C p None); [done|done| |done|done|].
      * by apply upsert_pk.
      * constructor. intros r Hr Hk. simpl in Hr.
        by eapply proj2, upsert_sets.
  - destruct (listing_resolve db C Hpk Hcpk) as (listing & Hlist & Hiff).
    destruct (overrides_for_pk db C p Hcpk) as (o & _ & Ho).
    pose proof (resolve_active db C p o Hpk Hcpk Hp Ha Ho) as Hx.
    destruct (proj1 (Hiff _ _) Hx) as (e & He & Hid & Hprice).
    exists listing, e. split_and!; [done..|]. by rewrite Hprice.
Qed.

(** The theorem at product 1 of [sample_db_override], for customer 1
    (who has the override) and the active row of the table. *)
Lemma resolveEffectivePrice_precedence_witness :
  let p := products.mk 1 "Bidon 20L" None 1000 true in
  products_pk sample_db_override
  ∧ customer_product_prices_pk sample_db_override
  ∧ p ∈ t_products sample_db_override
  ∧ products.is_active p = true
  ∧ resolveEffectivePrice sample_db_override 1 1 = Some 850.
Proof.
  intros p.
  assert (products_pk sample_db_override) as Hpk
    by (unfold products_pk; compute_done).
  assert (customer_product_prices_pk sample_db_override) as Hcpk
    by (unfold customer_product_prices_pk; compute_done).
  assert (p ∈ t_products sample_db_override) as Hp by left.
  destruct (resolveEffectivePrice_precedence sample_db_override 1 p
              Hpk Hcpk Hp eq_refl) as (H & _ & _ & _).
  split_and!; [done..|].
  apply (H (customer_product_prices.mk 1 1 850 true 100)); [left|done..].
Defined.

Lemma item_rows_Forall2 tx C oid n items :
  products_pk tx →
  Forall (λ it, is_Some (resolveEffectivePrice tx C
                           (OrderItemReq.ProductID it))) items →
  Forall2 (λ it row,
             order_items.order_id row = oid
             ∧ order_items.product_id row = OrderItemReq.ProductID it
             ∧ order_items.qty row = OrderItemReq.Qty it
             ∧ resolveEffectivePrice tx C (OrderItemReq.ProductID it)
               = Some (order_items.unit_price row))
          items (item_rows tx C oid n items).
Proof.
  intros Hpk Hall. revert n.
  induction Hall as [|it items [x Hx] _ IH]; intros n; simpl;
    constructor; [|done].
  simpl. by rewrite (resolve_unit_price _ _ _ _ Hpk Hx).
Qed.

(** C5.  The bulk read ([listProductsHandler] with a customer) and the
    point reads of [createOrderHandler] apply the same precedence, in a
    database whose tables keep their primary keys:
    - the first point read resolves product [P] to [x] exactly when the
      listing has an entry for [P], and that entry is priced [x];
    - it fails exactly when the listing has no entry for [P] (the
      product is absent or not on sale);
    - the second point read returns the price of the first wherever the
      first resolves;
    - the unit price [createOrderHandler] stores with each line item of
      an accepted order is the price of the listing entry of its
      product. *)
Theorem bulk_and_point_reads_agree db C :
  products_pk db → customer_product_prices_pk db →
  ∃ listing,
    listProductsHandler (Some C) db = JSON StatusOK (B_products listing)
    ∧ (∀ P x, resolveEffectivePrice db C P = Some x ↔
              ∃ e, e ∈ listing ∧ Product.ID e = P ∧ Product.Price e = x)
    ∧ (∀ P, resolveEffectivePrice db C P = None ↔
            ∀ e, e ∈ listing → Product.ID e ≠ P)
    ∧ (∀ P x, resolveEffectivePrice db C P = Some x →
              queryUnitPrice db C P = Some x)
    ∧ (∀ now req oid db',
         CreateOrderReq.CustomerID req = C →
         createOrderHandler now (Some req) db
         = (JSON StatusCreated (H_order_id oid), db') →
         ∃ rows,
           t_order_items db' = t_order_items db ++ rows
           ∧ Forall2 (λ it row,
                        order_items.order_id row = oid
                        ∧ order_items.product_id row
                          = OrderItemReq.ProductID it
                        ∧ order_items.qty row = OrderItemReq.Qty it
                        ∧ ∃ e, e ∈ listing
                               ∧ Product.ID e = OrderItemReq.ProductID it
                               ∧ Product.Price e
                                 = order_items.unit_price row)
                     (CreateOrderReq.Items req) rows).
Proof.
  intros Hpk Hcpk.
  destruct (listing_resolve db C Hpk Hcpk) as (listing & Hlist & Hiff).
  exists listing. split; [done|].
  split_and!; [done| | |].
  - intros P. split.
    + intros Hnone e He Hid.
      assert (resolveEffectivePrice db C P = Some (Product.Price e)) as Hx
        by (apply Hiff; by exists e).
      congruence.
    + intros Hno.
      destruct (resolveEffectivePrice db C P) as [x|] eqn:Hx; [|done].
      apply Hiff in Hx as (e & He & Hid & _). by destruct (Hno e He).
  - intros P x. by apply resolve_unit_price.
  - intros now req oid db' <- Hcreate.
    destruct (createOrderHandler_cases now (Some req) db)
      as [[msg Hm]|(req' & subtotal & [= <-] & _ & _ & _ & Hsub & Hok)].
    { rewrite Hm in Hcreate. discriminate Hcreate. }
    rewrite Hok in Hcreate. injection Hcreate as <- <-.
    apply range_subtotal_ok in Hsub as [Hall _].
    eexists. split; [reflexivity|].
    eapply Forall2_impl;
      [apply (item_rows_Forall2 db (CreateOrderReq.CustomerID req)); done|].
    intros it row (? & ? & ? & Hx). split_and!; [done..|].
    by apply Hiff.
Qed.

(** The theorem at customer 1 of [sample_db_override]: the listing and
    the point read both price product 1 at the override, 8.50. *)
Lemma bulk_and_point_reads_agree_witness :
  products_pk sample_db_override
  ∧ customer_product_prices_pk sample_db_override
  ∧ listProductsHandler (Some 1) sample_db_override
    = JSON StatusOK (B_products [Product.mk 1 "Bidon 20L" None 850 true])
  ∧ resolveEffectivePrice sample_db_override 1 1 = Some 850.
Proof.
  assert (products_pk sample_db_override) as Hpk
    by (unfold products_pk; compute_done).
  assert (customer_product_prices_pk sample_db_override) as Hcpk
    by (unfold customer_product_prices_pk; compute_done).
  destruct (bulk_and_point_reads_agree sample_db_override 1 Hpk Hcpk)
    as (listing & Hlist & Hiff & _).
  split_and!; [done|done|reflexivity|].
  apply Hiff. exists (Product.mk 1 "Bidon 20L" None 850 true).
  split; [|done].
  assert (listing = [Product.mk 1 "Bidon 20L" None 850 true]) as ->
    by (injection Hlist as <-; reflexivity).
  left.
Defined.

(** ** The state machine *)

Lemma valid_lookup old :
  valid !!! old
  = if decide (old = pending) then [assigned; cancelled]
    else if decide (old = assigned) then [en_route; cancelled]
    else if decide (old = en_route) then [delivered]
    else [].
Proof.
  unfold valid. rewrite lookup_total_alt.
  repeat case_decide; subst; try done.
  by rewrite !lookup_insert_ne, lookup_singleton_ne by done.
Qed.

(** The loop over [valid[old]] accepts exactly the transitions of the
    table of the specification. *)
Lemma range_allowed_transition old new :
  range_allowed (valid !!! old) new false = true ↔ transition old new.
Proof.
  rewrite valid_lookup. split.
  - repeat case_decide; subst; simpl; repeat case_decide; subst;
      try done; intros _; constructor.
  - by intros []; vm_compute.
Qed.

Lemma transition_cases old new :
  transition old new ↔
  (old = pending ∧ (new = assigned ∨ new = cancelled))
  ∨ (old = assigned ∧ (new = en_route ∨ new = cancelled))
  ∨ (old = en_route ∧ new = delivered).
Proof.
  split.
  - intros []; tauto.
  - intros [[-> [-> | ->]]|[[-> [-> | ->]]|[-> ->]]]; constructor.
Qed.

Lemma select_status_pk db i o :
  orders_pk db → t_orders db !! i = Some o →
  select_status db (orders.id o) = Some (orders.status o).
Proof.
  intros Hpk Hi. unfold select_status.
  rewrite (filter_pk orders.id _ _ o); [done|done| |done|done].
  by eapply list_elem_of_lookup_2.
Qed.

Lemma select_status_none db id :
  (∀ o, o ∈ t_orders db → orders.id o ≠ id) →
  select_status db id = None.
Proof.
  intros Hno. unfold select_status. by rewrite filter_none.
Qed.

Lemma orders_UPDATE_pk db i o set :
  orders_pk db → t_orders db !! i = Some o →
  UPDATE (λ o', orders.id o' = orders.id o) set (t_orders db)
  = <[i := set o]> (t_orders db).
Proof.
  intros Hpk Hi. by apply (UPDATE_pk orders.id).
Qed.

(** What [updateOrderStatusHandler] does with a well-formed request for
    an order that exists. *)
Lemma updateOrderStatus_accept now req db i o :
  orders_pk db → t_orders db !! i = Some o →
  UpdateStatusReq.NewStatus req ≠ "" → UpdateStatusReq.ChangedBy req ≠ 0 →
  transition (orders.status o) (UpdateStatusReq.NewStatus req) →
  updateOrderStatusHandler now (orders.id o) (Some req) db
  = (JSON StatusOK H_ok,
     insert_history now (orders.id o) (Some (orders.status o))
       (UpdateStatusReq.NewStatus req) (UpdateStatusReq.ChangedBy req)
       (UpdateStatusReq.Note req)
       (set_orders
          (<[i := with_status now (UpdateStatusReq.NewStatus req) o]>
             (t_orders db))
          (next_order_id db) db)).
Proof.
  intros Hpk Hi Hs Hby Ht. unfold updateOrderStatusHandler.
  rewrite decide_False by tauto.
  rewrite (select_status_pk db i o) by done.
  apply range_allowed_transition in Ht. rewrite Ht. simpl.
  by rewrite (orders_UPDATE_pk db i o).
Qed.

Lemma updateOrderStatus_reject now req db i o :
  orders_pk db → t_orders db !! i = Some o →
  UpdateStatusReq.NewStatus req ≠ "" → UpdateStatusReq.ChangedBy req ≠ 0 →
  ¬ transition (orders.status o) (UpdateStatusReq.NewStatus req) →
  updateOrderStatusHandler now (orders.id o) (Some req) db
  = (JSON StatusBadRequest
       (H_error ("transición inválida " +:+ orders.status o +:+ " → "
                 +:+ UpdateStatusReq.NewStatus req)), db).
Proof.
  intros Hpk Hi Hs Hby Ht. unfold updateOrderStatusHandler.
  rewrite decide_False by tauto.
  rewrite (select_status_pk db i o) by done.
  rewrite <- range_allowed_transition in Ht.
  apply not_true_is_false in Ht. by rewrite Ht.
Qed.

(** C2.  For an order [o] of the table and a well-formed request
    ([new_status] and [changed_by] set), [updateOrderStatusHandler]
    - accepts the request exactly for the transitions
      pending → assigned, pending → cancelled, assigned → en_route,
      assigned → cancelled and en_route → delivered, and then the order
      has the new status;
    - otherwise answers 400 with the message
      ["transición inválida <current> → <requested>"], which names both
      statuses, and leaves the database, so the status of the order, as
      it was;
    - in particular rejects every request for an order that is
      delivered or cancelled. *)
Theorem updateStatus_transitions now req db i o :
  orders_pk db → t_orders db !! i = Some o →
  UpdateStatusReq.NewStatus req ≠ "" → UpdateStatusReq.ChangedBy req ≠ 0 →
  let old := orders.status o in
  let new := UpdateStatusReq.NewStatus req in
  let result := updateOrderStatusHandler now (orders.id o) (Some req) db in
  let invalid :=
    JSON StatusBadRequest
      (H_error ("transición inválida " +:+ old +:+ " → " +:+ new)) in
  (result.1 = JSON StatusOK H_ok ↔
     (old = pending ∧ (new = assigned ∨ new = cancelled))
     ∨ (old = assigned ∧ (new = en_route ∨ new = cancelled))
     ∨ (old = en_route ∧ new = delivered))
  ∧ (result.1 = JSON StatusOK H_ok →
     orders.status <$> t_orders result.2 !! i = Some new)
  ∧ (result.1 ≠ JSON StatusOK H_ok →
     result = (invalid, db)
     ∧ orders.status <$> t_orders result.2 !! i = Some old)
  ∧ (old = delivered ∨ old = cancelled → result = (invalid, db)).
Proof.
  intros Hpk Hi Hs Hby old new result invalid.
  assert (transition old new → result.1 = JSON StatusOK H_ok
            ∧ orders.status <$> t_orders result.2 !! i = Some new) as Hacc.
  { intros Ht. unfold result.
    rewrite (updateOrderStatus_accept now req db i o) by done. simpl.
    split; [done|].
    rewrite list_lookup_insert_eq by (by eapply lookup_lt_Some). done. }
  assert (¬ transition old new → result = (invalid, db)) as Hrej.
  { intros Ht. by apply (updateOrderStatus_reject now req db i o). }
  assert (transition old new ∨ ¬ transition old new) as Hdec.
  { destruct (range_allowed (valid !!! old) new false) eqn:E.
    - left. by apply range_allowed_transition.
    - right. rewrite <- range_allowed_transition. congruence. }
  split_and!.
  - rewrite <- transition_cases. split; [|apply Hacc].
    intros Hok. destruct Hdec as [?|Hn]; [done|].
    rewrite (Hrej Hn) in Hok. discriminate Hok.
  - intros Hok. destruct Hdec as [Ht|Hn]; [by apply Hacc|].
    rewrite (Hrej Hn) in Hok. discriminate Hok.
  - intros Hno. destruct Hdec as [Ht|Hn]; [by destruct Hno; apply Hacc|].
    rewrite (Hrej Hn). simpl. by rewrite Hi.
  - intros Hterm. apply Hrej. intros Ht.
    apply transition_cases in Ht.
    destruct Hterm as [Hd|Hd]; rewrite Hd in Ht;
      destruct Ht as [[? _]|[[? _]|[? _]]]; discriminate.
Qed.

(** The theorem at the pending order of [sample_reachable] and the
    request to mark it delivered. *)
Lemma updateStatus_transitions_witness :
  let req := UpdateStatusReq.mk "entregado" None 1 in
  let o := orders.mk 1 1 7 None "por_atender" (to_float64 3000) float64_0
              None None None
             (Some 200) in
  orders_pk sample_reachable
  ∧ t_orders sample_reachable !! 0%nat = Some o
  ∧ UpdateStatusReq.NewStatus req ≠ ""
  ∧ UpdateStatusReq.ChangedBy req ≠ 0
  ∧ updateOrderStatusHandler 300 1 (Some req) sample_reachable
    = (JSON StatusBadRequest
         (H_error "transición inválida por_atender → entregado"),
       sample_reachable).
Proof.
  intros req o.
  assert (orders_pk sample_reachable) as Hpk
    by (unfold orders_pk; compute_done).
  assert (t_orders sample_reachable !! 0%nat = Some o) as Hi by reflexivity.
  assert (UpdateStatusReq.NewStatus req ≠ "") as Hs by done.
  assert (UpdateStatusReq.ChangedBy req ≠ 0) as Hby by done.
  destruct (updateStatus_transitions 300 req sample_reachable 0 o
              Hpk Hi Hs Hby) as (_ & _ & Hrej & _).
  split_and!; [done..|].
  apply Hrej. discriminate.
Defined.

(** C8.  An accepted status update rewrites the row of the order and
    nothing else in [orders]: the row takes the new status; its
    [delivered_at] becomes the current time when the new status is
    delivered and keeps its value otherwise; every other column keeps
    its value.  The other tables are as they were, but for the one row
    appended to the history. *)
Theorem updateStatus_frame now req db i o :
  orders_pk db → t_orders db !! i = Some o →
  UpdateStatusReq.NewStatus req ≠ "" → UpdateStatusReq.ChangedBy req ≠ 0 →
  let new := UpdateStatusReq.NewStatus req in
  let result := updateOrderStatusHandler now (orders.id o) (Some req) db in
  result.1 = JSON StatusOK H_ok →
  ∃ o',
    t_orders result.2 = <[i := o']> (t_orders db)
    ∧ orders.status o' = new
    ∧ (new = delivered → orders.delivered_at o' = Some now)
    ∧ (new ≠ delivered → orders.delivered_at o' = orders.delivered_at o)
    ∧ orders.id o' = orders.id o
    ∧ orders.customer_id o' = orders.customer_id o
    ∧ orders.address_id o' = orders.address_id o
    ∧ orders.assigned_driver_id o' = orders.assigned_driver_id o
    ∧ orders.subtotal o' = orders.subtotal o
    ∧ orders.delivery_fee o' = orders.delivery_fee o
    ∧ orders.notes o' = orders.notes o
    ∧ orders.scheduled_at o' = orders.scheduled_at o
    ∧ orders.created_at o' = orders.created_at o
    ∧ t_users result.2 = t_users db
    ∧ t_products result.2 = t_products db
    ∧ t_customer_product_prices result.2 = t_customer_product_prices db
    ∧ t_order_items result.2 = t_order_items db
    ∧ t_order_status_history result.2
      = t_order_status_history db
        ++ [order_status_history.mk (next_history_id db) (orders.id o)
              (Some (orders.status o)) new (UpdateStatusReq.ChangedBy req)
              (Some now) (UpdateStatusReq.Note req)].
Proof.
  intros Hpk Hi Hs Hby new result Hok.
  assert (transition (orders.status o) new) as Ht.
  { destruct (range_allowed (valid !!! orders.status o) new false) eqn:E;
      [by apply range_allowed_transition|].
    unfold result in Hok.
    rewrite (updateOrderStatus_reject now req db i o) in Hok;
      [discriminate Hok|done..|].
    rewrite <- range_allowed_transition. unfold new in E. congruence. }
  unfold result.
  rewrite (updateOrderStatus_accept now req db i o) by done.
  exists (with_status now new o). simpl.
  split_and!; try done.
  - intros Hd. by rewrite decide_True.
  - intros Hd. by rewrite decide_False.
Qed.

(** The theorem at the order of [sample_reachable], once assigned and on
    its way, and the request to mark it delivered at time 500. *)
Lemma updateStatus_frame_witness :
  let db :=
    (serve 400 (PATCH_status 1 (Some (UpdateStatusReq.mk "en_camino" None 9)))
       (serve 300 (PATCH_assign 1 (Some (AssignOrderReq.mk 9)))
          sample_reachable).2).2 in
  let req := UpdateStatusReq.mk "entregado" None 9 in
  let o := orders.mk 1 1 7 (Some 9) "en_camino" (to_float64 3000) float64_0
              None None None
             (Some 200) in
  orders_pk db
  ∧ t_orders db !! 0%nat = Some o
  ∧ (updateOrderStatusHandler 500 1 (Some req) db).1 = JSON StatusOK H_ok
  ∧ t_orders (updateOrderStatusHandler 500 1 (Some req) db).2
    = [orders.mk 1 1 7 (Some 9) "entregado" (to_float64 3000) float64_0
          None None (Some 500)
         (Some 200)].
Proof.
  intros db req o.
  assert (orders_pk db) as Hpk by (unfold orders_pk; compute_done).
  assert (t_orders db !! 0%nat = Some o) as Hi by reflexivity.
  assert ((updateOrderStatusHandler 500 1 (Some req) db).1
          = JSON StatusOK H_ok) as Hok by reflexivity.
  destruct (updateStatus_frame 500 req db 0 o Hpk Hi) as (o' & Ht & _);
    [done|done|exact Hok|].
  split_and!; [done..|reflexivity].
Defined.

(** What [assignOrderHandler] does with a request that names a driver. *)
Lemma assignOrder_accept now req db i o :
  orders_pk db → t_orders db !! i = Some o →
  AssignOrderReq.DriverID req ≠ 0 → orders.status o = pending →
  assignOrderHandler now (orders.id o) (Some req) db
  = (JSON StatusOK H_ok,
     insert_history now (orders.id o) (Some pending) assigned
       (AssignOrderReq.DriverID req) (Some "Asignado a repartidor")
       (set_orders
          (<[i := with_driver (AssignOrderReq.DriverID req) o]> (t_orders db))
          (next_order_id db) db)).
Proof.
  intros Hpk Hi Hd Hs. unfold assignOrderHandler.
  rewrite decide_False by done.
  rewrite (select_status_pk db i o), Hs by done.
  rewrite decide_False by (by intros []).
  by rewrite (orders_UPDATE_pk db i o).
Qed.

Lemma assignOrder_reject now req db i o :
  orders_pk db → t_orders db !! i = Some o →
  AssignOrderReq.DriverID req ≠ 0 → orders.status o ≠ pending →
  assignOrderHandler now (orders.id o) (Some req) db
  = (JSON StatusBadRequest
       (H_error "solo pedidos 'por_atender' pueden asignarse"), db).
Proof.
  intros Hpk Hi Hd Hs. unfold assignOrderHandler.
  rewrite decide_False by done.
  rewrite (select_status_pk db i o) by done.
  by rewrite decide_True.
Qed.

Lemma assignOrder_not_found now id req db :
  AssignOrderReq.DriverID req ≠ 0 →
  (∀ o, o ∈ t_orders db → orders.id o ≠ id) →
  assignOrderHandler now id (Some req) db
  = (JSON StatusNotFound (H_error "pedido no existe"), db).
Proof.
  intros Hd Hno. unfold assignOrderHandler.
  rewrite decide_False by done.
  by rewrite select_status_none.
Qed.

(** C7.  For a request that names a driver, [assignOrderHandler]
    - answers 404 ["pedido no existe"] and changes nothing when no order
      has the id;
    - for the order [o] that has the id: when [o] is pending, answers
      200 and leaves in place of [o] the same row with status assigned
      and the driver of the request as assigned driver, and records the
      transition in the history; when [o] is not pending, answers 400
      ["solo pedidos 'por_atender' pueden asignarse"] and changes
      nothing;
    - so it succeeds exactly when an order with the id exists and is
      pending. *)
Theorem assignOrder_only_pending now id req db :
  orders_pk db → AssignOrderReq.DriverID req ≠ 0 →
  let driver := AssignOrderReq.DriverID req in
  let result := assignOrderHandler now id (Some req) db in
  ((∀ o, o ∈ t_orders db → orders.id o ≠ id) →
   result = (JSON StatusNotFound (H_error "pedido no existe"), db))
  ∧ (∀ i o, t_orders db !! i = Some o → orders.id o = id →
       (orders.status o = pending →
        result.1 = JSON StatusOK H_ok
        ∧ ∃ o', t_orders result.2 = <[i := o']> (t_orders db)
                ∧ o' = with_driver driver o
                ∧ orders.status o' = assigned
                ∧ orders.assigned_driver_id o' = Some driver
                ∧ t_order_status_history result.2
                  = t_order_status_history db
                    ++ [order_status_history.mk (next_history_id db) id
                          (Some pending) assigned driver (Some now)
                          (Some "Asignado a repartidor")])
       ∧ (orders.status o ≠ pending →
          result = (JSON StatusBadRequest
                      (H_error "solo pedidos 'por_atender' pueden asignarse"),
                    db)))
  ∧ (result.1 = JSON StatusOK H_ok ↔
     ∃ o, o ∈ t_orders db ∧ orders.id o = id ∧ orders.status o = pending).
Proof.
  intros Hpk Hd driver result.
  assert (∀ i o, t_orders db !! i = Some o → orders.id o = id →
            orders.status o = pending →
            result = (JSON StatusOK H_ok,
                      insert_history now id (Some pending) assigned driver
                        (Some "Asignado a repartidor")
                        (set_orders (<[i := with_driver driver o]> (t_orders db))
                           (next_order_id db) db))) as Hacc.
  { intros i o Hi <- Hs. by apply assignOrder_accept. }
  assert (∀ i o, t_orders db !! i = Some o → orders.id o = id →
            orders.status o ≠ pending →
            result = (JSON StatusBadRequest
                        (H_error "solo pedidos 'por_atender' pueden asignarse"),
                      db)) as Hrej.
  { intros i o Hi <- Hs. by apply (assignOrder_reject now req db i o). }
  split_and!.
  - by apply assignOrder_not_found.
  - intros i o Hi Hid. split.
    + intros Hs. rewrite (Hacc i o) by done. simpl. split; [done|].
      by exists (with_driver driver o).
    + by apply (Hrej i o).
  - split.
    + intros Hok.
      destruct (decide (id ∈ orders.id <$> t_orders db)) as [Hin|Hnin].
      * apply list_elem_of_fmap in Hin as (o & Hid & Ho).
        exists o. split_and!; [done..|].
        destruct (decide (orders.status o = pending)) as [|Hs]; [done|].
        apply list_elem_of_lookup in Ho as [i Hi].
        rewrite (Hrej i o) in Hok by done. discriminate Hok.
      * unfold result in Hok. rewrite assignOrder_not_found in Hok;
          [discriminate Hok|done|].
        intros o Ho Hid. apply Hnin. rewrite <- Hid.
        by apply list_elem_of_fmap_2.
    + intros (o & [i Hi]%list_elem_of_lookup & Hid & Hs).
      by rewrite (Hacc i o).
Qed.

(** The theorem at the pending order of [sample_reachable] and driver 9. *)
Lemma assignOrder_only_pending_witness :
  let req := AssignOrderReq.mk 9 in
  orders_pk sample_reachable
  ∧ AssignOrderReq.DriverID req ≠ 0
  ∧ (assignOrderHandler 300 1 (Some req) sample_reachable).1
    = JSON StatusOK H_ok
  ∧ t_orders (assignOrderHandler 300 1 (Some req) sample_reachable).2
    = [orders.mk 1 1 7 (Some 9) "asignado" (to_float64 3000) float64_0
          None None None (Some 200)].
Proof.
  intros req.
  assert (orders_pk sample_reachable) as Hpk
    by (unfold orders_pk; compute_done).
  assert (AssignOrderReq.DriverID req ≠ 0) as Hd by done.
  destruct (assignOrder_only_pending 300 1 req sample_reachable Hpk Hd)
    as (_ & Hcase & _).
  destruct (Hcase 0%nat
              (orders.mk 1 1 7 None "por_atender" (to_float64 3000) float64_0
                  None None None
                 (Some 200)) eq_refl eq_refl) as [Hacc _].
  destruct (Hacc eq_refl) as [Hok _].
  split_and!; [done|done|exact Hok|reflexivity].
Defined.

(** ** Listing orders *)

Global Instance desc_transitive {A} (key : A → Z) : Transitive (desc key).
Proof. intros a b c. unfold desc. lia. Qed.

Global Instance desc_total {A} (key : A → Z) : Total (desc key).
Proof. intros a b. unfold desc. lia. Qed.

(** C10.  An order is returned with the columns of its row, and with
    [subtotal + delivery_fee] as total.  Without a customer and without
    a driver, [listOrdersHandler] returns at most 50 orders: the table
    splits into the rows returned and the rest, the orders returned are
    50 (all of them when the table has fewer), they come by descending
    id, and no row of the rest has a greater id than an order returned.
    With a customer, the driver is not looked at, and all the orders of
    the customer are returned, by descending id, however many they
    are. *)
Theorem listOrders_limit db :
  let shown := λ r,
    Order.mk (orders.id r) (orders.customer_id r) (orders.address_id r)
      (orders.assigned_driver_id r) (orders.status r) (orders.subtotal r)
      (orders.delivery_fee r)
      (fadd (orders.subtotal r) (orders.delivery_fee r)) (orders.notes r)
      (orders.scheduled_at r) (orders.delivered_at r) (orders.created_at r) in
  (∃ out rows rest,
     listOrdersHandler None None db = JSON StatusOK (B_orders out)
     ∧ out = shown <$> rows
     ∧ rows ++ rest ≡ₚ t_orders db
     ∧ (length out ≤ 50)%nat
     ∧ length out = (50 `min` length (t_orders db))%nat
     ∧ StronglySorted (λ a b, Order.ID b ≤ Order.ID a) out
     ∧ StronglySorted (λ a b, orders.id b ≤ orders.id a) rows
     ∧ (∀ o r', o ∈ out → r' ∈ rest → orders.id r' ≤ Order.ID o)
     ∧ ∀ r r', r ∈ rows → r' ∈ rest → orders.id r' ≤ orders.id r)
  ∧ (∀ c d,
       listOrdersHandler (Some c) d db = listOrdersHandler (Some c) None db
       ∧ ∃ out rows,
           listOrdersHandler (Some c) d db = JSON StatusOK (B_orders out)
           ∧ out = shown <$> rows
           ∧ rows ≡ₚ filter (λ o, orders.customer_id o = c) (t_orders db)
           ∧ length out
             = length (filter (λ o, orders.customer_id o = c) (t_orders db))
           ∧ StronglySorted (λ a b, Order.ID b ≤ Order.ID a) out
           ∧ StronglySorted (λ a b, orders.id b ≤ orders.id a) rows).
Proof.
  intros shown.
  assert (∀ rows, StronglySorted (λ a b, orders.id b ≤ orders.id a) rows →
                  StronglySorted (λ a b, Order.ID b ≤ Order.ID a)
                                 (shown <$> rows)) as Hshown.
  { intros rows. by apply StronglySorted_fmap. }
  split.
  - exists (shown <$> take 50 (ORDER_BY_DESC orders.id (t_orders db))),
           (take 50 (ORDER_BY_DESC orders.id (t_orders db))),
           (drop 50 (ORDER_BY_DESC orders.id (t_orders db))).
    pose proof (StronglySorted_merge_sort (desc orders.id) (t_orders db))
      as Hsorted.
    fold (ORDER_BY_DESC orders.id (t_orders db)) in Hsorted.
    rewrite <- (take_drop 50 (ORDER_BY_DESC orders.id (t_orders db)))
      in Hsorted.
    apply StronglySorted_app in Hsorted as (Hcross & Hrows & _).
    split_and!.
    + done.
    + done.
    + rewrite take_drop. apply merge_sort_Permutation.
    + rewrite length_fmap, length_take. lia.
    + rewrite length_fmap, length_take. unfold ORDER_BY_DESC.
      by rewrite merge_sort_Permutation.
    + by apply Hshown.
    + exact Hrows.
    + intros o r' (r & -> & Hr)%list_elem_of_fmap Hr'. simpl.
      by apply (Hcross r r').
    + intros r r' Hr Hr'. by apply (Hcross r r').
  - intros c d. split; [done|].
    assert (ORDER_BY_DESC orders.id
              (filter (λ o, orders.customer_id o = c) (t_orders db))
            ≡ₚ filter (λ o, orders.customer_id o = c) (t_orders db))
      as Hperm by apply merge_sort_Permutation.
    eexists _, _. split; [reflexivity|]. split_and!.
    + done.
    + done.
    + by rewrite length_fmap, Hperm.
    + apply Hshown, (StronglySorted_merge_sort (desc orders.id)).
    + apply (StronglySorted_merge_sort (desc orders.id)).
Qed.

(** With 51 orders in the table, the listing without a filter returns
    the orders 51 down to 2, and the listing for the customer returns
    all 51. *)
Example listOrders_51 :
  let shown := λ i, Order.mk i 1 7 None "por_atender" float64_0 float64_0
                      float64_0 None None None None in
  listOrdersHandler None None (many_orders 51)
  = JSON StatusOK (B_orders (shown <$> reverse (seqZ 2 50)))
  ∧ listOrdersHandler (Some 1) (Some 9) (many_orders 51)
    = JSON StatusOK (B_orders (shown <$> reverse (seqZ 1 51))).
Proof. by vm_compute. Qed.

(** The second point read of [createOrderHandler], taken alone, prices
    a product that is not on sale; the handler reaches it only for the
    items the first read has resolved. *)
Example queryUnitPrice_withdrawn_product :
  resolveEffectivePrice sample_db 1 2 = None
  ∧ queryUnitPrice sample_db 1 2 = Some 600.
Proof. by vm_compute. Qed.

(** The scenarios of the specification: three units at the base price
    of 10.00 make 30.00; with an override of 8.50, two units make
    17.00. *)
Example scenario_base_price :
  (createOrderHandler 200
     (Some (CreateOrderReq.mk 1 7 [OrderItemReq.mk 1 3] None None))
     sample_db).2
  = order_created 200
      (CreateOrderReq.mk 1 7 [OrderItemReq.mk 1 3] None None)
      (to_float64 3000) sample_db
  ∧ t_order_items
      (createOrderHandler 200
         (Some (CreateOrderReq.mk 1 7 [OrderItemReq.mk 1 3] None None))
         sample_db).2
    = [order_items.mk 1 1 1 3 1000].
Proof. by vm_compute. Qed.

Example scenario_override :
  (createOrderHandler 200
     (Some (CreateOrderReq.mk 1 7 [OrderItemReq.mk 1 2] None None))
     sample_db_override).2
  = order_created 200
      (CreateOrderReq.mk 1 7 [OrderItemReq.mk 1 2] None None)
      (to_float64 1700) sample_db_override
  ∧ t_order_items
      (createOrderHandler 200
         (Some (CreateOrderReq.mk 1 7 [OrderItemReq.mk 1 2] None None))
         sample_db_override).2
    = [order_items.mk 1 1 1 2 850].
Proof. by vm_compute. Qed.

(** * Further properties of the handlers *)

(** ** Requests that are refused *)

Lemma RowsAffected_0 {A} `{EqDecision A} (P : A → Prop)
    `{∀ a, Decision (P a)} (set : A → A) (l : list A) :
  RowsAffected l (UPDATE P set l) = 0 → UPDATE P set l = l.
Proof.
  unfold RowsAffected, UPDATE. intros Hz.
  assert (filter (λ p : A * A, p.1 ≠ p.2)
            (zip l ((λ r, if decide (P r) then set r else r) <$> l)) = [])
    as Hnil by (apply length_zero_iff_nil; lia).
  clear Hz. induction l as [|a l IH]; [done|].
  rewrite fmap_cons in *. simpl in Hnil.
  destruct (decide (a = (if decide (P a) then set a else a))) as [Ha|Ha].
  - rewrite filter_cons_False in Hnil by (simpl; intros Hne; by apply Hne).
    rewrite <- Ha. f_equal. by apply IH.
  - rewrite filter_cons_True in Hnil by done. done.
Qed.

(** X1.  A request that is not answered 200 or 201 leaves the database as it
    was, whatever the route. *)
Theorem refused_request_changes_nothing now r db :
  code (serve now r db).1 ≠ StatusOK →
  code (serve now r db).1 ≠ StatusCreated →
  (serve now r db).2 = db.
Proof.
  destruct r as [body|id body|c|body|id body|id|c|body|c p|body
                |c d|id|id body|id body]; simpl; try done.
  - destruct body as [req|]; [|done]. simpl. by case_decide.
  - destruct body as [req|]; [|done]. simpl.
    case_decide; [done|]. case_decide as Hz; [|done]. simpl. intros _ _.
    apply RowsAffected_0 in Hz. rewrite Hz. by destruct db.
  - by destruct body.
  - destruct body as [req|]; [|done]. simpl.
    case_decide as Hz; [|done]. simpl. intros _ _.
    apply RowsAffected_0 in Hz. rewrite Hz. by destruct db.
  - unfold deleteProductHandler.
    case_decide as Hz; [|done]. simpl. intros _ _.
    apply RowsAffected_0 in Hz. rewrite Hz. by destruct db.
  - destruct body as [req|]; [|done]. simpl. by repeat case_decide.
  - by destruct c, p.
  - destruct (createOrderHandler_cases now body db)
      as [[msg ->]|(req & subtotal & _ & _ & _ & _ & _ & ->)]; done.
  - unfold assignOrderHandler. destruct body as [req|]; [|done].
    case_decide; [done|]. destruct (select_status db id); [|done].
    by case_decide.
  - unfold updateOrderStatusHandler. destruct body as [req|]; [|done].
    case_decide; [done|]. destruct (select_status db id); [|done].
    by destruct (negb _).
Qed.

Lemma refused_request_changes_nothing_witness :
  code (serve 100 (PATCH_status 5 (Some (UpdateStatusReq.mk "entregado" None 1)))
          sample_reachable).1 = StatusNotFound
  ∧ (serve 100 (PATCH_status 5 (Some (UpdateStatusReq.mk "entregado" None 1)))
       sample_reachable).2 = sample_reachable.
Proof.
  split; [reflexivity|].
  apply refused_request_changes_nothing; by vm_compute.
Defined.

(** ** The life of an order *)

Lemma chained_snoc prev l h s :
  chained prev l →
  last (order_status_history.new_status <$> l) = Some s →
  order_status_history.old_status h = Some s →
  chained prev (l ++ [h]).
Proof.
  revert prev. induction l as [|a l IH]; intros prev; [done|].
  intros [Ha Hl] Hlast Hh. simpl. split; [done|].
  destruct l as [|b l].
  - simpl in *. split; [congruence|done].
  - apply IH; [done| |done]. by rewrite fmap_cons in Hlast.
Qed.

Lemma select_status_elem db id old :
  orders_pk db → select_status db id = Some old →
  (∃ o, o ∈ t_orders db ∧ orders.id o = id)
  ∧ ∀ o, o ∈ t_orders db → orders.id o = id → orders.status o = old.
Proof.
  intros Hpk Hsel. split.
  - unfold select_status in Hsel.
    apply head_Some_elem_of, list_elem_of_fmap in Hsel as (o & _ & Ho).
    apply list_elem_of_filter in Ho as [Hid Ho]. by exists o.
  - intros o [i Hi]%list_elem_of_lookup <-.
    rewrite (select_status_pk db i o) in Hsel by done. congruence.
Qed.

Lemma history_of_snoc db h k :
  filter (λ h, order_status_history.order_id h = k)
         (t_order_status_history db ++ [h])
  = history_of db k
    ++ (if decide (order_status_history.order_id h = k) then [h] else []).
Proof.
  by rewrite filter_app.
Qed.

Lemma transition_target old new :
  transition old new →
  new ∈ [pending; assigned; en_route; delivered; cancelled]
  ∧ new ≠ pending ∧ old ≠ delivered ∧ old ≠ cancelled.
Proof. intros []; split_and!; try done; set_solver. Qed.

(** An accepted transition keeps the invariants of the order table. *)
Lemma lifecycle_step now id old new by_ note set db :
  consistent db → lifecycle db →
  select_status db id = Some old → transition old new →
  (∀ o, orders.id (set o) = orders.id o
        ∧ orders.status (set o) = new
        ∧ orders.delivered_at (set o)
          = (if decide (new = delivered) then Some now
             else orders.delivered_at o)) →
  lifecycle
    (insert_history now id (Some old) new by_ note
       (set_orders (UPDATE (λ o, orders.id o = id) set (t_orders db))
          (next_order_id db) db)).
Proof.
  intros Hc Hl Hsel Ht Hset.
  destruct (select_status_elem db id old (c_orders_pk _ Hc) Hsel)
    as [(o0 & Ho0 & Hid0) Hold].
  destruct (transition_target old new Ht) as (Hnew & Hnp & Hnd & _).
  destruct Hl. split; simpl; try done.
  - apply Forall_forall. intros y (x & Hx & [[Hid ->]|[Hid ->]])%elem_of_UPDATE.
    + by rewrite (proj1 (proj2 (Hset x))).
    + rewrite Forall_forall in l_status0. by apply l_status0.
  - apply Forall_forall. intros y (x & Hx & [[Hid ->]|[Hid ->]])%elem_of_UPDATE.
    + rewrite (proj1 (proj2 (Hset x))). done.
    + rewrite Forall_forall in l_pending0. by apply l_pending0.
  - apply Forall_forall. intros y (x & Hx & [[Hid ->]|[Hid ->]])%elem_of_UPDATE.
    + destruct (Hset x) as (_ & -> & ->).
      rewrite Forall_forall in l_delivered0.
      case_decide as Hd; [by split; [|eauto]|].
      split; [|done]. intros Hsome. apply l_delivered0 in Hsome; [|done].
      rewrite (Hold x Hx Hid) in Hsome. done.
    + rewrite Forall_forall in l_delivered0. by apply l_delivered0.
  - apply Forall_app. split; [done|]. apply Forall_singleton.
    right. by exists old.
  - apply Forall_app. split; [done|]. apply Forall_singleton. simpl.
    pose proof (c_orders_lt _ Hc) as Hlt. rewrite Forall_forall in Hlt.
    apply (Hlt id). rewrite <- Hid0. by apply list_elem_of_fmap_2.
  - apply Forall_forall. intros y (x & Hx & [[Hid ->]|[Hid ->]])%elem_of_UPDATE;
      unfold history_of at 1; simpl; rewrite (history_of_snoc db); simpl;
      rewrite Forall_forall in l_chain0.
    + rewrite (proj1 (Hset x)), decide_True by done.
      eapply chained_snoc; [by apply l_chain0| |done].
      rewrite Forall_forall in l_latest0.
      rewrite (l_latest0 x Hx). f_equal. by apply Hold.
    + rewrite decide_False, app_nil_r by done. by apply l_chain0.
  - apply Forall_forall. intros y (x & Hx & [[Hid ->]|[Hid ->]])%elem_of_UPDATE;
      unfold history_of at 1; simpl; rewrite (history_of_snoc db); simpl;
      rewrite Forall_forall in l_latest0.
    + rewrite (proj1 (Hset x)), decide_True by done.
      rewrite fmap_app. simpl. rewrite last_snoc. f_equal.
      by rewrite (proj1 (proj2 (Hset x))).
    + rewrite decide_False, app_nil_r by done. by apply l_latest0.
  - rewrite fmap_app. apply NoDup_app.
    split_and!; [done| |apply NoDup_singleton].
    intros i Hi ->%list_elem_of_singleton.
    rewrite Forall_forall in l_history_lt0.
    apply l_history_lt0 in Hi. simpl in Hi. lia.
  - rewrite fmap_app. apply Forall_app. split.
    + eapply Forall_impl; [exact l_history_lt0|]. simpl. intros; lia.
    + apply Forall_singleton. simpl. lia.
  - rewrite fmap_app. apply StronglySorted_app.
    split_and!; [|done|repeat constructor].
    intros i j Hi ->%list_elem_of_singleton.
    rewrite Forall_forall in l_history_lt0. by apply l_history_lt0.
  - rewrite (UPDATE_keys orders.id) by (intros o; apply Hset).
    apply Forall_app. split; [done|]. apply Forall_singleton. simpl.
    rewrite <- Hid0. by apply list_elem_of_fmap_2.
Qed.

Lemma item_rows_ids tx C oid n items :
  NoDup (order_items.id <$> item_rows tx C oid n items)
  ∧ Forall (λ i, n ≤ i < n + Z.of_nat (length items))
           (order_items.id <$> item_rows tx C oid n items).
Proof.
  revert n. induction items as [|it items IH]; intros n.
  - split; [apply NoDup_nil_2|constructor].
  - destruct (IH (n + 1)) as [Hnd Hall].
    cbn [item_rows]. rewrite fmap_cons. simpl. split.
    + apply NoDup_cons. split; [|done]. intros Hin.
      rewrite Forall_forall in Hall. apply Hall in Hin. lia.
    + constructor; [lia|].
      eapply Forall_impl; [exact Hall|]. simpl. intros; lia.
Qed.

Lemma lifecycle_order_created now req subtotal db :
  consistent db → lifecycle db →
  lifecycle (order_created now req subtotal db).
Proof.
  intros Hc Hl.
  pose proof (c_orders_lt _ Hc) as Hlt. rewrite Forall_forall in Hlt.
  assert (∀ x, x ∈ t_orders db → orders.id x ≠ next_order_id db) as Hfresh.
  { intros x Hx Heq.
    specialize (Hlt (orders.id x) (list_elem_of_fmap_2 _ _ _ Hx)).
    simpl in Hlt. lia. }
  destruct (item_rows_ids db (CreateOrderReq.CustomerID req)
              (next_order_id db) (next_order_item_id db)
              (CreateOrderReq.Items req)) as [Hids_nd Hids].
  destruct Hl.
  assert (history_of db (next_order_id db) = []) as Hnone.
  { apply filter_none. intros h Hh Heq.
    rewrite Forall_forall in l_history_order0.
    apply l_history_order0 in Hh. simpl in Hh. lia. }
  split; unfold order_created; simpl; try done.
  - apply Forall_app. split; [done|]. apply Forall_singleton. simpl.
    set_solver.
  - apply Forall_app. split; [done|]. by apply Forall_singleton.
  - apply Forall_app. split; [done|]. apply Forall_singleton. simpl.
    split; [by intros [? ?]|done].
  - apply Forall_app. split; [done|]. apply Forall_singleton. by left.
  - apply Forall_app. split.
    + eapply Forall_impl; [exact l_history_order0|]. simpl. intros; lia.
    + apply Forall_singleton. simpl. lia.
  - apply Forall_app. split.
    + apply Forall_forall. intros x Hx.
      unfold history_of at 1. simpl. rewrite (history_of_snoc db). simpl.
      rewrite decide_False, app_nil_r by (symmetry; by apply Hfresh).
      rewrite Forall_forall in l_chain0. by apply l_chain0.
    + apply Forall_singleton. simpl.
      unfold history_of at 1. simpl. rewrite (history_of_snoc db). simpl.
      rewrite decide_True, Hnone by done. done.
  - apply Forall_app. split.
    + apply Forall_forall. intros x Hx.
      unfold history_of at 1. simpl. rewrite (history_of_snoc db). simpl.
      rewrite decide_False, app_nil_r by (symmetry; by apply Hfresh).
      rewrite Forall_forall in l_latest0. by apply l_latest0.
    + apply Forall_singleton. simpl.
      unfold history_of at 1. simpl. rewrite (history_of_snoc db). simpl.
      rewrite decide_True, Hnone by done. done.
  - rewrite fmap_app. apply NoDup_app. split_and!; [done| |done].
    intros i Hi Hi'. rewrite Forall_forall in l_items_lt0, Hids.
    apply l_items_lt0 in Hi. apply Hids in Hi'. simpl in Hi. lia.
  - rewrite fmap_app. apply Forall_app. split.
    + eapply Forall_impl; [exact l_items_lt0|]. simpl. intros; lia.
    + eapply Forall_impl; [exact Hids|]. simpl. intros; lia.
  - rewrite fmap_app. apply NoDup_app.
    split_and!; [done| |apply NoDup_singleton].
    intros i Hi ->%list_elem_of_singleton.
    rewrite Forall_forall in l_history_lt0.
    apply l_history_lt0 in Hi. simpl in Hi. lia.
  - rewrite fmap_app. apply Forall_app. split.
    + eapply Forall_impl; [exact l_history_lt0|]. simpl. intros; lia.
    + apply Forall_singleton. simpl. lia.
  - rewrite fmap_app. apply StronglySorted_app.
    split_and!; [|done|repeat constructor].
    intros i j Hi ->%list_elem_of_singleton.
    rewrite Forall_forall in l_history_lt0. by apply l_history_lt0.
  - rewrite fmap_app. apply Forall_app. split.
    + eapply Forall_impl; [exact l_history_exists0|]. simpl.
      intros h Hh. apply elem_of_app. by left.
    + apply Forall_singleton. simpl. apply elem_of_app. right. by left.
Qed.

Lemma lifecycle_set_products t n db :
  lifecycle db → lifecycle (set_products t n db).
Proof. intros []. by split. Qed.

Lemma lifecycle_set_prices t db :
  lifecycle db → lifecycle (set_customer_product_prices t db).
Proof. intros []. by split. Qed.

Lemma lifecycle_set_users t n db :
  NoDup (users.id <$> t) → Forall (λ i, i < n) (users.id <$> t) →
  lifecycle db → lifecycle (set_users t n db).
Proof. intros Hnd Hlt []. by split. Qed.

(** Every request keeps the invariants. *)
Lemma lifecycle_serve now r db :
  consistent db → lifecycle db → lifecycle (serve now r db).2.
Proof.
  intros Hc Hl.
  destruct r as [body|id body|c|body|id body|id|c|body|c p|body
                |c d|id|id body|id body]; simpl; try done.
  - destruct body as [req|]; [|done]. simpl.
    case_decide; [done|]. simpl.
    pose proof (l_users_lt _ Hl) as Hlt.
    apply lifecycle_set_users; [| |done].
    + rewrite fmap_app. apply NoDup_app.
      split_and!; [apply Hl| |apply NoDup_singleton].
      intros i Hi ->%list_elem_of_singleton.
      rewrite Forall_forall in Hlt. apply Hlt in Hi. simpl in Hi. lia.
    + rewrite fmap_app. apply Forall_app. split.
      * eapply Forall_impl; [exact Hlt|]. simpl. intros; lia.
      * apply Forall_singleton. simpl. lia.
  - destruct body as [req|]; [|done]. simpl.
    case_decide; [done|].
    case_decide; simpl; (apply lifecycle_set_users; [| |done]);
      rewrite (UPDATE_keys users.id) by done; apply Hl.
  - destruct body as [req|]; [|done]. by apply lifecycle_set_products.
  - destruct body as [req|]; [|done]. simpl.
    case_decide; by apply lifecycle_set_products.
  - unfold deleteProductHandler.
    case_decide; by apply lifecycle_set_products.
  - destruct body as [req|]; [|done]. simpl.
    repeat (case_decide; [done|]).
    case_decide; [by apply lifecycle_set_prices|done].
  - destruct c as [cid|], p as [pid|]; try done.
    by apply lifecycle_set_prices.
  - destruct (createOrderHandler_cases now body db)
      as [[msg ->]|(req & subtotal & _ & _ & _ & _ & _ & ->)]; [done|].
    by apply lifecycle_order_created.
  - unfold assignOrderHandler. destruct body as [req|]; [|done].
    case_decide; [done|].
    destruct (select_status db id) as [old|] eqn:Hsel; [|done].
    case_decide as Hold; [done|]. simpl.
    subst old.
    apply (lifecycle_step now id pending assigned); [done..|constructor|].
    intros o. by split_and!.
  - unfold updateOrderStatusHandler. destruct body as [req|]; [|done].
    case_decide; [done|].
    destruct (select_status db id) as [old|] eqn:Hsel; [|done].
    destruct (range_allowed _ _ _) eqn:Hallowed; [|done]. simpl.
    apply range_allowed_transition in Hallowed.
    apply (lifecycle_step now id old); [done..|].
    intros o. by split_and!.
Qed.

Lemma reachable_lifecycle db : reachable db → lifecycle db.
Proof.
  induction 1 as [|now r db Hr IH].
  - split; try apply NoDup_nil_2; by constructor.
  - apply lifecycle_serve; [by apply reachable_consistent|done].
Qed.

Global Instance asc_transitive {A} (key : A → Z) : Transitive (asc key).
Proof. intros a b c. unfold asc. lia. Qed.

Global Instance asc_total {A} (key : A → Z) : Total (asc key).
Proof. intros a b. unfold asc. lia. Qed.

Lemma pk_elem_eq {A K} (key : A → K) (l : list A) x y :
  NoDup (key <$> l) → x ∈ l → y ∈ l → key x = key y → x = y.
Proof.
  intros Hnd [i Hi]%list_elem_of_lookup [j Hj]%list_elem_of_lookup Hk.
  assert (i = j) as ->; [|congruence].
  eapply (NoDup_lookup _ i j); [exact Hnd|..];
    rewrite list_lookup_fmap; [rewrite Hi|rewrite Hj]; simpl;
    [done|by rewrite <- Hk].
Qed.

Lemma StronglySorted_lt_NoDup (l : list Z) : StronglySorted Z.lt l → NoDup l.
Proof.
  induction 1 as [|x l _ IH Hx]; [apply NoDup_nil_2|].
  apply NoDup_cons. split; [|done]. intros Hin.
  rewrite Forall_forall in Hx. apply Hx in Hin. lia.
Qed.

Lemma sorted_filter {A} (key : A → Z) (P : A → Prop) `{∀ a, Decision (P a)}
    (l : list A) :
  StronglySorted Z.lt (key <$> l) →
  StronglySorted Z.lt (key <$> filter P l).
Proof.
  induction l as [|a l IH]; [done|].
  rewrite fmap_cons. intros [Ha Hl]%StronglySorted_cons.
  destruct (decide (P a)).
  - rewrite filter_cons_True, fmap_cons by done.
    apply StronglySorted_cons. split; [|auto].
    apply Forall_fmap, Forall_forall. intros x [_ Hx]%list_elem_of_filter.
    rewrite Forall_forall in Ha. apply Ha. by apply list_elem_of_fmap_2.
  - rewrite filter_cons_False by done. auto.
Qed.

(** Sorting by a key a list that is in the order of that key returns
    the list. *)
Lemma ORDER_BY_sorted {A} (key : A → Z) (l : list A) :
  StronglySorted Z.lt (key <$> l) → ORDER_BY key l = l.
Proof.
  intros Hs. unfold ORDER_BY.
  apply (StronglySorted_unique_strong (asc key)).
  - intros x y Hx Hy Hxy Hyx. unfold asc in *.
    rewrite merge_sort_Permutation in Hx.
    apply (pk_elem_eq key l); [by apply StronglySorted_lt_NoDup|done..|lia].
  - apply StronglySorted_merge_sort; apply _.
  - clear -Hs. induction l as [|a l IH]; [constructor|].
    rewrite fmap_cons in Hs. apply StronglySorted_cons in Hs as [Ha Hl].
    constructor; [auto|].
    rewrite Forall_fmap in Ha. eapply Forall_impl; [exact Ha|].
    simpl. unfold asc. intros; lia.
  - apply merge_sort_Permutation.
Qed.

(** X2.  In every database the API produces, an order has one of the five
    statuses; a pending order has no driver; and [delivered_at] is set
    exactly on the delivered orders.  [getOrderHandler] returns orders
    of this form. *)
Theorem reachable_order_status db :
  reachable db →
  (∀ o, o ∈ t_orders db →
        orders.status o ∈ [pending; assigned; en_route; delivered; cancelled]
        ∧ (orders.status o = pending → orders.assigned_driver_id o = None)
        ∧ (is_Some (orders.delivered_at o) ↔ orders.status o = delivered))
  ∧ (∀ id ow, getOrderHandler id db = JSON StatusOK (B_order ow) →
       let o := OrderWithItems.Order ow in
       Order.Status o ∈ [pending; assigned; en_route; delivered; cancelled]
       ∧ (Order.Status o = pending → Order.AssignedDriverID o = None)
       ∧ (is_Some (Order.DeliveredAt o) ↔ Order.Status o = delivered)).
Proof.
  intros Hl%reachable_lifecycle.
  assert (∀ o, o ∈ t_orders db →
        orders.status o ∈ [pending; assigned; en_route; delivered; cancelled]
        ∧ (orders.status o = pending → orders.assigned_driver_id o = None)
        ∧ (is_Some (orders.delivered_at o) ↔ orders.status o = delivered))
    as Hrows.
  { intros o Ho. destruct Hl.
    rewrite Forall_forall in l_status0, l_pending0, l_delivered0. auto. }
  split; [done|].
  intros id ow. unfold getOrderHandler.
  destruct (head _) as [r|] eqn:Hr; [|done]. intros [= <-]. simpl.
  apply head_Some_elem_of, list_elem_of_filter in Hr as [_ Hr].
  by apply Hrows.
Qed.

Lemma reachable_order_status_witness :
  reachable sample_reachable
  ∧ ∃ o, o ∈ t_orders sample_reachable
         ∧ orders.status o = pending
         ∧ orders.assigned_driver_id o = None.
Proof.
  assert (reachable sample_reachable) as Hr
    by (apply reachable_serve, reachable_serve, reachable_empty).
  split; [exact Hr|].
  destruct (reachable_order_status sample_reachable Hr) as [Hrows _].
  exists (orders.mk 1 1 7 None "por_atender" (to_float64 3000) float64_0
             None None None (Some 200)).
  assert (orders.mk 1 1 7 None "por_atender" (to_float64 3000) float64_0
             None None None (Some 200)
          ∈ t_orders sample_reachable) as Ho by left.
  destruct (Hrows _ Ho) as (_ & Hp & _).
  split_and!; [done..|]. by apply Hp.
Defined.

(** X3.  The audit trail [listOrderHistoryHandler] returns for an order of a
    database the API produces starts with the creation entry (no old
    status, new status pending), every later entry starts from the
    status the entry before it arrived at and is a transition of the
    table, and the last entry arrives at the current status of the
    order.  For an id that no order has, the answer is 200 with an empty
    list. *)
Theorem order_history_chain db :
  reachable db →
  (∀ o, o ∈ t_orders db →
     ∃ first rest,
       listOrderHistoryHandler (orders.id o) db
       = (StatusOK, scanStatusHistory <$> first :: rest)
       ∧ order_status_history.old_status first = None
       ∧ order_status_history.new_status first = pending
       ∧ chained None (first :: rest)
       ∧ Forall legal_step (first :: rest)
       ∧ last (order_status_history.new_status <$> first :: rest)
         = Some (orders.status o))
  ∧ (∀ id, id ∉ orders.id <$> t_orders db →
           listOrderHistoryHandler id db = (StatusOK, [])).
Proof.
  intros Hl%reachable_lifecycle.
  assert (∀ id, listOrderHistoryHandler id db
                = (StatusOK, scanStatusHistory <$> history_of db id)) as Hlist.
  { intros id. unfold listOrderHistoryHandler.
    rewrite ORDER_BY_sorted; [done|]. apply sorted_filter, Hl. }
  destruct Hl. split.
  - intros o Ho. rewrite Hlist.
    rewrite Forall_forall in l_chain0, l_latest0.
    specialize (l_chain0 o Ho). specialize (l_latest0 o Ho).
    assert (Forall legal_step (history_of db (orders.id o))) as Hlegal.
    { apply Forall_forall. intros h [_ Hh]%list_elem_of_filter.
      rewrite Forall_forall in l_history_legal0. auto. }
    destruct (history_of db (orders.id o)) as [|first rest]; [done|].
    exists first, rest. pose proof l_chain0 as [Hold _].
    split_and!; try done.
    apply Forall_cons in Hlegal as [[[_ ?]|(a & ? & _)] _]; [done|congruence].
  - intros id Hid. rewrite Hlist. unfold history_of.
    rewrite filter_none; [done|]. intros h Hh Heq.
    rewrite Forall_forall in l_history_exists0.
    apply l_history_exists0 in Hh. by rewrite Heq in Hh.
Qed.

Lemma order_history_chain_witness :
  reachable sample_reachable
  ∧ listOrderHistoryHandler 1 sample_reachable
    = (StatusOK,
       [StatusHistory.mk 1 1 None "por_atender" 1 (Some 200)
          (Some "Pedido creado")])
  ∧ listOrderHistoryHandler 2 sample_reachable = (StatusOK, []).
Proof.
  assert (reachable sample_reachable) as Hr
    by (apply reachable_serve, reachable_serve, reachable_empty).
  destruct (order_history_chain sample_reachable Hr) as [_ Hnone].
  split_and!; [exact Hr|reflexivity|].
  apply Hnone. intros Hin.
  by apply (list_elem_of_singleton (A := Z) 2 1) in Hin.
Defined.

(** ** Accepted orders *)






(** ** What no request takes back *)

Lemma serve_appends now r db :
  (∃ extra,
     t_order_items (serve now r db).2 = t_order_items db ++ extra
     ∧ Forall (λ it, order_items.order_id it = next_order_id db) extra)
  ∧ (∃ extra,
       t_order_status_history (serve now r db).2
       = t_order_status_history db ++ extra)
  ∧ (∃ extra,
       frozen_columns <$> t_orders (serve now r db).2
       = (frozen_columns <$> t_orders db) ++ extra
       ∧ Forall (λ f, f.1.1.1.1.1.1.1 = next_order_id db) extra).
Proof.
  assert (∀ db' : DB,
            t_order_items db' = t_order_items db →
            t_order_status_history db' = t_order_status_history db →
            t_orders db' = t_orders db →
            (∃ extra,
               t_order_items db' = t_order_items db ++ extra
               ∧ Forall (λ it, order_items.order_id it = next_order_id db)
                        extra)
            ∧ (∃ extra,
                 t_order_status_history db'
                 = t_order_status_history db ++ extra)
            ∧ (∃ extra,
                 frozen_columns <$> t_orders db'
                 = (frozen_columns <$> t_orders db) ++ extra
                 ∧ Forall (λ f, f.1.1.1.1.1.1.1 = next_order_id db) extra))
    as Hsame.
  { intros db' -> -> ->.
    split_and!; exists []; by rewrite app_nil_r. }
  assert (∀ id (old : string) new by_ note set,
            (∀ o, frozen_columns (set o) = frozen_columns o) →
            let db' :=
              insert_history now id (Some old) new by_ note
                (set_orders (UPDATE (λ o, orders.id o = id) set (t_orders db))
                   (next_order_id db) db) in
            (∃ extra,
               t_order_items db' = t_order_items db ++ extra
               ∧ Forall (λ it, order_items.order_id it = next_order_id db)
                        extra)
            ∧ (∃ extra,
                 t_order_status_history db'
                 = t_order_status_history db ++ extra)
            ∧ (∃ extra,
                 frozen_columns <$> t_orders db'
                 = (frozen_columns <$> t_orders db) ++ extra
                 ∧ Forall (λ f, f.1.1.1.1.1.1.1 = next_order_id db) extra))
    as Hstep.
  { intros id old new by_ note set Hset db'. unfold db'. simpl.
    split_and!.
    - exists []. by rewrite app_nil_r.
    - by eexists.
    - exists []. by rewrite app_nil_r, (UPDATE_keys frozen_columns). }
  destruct r as [body|id body|c|body|id body|id|c|body|c p|body
                |c d|id|id body|id body]; simpl;
    try (by apply Hsame).
  - destruct body as [req|]; [|by apply Hsame]. simpl.
    case_decide; by apply Hsame.
  - destruct body as [req|]; [|by apply Hsame]. simpl.
    case_decide; [by apply Hsame|]. case_decide; by apply Hsame.
  - destruct body as [req|]; by apply Hsame.
  - destruct body as [req|]; [|by apply Hsame]. simpl.
    case_decide; by apply Hsame.
  - unfold deleteProductHandler. case_decide; by apply Hsame.
  - destruct body as [req|]; [|by apply Hsame]. simpl.
    repeat (case_decide; [by apply Hsame|]). by apply Hsame.
  - destruct c, p; by apply Hsame.
  - destruct (createOrderHandler_cases now body db)
      as [[msg ->]|(req & subtotal & _ & _ & _ & _ & _ & ->)];
      [by apply Hsame|].
    unfold order_created. simpl. split_and!.
    + eexists. split; [done|]. apply item_rows_order_id.
    + by eexists.
    + rewrite fmap_app. eexists. split; [done|].
      by apply Forall_singleton.
  - unfold assignOrderHandler. destruct body as [req|]; [|by apply Hsame].
    case_decide; [by apply Hsame|].
    destruct (select_status db id) as [old|]; [|by apply Hsame].
    case_decide; [by apply Hsame|]. by apply Hstep.
  - unfold updateOrderStatusHandler.
    destruct body as [req|]; [|by apply Hsame].
    case_decide; [by apply Hsame|].
    destruct (select_status db id) as [old|]; [|by apply Hsame].
    destruct (negb _); [by apply Hsame|]. by apply Hstep.
Qed.

(** X6.  No request deletes or rewrites a line item or a history entry, and
    no request deletes an order or rewrites its key, customer, address,
    subtotal, delivery fee, notes, scheduled time or creation time: the
    three tables only grow at the end. *)
Theorem orders_tables_append_only now r db :
  t_order_items db `prefix_of` t_order_items (serve now r db).2
  ∧ t_order_status_history db
    `prefix_of` t_order_status_history (serve now r db).2
  ∧ (frozen_columns <$> t_orders db)
    `prefix_of` (frozen_columns <$> t_orders (serve now r db).2).
Proof.
  destruct (serve_appends now r db)
    as ((e1 & H1 & _) & (e2 & H2) & (e3 & H3 & _)).
  split_and!; by eexists.
Qed.

Lemma fmap_filter_comm {A B} (g : A → B) (P : A → Prop)
    `{∀ a, Decision (P a)} (Q : B → Prop) `{∀ b, Decision (Q b)}
    (l : list A) :
  (∀ a, P a ↔ Q (g a)) →
  g <$> filter P l = filter Q (g <$> l).
Proof.
  intros HPQ. induction l as [|a l IH]; [done|]. rewrite fmap_cons.
  destruct (decide (P a)) as [HP|HP].
  - rewrite !filter_cons_True by (done || by apply HPQ).
    by rewrite fmap_cons, IH.
  - rewrite !filter_cons_False by (done || by rewrite <- HPQ). done.
Qed.

Lemma head_fmap {A B} (g : A → B) (l : list A) :
  head (g <$> l) = g <$> head l.
Proof. by destruct l. Qed.

(** The amounts [getOrderHandler] returns, from the stored rows. *)
Lemma amounts_getOrder db id :
  consistent db →
  amounts (getOrderHandler id db)
  = (λ r, (orders.subtotal r, orders.delivery_fee r,
           fadd (orders.subtotal r) (orders.delivery_fee r),
           (λ it, (order_items.product_id it, order_items.qty it,
                   order_items.unit_price it,
                   to_float64
                     (order_items.qty it * order_items.unit_price it))) <$>
           items_of db id)) <$>
    head (filter (λ o, orders.id o = id) (t_orders db)).
Proof.
  intros Hc. unfold getOrderHandler.
  destruct (head _) as [r|]; [|done]. unfold amounts. simpl. do 2 f_equal.
  rewrite <- (getOrder_item_rows db id Hc).
  by rewrite <- !list_fmap_compose.
Qed.

(** X7.  In a database the API produces, whatever request is served next,
    [getOrderHandler] keeps returning the same amounts for an order that
    exists: subtotal, delivery fee and total, and product, quantity,
    unit price and line total of each item.  Later changes of the
    catalogue or of the overrides do not reach an order that was
    placed. *)
Theorem order_amounts_frozen now r db id :
  reachable db → id ∈ orders.id <$> t_orders db →
  amounts (getOrderHandler id (serve now r db).2)
  = amounts (getOrderHandler id db).
Proof.
  intros Hr Hid.
  pose proof (reachable_consistent db Hr) as Hc.
  pose proof (consistent_serve now r db Hc) as Hc'.
  rewrite !amounts_getOrder by done.
  destruct (serve_appends now r db)
    as ((e1 & H1 & He1) & _ & (e3 & H3 & He3)).
  assert (id < next_order_id db) as Hlt.
  { pose proof (c_orders_lt _ Hc) as Hlt. rewrite Forall_forall in Hlt.
    by apply (Hlt id). }
  assert (items_of (serve now r db).2 id = items_of db id) as ->.
  { unfold items_of. rewrite H1, filter_app.
    rewrite (filter_none _ e1), app_nil_r; [done|].
    intros it Hit. rewrite Forall_forall in He1. apply He1 in Hit. lia. }
  assert (frozen_columns <$>
            head (filter (λ o, orders.id o = id) (t_orders (serve now r db).2))
          = frozen_columns <$>
            head (filter (λ o, orders.id o = id) (t_orders db))) as Hhead.
  { rewrite <- !(head_fmap frozen_columns).
    rewrite !(fmap_filter_comm frozen_columns _
                (λ f, f.1.1.1.1.1.1.1 = id)) by done.
    rewrite H3, filter_app, (filter_none _ e3), app_nil_r; [done|].
    intros f Hf. rewrite Forall_forall in He3. apply He3 in Hf. lia. }
  destruct (head (filter _ (t_orders (serve now r db).2))) as [r1|],
           (head (filter _ (t_orders db))) as [r2|];
    simpl in *; [|done..].
  injection Hhead as ? ? ? Hs Hf ? ? ?. by rewrite Hs, Hf.
Qed.

Lemma order_amounts_frozen_witness :
  reachable sample_reachable
  ∧ 1 ∈ orders.id <$> t_orders sample_reachable
  ∧ amounts (getOrderHandler 1
               (serve 300
                  (PUT_products 1
                     (Some (CreateProductReq.mk "Bidon 20L" None 1500 None)))
                  sample_reachable).2)
    = Some (to_float64 3000, float64_0, to_float64 3000,
            [(1, 3, 1000, to_float64 3000)]).
Proof.
  assert (reachable sample_reachable) as Hr
    by (apply reachable_serve, reachable_serve, reachable_empty).
  assert (1 ∈ orders.id <$> t_orders sample_reachable) as Hid by left.
  split_and!; [done..|].
  by rewrite (order_amounts_frozen 300 _ sample_reachable 1 Hr Hid).
Defined.

(** X8.  In a database the API produces, an order that is delivered or
    cancelled is final: whatever request is served next, its row stays
    in its place, column for column. *)
Theorem closed_order_is_final now r db i o :
  reachable db → t_orders db !! i = Some o →
  orders.status o = delivered ∨ orders.status o = cancelled →
  t_orders (serve now r db).2 !! i = Some o.
Proof.
  intros Hc%reachable_consistent Hi Hclosed.
  pose proof (c_orders_pk _ Hc) as Hpk.
  assert (o ∈ t_orders db) as Ho by (by eapply list_elem_of_lookup_2).
  assert (∀ id old new set,
            select_status db id = Some old → transition old new →
            UPDATE (λ o, orders.id o = id) set (t_orders db) !! i = Some o)
    as Hstep.
  { intros id old new set Hsel Ht. unfold UPDATE.
    rewrite list_lookup_fmap, Hi. simpl.
    case_decide as Hid; [|done]. exfalso.
    destruct (select_status_elem db id old Hpk Hsel) as [_ Hold].
    destruct (transition_target old new Ht) as (_ & _ & Hd & Hcn).
    rewrite <- (Hold o Ho Hid) in Hd, Hcn. by destruct Hclosed. }
  destruct r as [body|id body|c|body|id body|id|c|body|c p|body
                |c d|id|id body|id body]; simpl; try done.
  - destruct body as [req|]; [|done]. simpl. by case_decide.
  - destruct body as [req|]; [|done]. simpl.
    case_decide; [done|]. by case_decide.
  - by destruct body.
  - destruct body as [req|]; [|done]. simpl. by case_decide.
  - unfold deleteProductHandler. by case_decide.
  - destruct body as [req|]; [|done]. simpl. by repeat case_decide.
  - by destruct c, p.
  - destruct (createOrderHandler_cases now body db)
      as [[msg ->]|(req & subtotal & _ & _ & _ & _ & _ & ->)]; [done|].
    unfold order_created. simpl. by apply lookup_app_l_Some.
  - unfold assignOrderHandler. destruct body as [req|]; [|done].
    case_decide; [done|].
    destruct (select_status db id) as [old|] eqn:Hsel; [|done].
    case_decide; [done|]. subst old. simpl.
    apply (Hstep id pending assigned); [done|constructor].
  - unfold updateOrderStatusHandler. destruct body as [req|]; [|done].
    case_decide; [done|].
    destruct (select_status db id) as [old|] eqn:Hsel; [|done].
    destruct (range_allowed _ _ _) eqn:Hallowed; [|done]. simpl.
    apply range_allowed_transition in Hallowed.
    by apply (Hstep id old (UpdateStatusReq.NewStatus req)).
Qed.

Lemma closed_order_is_final_witness :
  let db :=
    (serve 300 (PATCH_status 1 (Some (UpdateStatusReq.mk "cancelado" None 1)))
       sample_reachable).2 in
  let o := orders.mk 1 1 7 None "cancelado" (to_float64 3000) float64_0
              None None None (Some 200) in
  reachable db
  ∧ t_orders db !! 0%nat = Some o
  ∧ t_orders (serve 400 (PATCH_assign 1 (Some (AssignOrderReq.mk 9))) db).2
    !! 0%nat = Some o.
Proof.
  intros db o.
  assert (reachable db) as Hr
    by (apply reachable_serve, reachable_serve, reachable_serve,
          reachable_empty).
  split_and!; [exact Hr|reflexivity|].
  apply closed_order_is_final; [exact Hr|reflexivity|by right].
Defined.

(** ** Orders of a driver *)

(** X9.  With a driver and no customer, [listOrdersHandler] returns the
    orders assigned to the driver, all of them, by descending id.  In a
    database the API produces none of them is pending. *)
Theorem listOrders_by_driver db d :
  reachable db →
  ∃ rows,
    listOrdersHandler None (Some d) db
    = JSON StatusOK (B_orders (scanOrder <$> rows))
    ∧ rows ≡ₚ filter (λ o, orders.assigned_driver_id o = Some d) (t_orders db)
    ∧ StronglySorted (λ a b, orders.id b ≤ orders.id a) rows
    ∧ Forall (λ o, orders.status o ≠ pending) rows.
Proof.
  intros Hl%reachable_lifecycle.
  eexists. split; [reflexivity|].
  assert (ORDER_BY_DESC orders.id
            (filter (λ o, orders.assigned_driver_id o = Some d) (t_orders db))
          ≡ₚ filter (λ o, orders.assigned_driver_id o = Some d) (t_orders db))
    as Hperm by apply merge_sort_Permutation.
  split_and!; [done|apply (StronglySorted_merge_sort (desc orders.id))|].
  rewrite Hperm. apply Forall_forall.
  intros o [Hd Ho]%list_elem_of_filter Hp.
  pose proof (l_pending _ Hl) as Hpending.
  rewrite Forall_forall in Hpending.
  rewrite (Hpending o Ho Hp) in Hd. done.
Qed.

Lemma listOrders_by_driver_witness :
  let db := (serve 300 (PATCH_assign 1 (Some (AssignOrderReq.mk 9)))
               sample_reachable).2 in
  reachable db
  ∧ listOrdersHandler None (Some 9) db
    = JSON StatusOK
        (B_orders
           [Order.mk 1 1 7 (Some 9) "asignado" (to_float64 3000) float64_0
              (to_float64 3000) None None None (Some 200)]).
Proof.
  intros db.
  assert (reachable db) as Hr
    by (apply reachable_serve, reachable_serve, reachable_serve,
          reachable_empty).
  destruct (listOrders_by_driver db 9 Hr) as (rows & _).
  split; [exact Hr|reflexivity].
Defined.

(** X10.  The status route also takes a pending order to assigned, and then
    records no driver: in a database the API produces, the order is
    assigned afterwards and its driver column is still empty. *)
Theorem updateStatus_assigned_without_driver now db i o note by_ :
  reachable db → t_orders db !! i = Some o →
  orders.status o = pending → by_ ≠ 0 →
  let result :=
    updateOrderStatusHandler now (orders.id o)
      (Some (UpdateStatusReq.mk assigned note by_)) db in
  result.1 = JSON StatusOK H_ok
  ∧ ∃ o', t_orders result.2 !! i = Some o'
          ∧ orders.status o' = assigned
          ∧ orders.assigned_driver_id o' = None.
Proof.
  intros Hr Hi Hs Hby result.
  pose proof (reachable_consistent db Hr) as Hc.
  pose proof (reachable_lifecycle db Hr) as Hl.
  unfold result.
  rewrite (updateOrderStatus_accept now _ db i o);
    [|apply Hc|done|done|done|simpl; rewrite Hs; constructor].
  simpl. split; [done|].
  exists (with_status now assigned o).
  rewrite list_lookup_insert_eq by (by eapply lookup_lt_Some).
  split_and!; [done..|]. simpl.
  pose proof (l_pending _ Hl) as Hpending. rewrite Forall_forall in Hpending.
  apply Hpending; [by eapply list_elem_of_lookup_2|done].
Qed.

Lemma updateStatus_assigned_without_driver_witness :
  reachable sample_reachable
  ∧ t_orders
      (updateOrderStatusHandler 300 1
         (Some (UpdateStatusReq.mk "asignado" None 1)) sample_reachable).2
    = [orders.mk 1 1 7 None "asignado" (to_float64 3000) float64_0
          None None None (Some 200)].
Proof.
  assert (reachable sample_reachable) as Hr
    by (apply reachable_serve, reachable_serve, reachable_empty).
  split; [exact Hr|].
  destruct (updateStatus_assigned_without_driver 300 sample_reachable 0
              (orders.mk 1 1 7 None "por_atender" (to_float64 3000) float64_0
                  None None None
                 (Some 200)) None 1 Hr eq_refl eq_refl) as [_ _]; [done|].
  reflexivity.
Defined.

(** ** Keys and references *)

(** X11.  In every database the API produces the generated keys are keys: no
    two users, products, orders, line items or history entries share an
    id, and no two overrides share a (customer, product) pair.  Every
    line item names a product of the catalogue and every history entry
    names an order of the order table. *)
Theorem reachable_keys db :
  reachable db →
  NoDup (users.id <$> t_users db)
  ∧ NoDup (products.id <$> t_products db)
  ∧ NoDup (customer_product_prices.key <$> t_customer_product_prices db)
  ∧ NoDup (orders.id <$> t_orders db)
  ∧ NoDup (order_items.id <$> t_order_items db)
  ∧ NoDup (order_status_history.id <$> t_order_status_history db)
  ∧ (∀ it, it ∈ t_order_items db →
           order_items.product_id it ∈ products.id <$> t_products db)
  ∧ (∀ h, h ∈ t_order_status_history db →
          order_status_history.order_id h ∈ orders.id <$> t_orders db).
Proof.
  intros Hr.
  pose proof (reachable_consistent db Hr) as Hc.
  pose proof (reachable_lifecycle db Hr) as Hl.
  split_and!; try apply Hc; try apply Hl.
  - apply Forall_forall, Hc.
  - apply Forall_forall, Hl.
Qed.

Lemma reachable_keys_witness :
  reachable sample_reachable
  ∧ NoDup (orders.id <$> t_orders sample_reachable).
Proof.
  assert (reachable sample_reachable) as Hr
    by (apply reachable_serve, reachable_serve, reachable_empty).
  split; [exact Hr|].
  by destruct (reachable_keys sample_reachable Hr) as (_ & _ & _ & H & _).
Defined.

(** ** Overrides: removal and isolation *)

Lemma LEFT_JOIN_ext {A B} (on : A → B → Prop) `{∀ a b, Decision (on a b)}
    (l : list A) (r r' : list B) :
  (∀ a, a ∈ l → filter (on a) r' = filter (on a) r) →
  LEFT_JOIN on l r' = LEFT_JOIN on l r.
Proof.
  intros Hext. unfold LEFT_JOIN. induction l as [|a l IH]; [done|].
  rewrite !bind_cons, Hext by left. f_equal.
  apply IH. intros b Hb. apply Hext. by right.
Qed.

(** The point read of [(C, P)] depends on the catalogue and on the
    override rows of the products that have the id [P]. *)
Lemma resolve_frame db db' C P :
  t_products db' = t_products db →
  (∀ p, p ∈ t_products db → products.id p = P →
        overrides_for db' C p = overrides_for db C p) →
  resolveEffectivePrice db' C P = resolveEffectivePrice db C P.
Proof.
  intros Hp Ho. unfold resolveEffectivePrice, products_with_override.
  rewrite !(LEFT_JOIN_where _ _
    (λ q, products.id q = P ∧ products.is_active q = true)) by done.
  rewrite Hp. do 2 f_equal. apply LEFT_JOIN_ext.
  intros p [[Hid _] Hin]%list_elem_of_filter. by apply Ho.
Qed.

Lemma filter_UPDATE_other {A} (P K : A → Prop) `{∀ a, Decision (P a)}
    `{∀ a, Decision (K a)} (set : A → A) (l : list A) :
  (∀ x, K x → ¬ P x ∧ ¬ P (set x)) →
  filter P (UPDATE K set l) = filter P l.
Proof.
  intros HK. unfold UPDATE. induction l as [|a l IH]; [done|].
  rewrite fmap_cons. destruct (decide (K a)) as [Ha|Ha].
  - destruct (HK a Ha).
    rewrite !filter_cons_False by done. done.
  - destruct (decide (P a)).
    + rewrite !filter_cons_True by done. by rewrite IH.
    + rewrite !filter_cons_False by done. done.
Qed.

Lemma overrides_for_upsert now C P price active db C' p :
  (C', products.id p) ≠ (C, P) →
  overrides_for
    (set_customer_product_prices
       (INSERT_ON_DUPLICATE_KEY_UPDATE now C P price active
          (t_customer_product_prices db)) db) C' p
  = overrides_for db C' p.
Proof.
  intros Hne. unfold overrides_for. simpl.
  unfold INSERT_ON_DUPLICATE_KEY_UPDATE. case_decide.
  - apply filter_UPDATE_other. intros x Hx.
    unfold customer_product_prices.key in Hx. simpl.
    split; intros (? & ? & _); apply Hne; congruence.
  - rewrite filter_app, filter_cons_False, app_nil_r; [done|].
    simpl. intros (? & ? & _). apply Hne. congruence.
Qed.

Lemma overrides_for_delete C P db C' p :
  overrides_for
    (set_customer_product_prices
       (filter (λ r, ¬ (customer_product_prices.customer_id r = C
                        ∧ customer_product_prices.product_id r = P))
               (t_customer_product_prices db)) db) C' p
  = if decide ((C', products.id p) = (C, P)) then []
    else overrides_for db C' p.
Proof.
  unfold overrides_for. simpl. rewrite list_filter_filter. case_decide as Hk.
  - apply filter_none. intros x _ ((? & ? & _) & Hn). apply Hn.
    split; congruence.
  - apply list_filter_iff. intros x. split; [tauto|].
    intros (? & ? & ?). split; [done|]. intros [? ?]. apply Hk. congruence.
Qed.

(** X12.  [deleteCustomerPriceHandler] answers 200 whether the override is
    there or not; it removes the rows of the pair and no other row, and
    changes nothing when the pair has no row.  Afterwards the customer
    pays the base price of the product, and every other price resolves
    as before. *)
Theorem deleteCustomerPrice_removes db C P :
  let result := deleteCustomerPriceHandler (Some C) (Some P) db in
  result.1 = JSON StatusOK H_ok
  ∧ (∀ r, r ∈ t_customer_product_prices result.2 ↔
          r ∈ t_customer_product_prices db
          ∧ customer_product_prices.key r ≠ (C, P))
  ∧ ((C, P) ∉ customer_product_prices.key <$> t_customer_product_prices db →
     result.2 = db)
  ∧ (∀ p, products_pk db → p ∈ t_products db → products.id p = P →
          products.is_active p = true →
          resolveEffectivePrice result.2 C P = Some (products.price p))
  ∧ (∀ C' P', (C', P') ≠ (C, P) →
              resolveEffectivePrice result.2 C' P'
              = resolveEffectivePrice db C' P').
Proof.
  intros result. unfold result. simpl. split_and!.
  - done.
  - intros r. rewrite list_elem_of_filter.
    unfold customer_product_prices.key. split.
    + intros [Hn Hr]. split; [done|]. intros [= ? ?]. by apply Hn.
    + intros [Hr Hn]. split; [|done]. intros [? ?]. apply Hn. congruence.
  - intros Hnot. rewrite filter_all; [by destruct db|].
    intros r Hr [? ?]. apply Hnot.
    apply list_elem_of_fmap. exists r. split; [|done].
    unfold customer_product_prices.key. congruence.
  - intros p Hpk Hp <- Ha. unfold resolveEffectivePrice.
    rewrite resolve_rows by done.
    fold (overrides_for
            (set_customer_product_prices
               (filter (λ r, ¬ (customer_product_prices.customer_id r = C
                                ∧ customer_product_prices.product_id r
                                  = products.id p))
                       (t_customer_product_prices db)) db) C p).
    rewrite overrides_for_delete, decide_True by done. done.
  - intros C' P' Hne. apply resolve_frame; [done|].
    intros p _ <-. rewrite overrides_for_delete. by rewrite decide_False.
Qed.

(** X13.  An override that is added for a pair that had none, and then
    removed, leaves the database as it was before. *)
Theorem upsert_then_delete now req db db1 :
  (UpsertCustomerPriceReq.CustomerID req, UpsertCustomerPriceReq.ProductID req)
  ∉ customer_product_prices.key <$> t_customer_product_prices db →
  upsertCustomerPriceHandler now (Some req) db = (JSON StatusOK H_ok, db1) →
  deleteCustomerPriceHandler
    (Some (UpsertCustomerPriceReq.CustomerID req))
    (Some (UpsertCustomerPriceReq.ProductID req)) db1
  = (JSON StatusOK H_ok, db).
Proof.
  intros Hnot (_ & _ & _ & _ & ->)%upsert_handler_inv.
  simpl. f_equal. unfold INSERT_ON_DUPLICATE_KEY_UPDATE.
  rewrite decide_False by done.
  rewrite filter_app, filter_cons_False, app_nil_r by (simpl; tauto).
  rewrite filter_all; [by destruct db|].
  intros r Hr [? ?]. apply Hnot.
  apply list_elem_of_fmap. exists r. split; [|done].
  unfold customer_product_prices.key. congruence.
Qed.

Lemma upsert_then_delete_witness :
  let req := UpsertCustomerPriceReq.mk 1 1 850 (Some true) in
  ((1, 1) ∉ customer_product_prices.key <$>
            t_customer_product_prices sample_db)
  ∧ deleteCustomerPriceHandler (Some 1) (Some 1)
      (upsertCustomerPriceHandler 100 (Some req) sample_db).2
    = (JSON StatusOK H_ok, sample_db).
Proof.
  intros req.
  assert ((1, 1) ∉ customer_product_prices.key <$>
                   t_customer_product_prices sample_db) as Hnot
    by apply not_elem_of_nil.
  split; [exact Hnot|].
  by apply (upsert_then_delete 100 req sample_db _ Hnot).
Defined.

(** X14.  An accepted upsert for a pair [(C, P)] changes only what customer
    [C] pays for product [P]: every other price resolves as before. *)
Theorem upsert_changes_one_price now req db db1 C' P' :
  upsertCustomerPriceHandler now (Some req) db = (JSON StatusOK H_ok, db1) →
  (C', P') ≠ (UpsertCustomerPriceReq.CustomerID req,
              UpsertCustomerPriceReq.ProductID req) →
  resolveEffectivePrice db1 C' P' = resolveEffectivePrice db C' P'.
Proof.
  intros (_ & _ & _ & _ & ->)%upsert_handler_inv Hne.
  apply resolve_frame; [done|].
  intros p _ <-. by apply overrides_for_upsert.
Qed.

Lemma upsert_changes_one_price_witness :
  let req := UpsertCustomerPriceReq.mk 1 1 850 (Some true) in
  let db1 := (upsertCustomerPriceHandler 100 (Some req) sample_db).2 in
  upsertCustomerPriceHandler 100 (Some req) sample_db
  = (JSON StatusOK H_ok, db1)
  ∧ resolveEffectivePrice db1 2 1 = Some 1000
  ∧ resolveEffectivePrice db1 1 1 = Some 850.
Proof.
  intros req db1.
  assert (upsertCustomerPriceHandler 100 (Some req) sample_db
          = (JSON StatusOK H_ok, db1)) as H1 by reflexivity.
  split_and!; [exact H1| |reflexivity].
  rewrite (upsert_changes_one_price 100 req sample_db db1 2 1 H1);
    [reflexivity|discriminate].
Defined.

(** ** Overrides: acceptance and listing *)

Lemma COUNT_zero_iff {A} (P : A → Prop) `{∀ a, Decision (P a)} (t : list A) :
  COUNT P t = 0 ↔ ∀ x, x ∈ t → ¬ P x.
Proof.
  unfold COUNT. split.
  - intros Hz x Hx HP.
    assert (filter P t = []) as Hnil by (apply length_zero_iff_nil; lia).
    by eapply filter_nil_not_elem_of.
  - intros Hno. by rewrite filter_none.
Qed.

Lemma COUNT_id_zero_iff {A} (id : A → Z) (k : Z) (t : list A) :
  COUNT (λ x, id x = k) t = 0 ↔ k ∉ id <$> t.
Proof.
  rewrite COUNT_zero_iff. split.
  - intros Hno (x & -> & Hx)%list_elem_of_fmap. by apply (Hno x).
  - intros Hnot x Hx <-. apply Hnot. by apply list_elem_of_fmap_2.
Qed.




(** X16.  After an accepted upsert, [listCustomerPricesHandler] for the
    customer shows the override as submitted: the list has the entry
    (customer, product, price, flag), it has no other entry for the
    product, all its entries are of the customer, and it is in the order
    of the product ids. *)
Theorem upsert_then_list now req db db1 :
  customer_product_prices_pk db →
  upsertCustomerPriceHandler now (Some req) db = (JSON StatusOK H_ok, db1) →
  let C := UpsertCustomerPriceReq.CustomerID req in
  let P := UpsertCustomerPriceReq.ProductID req in
  let entry :=
    CustomerPrice.mk C P (UpsertCustomerPriceReq.Price req)
      (default true (UpsertCustomerPriceReq.IsActive req)) in
  ∃ l,
    listCustomerPricesHandler (Some C) db1
    = JSON StatusOK (B_customer_prices l)
    ∧ entry ∈ l
    ∧ (∀ e, e ∈ l → CustomerPrice.ProductID e = P → e = entry)
    ∧ (∀ e, e ∈ l → CustomerPrice.CustomerID e = C)
    ∧ StronglySorted
        (λ a b, CustomerPrice.ProductID a ≤ CustomerPrice.ProductID b) l.
Proof.
  intros Hpk (_ & _ & _ & _ & ->)%upsert_handler_inv C P entry.
  eexists. split; [reflexivity|]. simpl.
  set (t := INSERT_ON_DUPLICATE_KEY_UPDATE now C P
              (UpsertCustomerPriceReq.Price req)
              (default true (UpsertCustomerPriceReq.IsActive req))
              (t_customer_product_prices db)).
  assert (∀ e, e ∈ scanCustomerPrice <$>
                   ORDER_BY customer_product_prices.product_id
                     (filter (λ r, customer_product_prices.customer_id r = C) t)
               ↔ ∃ r, r ∈ t ∧ customer_product_prices.customer_id r = C
                      ∧ e = scanCustomerPrice r) as Hin.
  { intros e. rewrite list_elem_of_fmap. unfold ORDER_BY. split.
    - intros (r & -> & Hr). rewrite merge_sort_Permutation in Hr.
      apply list_elem_of_filter in Hr as [Hc Hr]. by exists r.
    - intros (r & Hr & Hc & ->). exists r. split; [done|].
      rewrite merge_sort_Permutation. by apply list_elem_of_filter. }
  split_and!.
  - apply Hin.
    destruct (list_elem_of_fmap_1 _ _ _
      (upsert_has_key C P (UpsertCustomerPriceReq.Price req)
         (default true (UpsertCustomerPriceReq.IsActive req)) now
         (t_customer_product_prices db))) as (r & Hk & Hr).
    exists r. fold t in Hr.
    destruct (upsert_sets _ _ _ _ _ _ _ Hr (eq_sym Hk)) as [Hprice Hact].
    unfold customer_product_prices.key in Hk. injection Hk as HC HP.
    split_and!; [done|done|].
    unfold entry, scanCustomerPrice. congruence.
  - intros e (r & Hr & Hc & ->)%Hin HP. simpl in HP.
    assert (customer_product_prices.key r = (C, P)) as Hk
      by (unfold customer_product_prices.key; congruence).
    destruct (upsert_sets _ _ _ _ _ _ _ Hr Hk) as [Hprice Hact].
    unfold entry, scanCustomerPrice. congruence.
  - by intros e (r & Hr & Hc & ->)%Hin.
  - apply (StronglySorted_fmap _
             (asc customer_product_prices.product_id)); [done|].
    apply StronglySorted_merge_sort; apply _.
Qed.

Lemma upsert_then_list_witness :
  let req := UpsertCustomerPriceReq.mk 1 1 850 None in
  customer_product_prices_pk sample_db
  ∧ listCustomerPricesHandler (Some 1)
      (upsertCustomerPriceHandler 100 (Some req) sample_db).2
    = JSON StatusOK (B_customer_prices [CustomerPrice.mk 1 1 850 true]).
Proof.
  intros req.
  assert (customer_product_prices_pk sample_db) as Hpk by apply NoDup_nil_2.
  destruct (upsert_then_list 100 req sample_db _ Hpk eq_refl) as (l & _).
  split; [exact Hpk|reflexivity].
Defined.

(** ** The catalogue *)

Lemma ORDER_BY_fmap {A B} (key : A → Z) (key' : B → Z) (g : A → B)
    (l : list A) :
  (∀ a, key' (g a) = key a) → NoDup (key <$> l) →
  ORDER_BY key' (g <$> l) = g <$> ORDER_BY key l.
Proof.
  intros Hkey Hnd. unfold ORDER_BY.
  apply (StronglySorted_unique_strong (asc key')).
  - intros x y Hx Hy Hxy Hyx. unfold asc in *.
    rewrite merge_sort_Permutation in Hx.
    apply list_elem_of_fmap in Hx as (a & -> & Ha).
    apply list_elem_of_fmap in Hy as (b & -> & Hb).
    rewrite merge_sort_Permutation in Hb. rewrite !Hkey in *.
    f_equal. apply (pk_elem_eq key l); [done..|lia].
  - apply StronglySorted_merge_sort; apply _.
  - apply (StronglySorted_fmap _ (asc key)).
    + intros x y. unfold asc. by rewrite !Hkey.
    + apply StronglySorted_merge_sort; apply _.
  - by rewrite !merge_sort_Permutation.
Qed.

Lemma products_with_override_none db C :
  (∀ r, r ∈ t_customer_product_prices db →
        customer_product_prices.customer_id r = C →
        customer_product_prices.is_active r = false) →
  products_with_override db C = (λ p, (p, None)) <$> t_products db.
Proof.
  intros Hno. unfold products_with_override, LEFT_JOIN.
  induction (t_products db) as [|p l IH]; [done|].
  rewrite bind_cons, fmap_cons, IH. rewrite filter_none; [done|].
  intros r Hr (_ & Hc & Ha). rewrite (Hno r Hr Hc) in Ha. done.
Qed.

(** X17.  Without a customer, [listProductsHandler] lists the products on
    sale, each once, at its base price and in the order of the ids,
    whatever the override table holds.  A customer who has no active
    override gets this same list. *)
Theorem listProducts_public db :
  products_pk db →
  ∃ rows,
    listProductsHandler None db
    = JSON StatusOK
        (B_products
           ((λ p, Product.mk (products.id p) (products.name p)
                    (products.capacity_liters p) (products.price p)
                    (products.is_active p)) <$> rows))
    ∧ rows ≡ₚ filter (λ p, products.is_active p = true) (t_products db)
    ∧ StronglySorted (λ a b, products.id a ≤ products.id b) rows
    ∧ ∀ C, (∀ r, r ∈ t_customer_product_prices db →
                 customer_product_prices.customer_id r = C →
                 customer_product_prices.is_active r = false) →
           listProductsHandler (Some C) db = listProductsHandler None db.
Proof.
  intros Hpk. eexists. split_and!.
  - unfold listProductsHandler. by rewrite <- list_fmap_compose.
  - apply merge_sort_Permutation.
  - apply (StronglySorted_merge_sort (asc products.id)).
  - intros C Hno. unfold listProductsHandler. do 3 f_equal.
    rewrite products_with_override_none by done.
    rewrite <- (fmap_filter_comm (λ p : products.row,
                  (p, @None customer_product_prices.row))
                  (λ p, products.is_active p = true)) by done.
    apply (ORDER_BY_fmap products.id); [done|].
    by apply NoDup_fmap_filter.
Qed.

Lemma listProducts_public_witness :
  products_pk sample_db_override
  ∧ listProductsHandler None sample_db_override
    = JSON StatusOK (B_products [Product.mk 1 "Bidon 20L" None 1000 true])
  ∧ listProductsHandler (Some 2) sample_db_override
    = listProductsHandler None sample_db_override.
Proof.
  assert (products_pk sample_db_override) as Hpk
    by (unfold products_pk; compute_done).
  destruct (listProducts_public sample_db_override Hpk)
    as (rows & _ & _ & _ & Hsame).
  split_and!; [exact Hpk|reflexivity|].
  apply Hsame. intros r ->%list_elem_of_singleton. done.
Defined.

Lemma RowsAffected_same {A} `{EqDecision A} (l : list A) :
  RowsAffected l l = 0.
Proof.
  unfold RowsAffected. rewrite filter_none; [done|].
  intros [x y] Hin Hne. apply Hne. simpl.
  apply list_elem_of_lookup in Hin as [i Hi].
  apply lookup_zip_with_Some in Hi as (a & b & [= -> ->] & Ha & Hb).
  congruence.
Qed.

Lemma RowsAffected_changed {A} `{EqDecision A} (P : A → Prop)
    `{∀ a, Decision (P a)} (set : A → A) (l : list A) i x :
  l !! i = Some x → P x → set x ≠ x →
  RowsAffected l (UPDATE P set l) ≠ 0.
Proof.
  intros Hi HP Hne Hz%RowsAffected_0.
  assert (UPDATE P set l !! i = Some (set x)) as Hi'.
  { unfold UPDATE. rewrite list_lookup_fmap, Hi. simpl.
    by rewrite decide_True. }
  rewrite Hz in Hi'. congruence.
Qed.

(** The entries of a listing of [listProductsHandler] are products on
    sale. *)
Lemma listProducts_entries c db e listing :
  listProductsHandler c db = JSON StatusOK (B_products listing) →
  e ∈ listing →
  ∃ p, p ∈ t_products db ∧ products.is_active p = true
       ∧ Product.ID e = products.id p.
Proof.
  destruct c as [C|].
  - destruct (listProducts_rows db C) as (rows & -> & Hrows).
    intros [= <-] (r & -> & Hr)%list_elem_of_fmap.
    apply Hrows in Hr as (p & Hp & Ha & Hr).
    apply joined_fst in Hr. exists p. simpl. by rewrite Hr.
  - unfold listProductsHandler. intros [= <-].
    rewrite <- list_fmap_compose.
    intros (p & -> & Hp)%list_elem_of_fmap.
    unfold ORDER_BY in Hp. rewrite merge_sort_Permutation in Hp.
    apply list_elem_of_filter in Hp as [Ha Hp]. by exists p.
Qed.

(** X18.  [deleteProductHandler] withdraws a product from sale and keeps its
    row: for a product on sale it answers 200 and the row stays in its
    place with [is_active = false] and its other columns.  From then on
    the product is in no listing, its price resolves for no customer,
    and an order that asks for it is refused and writes nothing.  When
    no product has the id, the answer is 404 and nothing changes. *)
Theorem deleteProduct_withdraws db i p :
  products_pk db → t_products db !! i = Some p →
  products.is_active p = true →
  let result := deleteProductHandler (products.id p) db in
  result.1 = JSON StatusOK H_ok
  ∧ t_products result.2
    = <[i := products.mk (products.id p) (products.name p)
               (products.capacity_liters p) (products.price p) false]>
        (t_products db)
  ∧ (∀ C, resolveEffectivePrice result.2 C (products.id p) = None)
  ∧ (∀ c listing e,
       listProductsHandler c result.2 = JSON StatusOK (B_products listing) →
       e ∈ listing → Product.ID e ≠ products.id p)
  ∧ (∀ now req,
       (∃ it, it ∈ CreateOrderReq.Items req
              ∧ OrderItemReq.ProductID it = products.id p) →
       code (createOrderHandler now (Some req) result.2).1 = StatusBadRequest
       ∧ (createOrderHandler now (Some req) result.2).2 = result.2).
Proof.
  intros Hpk Hi Ha result.
  assert (p ∈ t_products db) as Hp by (by eapply list_elem_of_lookup_2).
  set (p' := products.mk (products.id p) (products.name p)
               (products.capacity_liters p) (products.price p) false).
  assert (result = (JSON StatusOK H_ok,
                    set_products (<[i := p']> (t_products db))
                      (next_product_id db) db)) as Hres.
  { unfold result, deleteProductHandler.
    rewrite decide_False.
    - by rewrite (UPDATE_pk products.id _ _ _ i p).
    - apply (RowsAffected_changed _ _ _ i p); [done..|].
      destruct p. simpl in *. congruence. }
  assert (∀ q, q ∈ t_products result.2 → products.id q = products.id p →
               products.is_active q = false) as Hoff.
  { rewrite Hres. simpl. intros q [j Hj]%list_elem_of_lookup Hid.
    destruct (decide (j = i)) as [->|Hne].
    - rewrite list_lookup_insert_eq in Hj by (by eapply lookup_lt_Some).
      by injection Hj as <-.
    - rewrite list_lookup_insert_ne in Hj by done.
      destruct Hne.
      eapply (NoDup_lookup _ j i); [exact Hpk|..];
        rewrite list_lookup_fmap; [rewrite Hj|rewrite Hi]; simpl;
        [done|by rewrite Hid]. }
  assert (∀ C, resolveEffectivePrice result.2 C (products.id p) = None)
    as Hnone by (intros C; by apply resolve_inactive).
  split_and!.
  - by rewrite Hres.
  - by rewrite Hres.
  - done.
  - intros c listing e Hl He Hid.
    destruct (listProducts_entries c _ e listing Hl He) as (q & Hq & Haq & Hidq).
    rewrite (Hoff q Hq) in Haq; [done|congruence].
  - intros now req (it & Hit & Hid).
    destruct (createOrderHandler_cases now (Some req) result.2)
      as [[msg ->]|(req' & subtotal & [= <-] & _ & _ & _ & Hsub & _)];
      [done|].
    apply range_subtotal_ok in Hsub as [Hall _].
    rewrite Forall_forall in Hall. apply Hall in Hit as [x Hx].
    rewrite Hid, Hnone in Hx. done.
Qed.

Lemma deleteProduct_withdraws_witness :
  let p := products.mk 1 "Bidon 20L" None 1000 true in
  products_pk sample_db
  ∧ t_products sample_db !! 0%nat = Some p
  ∧ (deleteProductHandler 1 sample_db).1 = JSON StatusOK H_ok
  ∧ resolveEffectivePrice (deleteProductHandler 1 sample_db).2 1 1 = None.
Proof.
  intros p.
  assert (products_pk sample_db) as Hpk by (unfold products_pk; compute_done).
  destruct (deleteProduct_withdraws sample_db 0 p Hpk eq_refl eq_refl)
    as (Hok & _ & Hnone & _).
  split_and!; [exact Hpk|reflexivity|exact Hok|apply Hnone].
Defined.

(** X19.  When no product has the id, [deleteProductHandler] and
    [updateProductHandler] answer 404 and change nothing. *)
Theorem product_not_found db id body :
  id ∉ products.id <$> t_products db →
  deleteProductHandler id db
  = (JSON StatusNotFound (H_error "producto no encontrado"), db)
  ∧ (is_Some body →
     updateProductHandler id body db
     = (JSON StatusNotFound (H_error "producto no encontrado"), db)).
Proof.
  intros Hid.
  assert (∀ set, UPDATE (λ p, products.id p = id) set (t_products db)
                 = t_products db) as Hnone.
  { intros set. apply UPDATE_none. intros p Hp <-.
    apply Hid. by apply list_elem_of_fmap_2. }
  split.
  - unfold deleteProductHandler. rewrite Hnone, RowsAffected_same.
    rewrite decide_True by done. by destruct db.
  - intros [req ->]. unfold updateProductHandler.
    rewrite Hnone, RowsAffected_same.
    rewrite decide_True by done. by destruct db.
Qed.

Lemma product_not_found_witness :
  (9 ∉ products.id <$> t_products sample_db)
  ∧ deleteProductHandler 9 sample_db
    = (JSON StatusNotFound (H_error "producto no encontrado"), sample_db).
Proof.
  assert (9 ∉ products.id <$> t_products sample_db) as Hid.
  { unfold sample_db. simpl.
    intros [?|[?|[]%elem_of_nil]%elem_of_cons]%elem_of_cons; done. }
  split; [exact Hid|].
  apply (product_not_found sample_db 9 None Hid).
Defined.

(** X20.  [updateProductHandler] rewrites the product in place, keeping its
    id; a request that leaves [is_active] out puts the product on sale.
    Afterwards, when the product is on sale, a customer with an active
    override still pays the override and every other customer pays the
    new base price; when it is not on sale, its price resolves for no
    customer. *)
Theorem updateProduct_reprices db i p req :
  products_pk db → customer_product_prices_pk db →
  t_products db !! i = Some p →
  let active := default true (CreateProductReq.IsActive req) in
  let p' := products.mk (products.id p) (CreateProductReq.Name req)
              (CreateProductReq.CapacityLiters req)
              (CreateProductReq.Price req) active in
  let result := updateProductHandler (products.id p) (Some req) db in
  t_products result.2 = <[i := p']> (t_products db)
  ∧ (p' ≠ p → result.1 = JSON StatusOK H_ok)
  ∧ (active = true →
     ∀ C o, in_force db C p o →
            resolveEffectivePrice result.2 C (products.id p)
            = Some (COALESCE (customer_product_prices.price <$> o)
                             (CreateProductReq.Price req)))
  ∧ (active = false →
     ∀ C, resolveEffectivePrice result.2 C (products.id p) = None).
Proof.
  intros Hpk Hcpk Hi active p' result.
  assert (result.2 = set_products (<[i := p']> (t_products db))
                       (next_product_id db) db) as Hdb.
  { unfold result, updateProductHandler. simpl.
    rewrite (UPDATE_pk products.id _ _ _ i p) by done.
    by case_decide. }
  assert (products_pk result.2) as Hpk'.
  { rewrite Hdb. unfold products_pk. simpl.
    rewrite list_fmap_insert. simpl.
    rewrite list_insert_id; [done|]. by rewrite list_lookup_fmap, Hi. }
  assert (p' ∈ t_products result.2) as Hp'.
  { rewrite Hdb. simpl. apply list_elem_of_lookup. exists i.
    apply list_lookup_insert_eq. by eapply lookup_lt_Some. }
  split_and!.
  - by rewrite Hdb.
  - intros Hne. unfold result, updateProductHandler. simpl.
    rewrite decide_False; [done|].
    by apply (RowsAffected_changed _ _ _ i p).
  - intros Hact C o Ho.
    change (products.id p) with (products.id p').
    rewrite (resolve_active result.2 C p' o); [done|done| |done|done|].
    + by rewrite Hdb.
    + rewrite Hdb. destruct Ho; by constructor.
  - intros Hact C. apply resolve_inactive.
    intros q Hq Hid.
    rewrite (pk_elem_eq products.id _ q p' Hpk' Hq Hp' Hid). done.
Qed.

Lemma updateProduct_reprices_witness :
  let p := products.mk 1 "Bidon 20L" None 1000 true in
  let req := CreateProductReq.mk "Bidon 20L" None 1200 None in
  let db' := (updateProductHandler 1 (Some req) sample_db_override).2 in
  products_pk sample_db_override
  ∧ customer_product_prices_pk sample_db_override
  ∧ t_products sample_db_override !! 0%nat = Some p
  ∧ resolveEffectivePrice db' 1 1 = Some 850
  ∧ resolveEffectivePrice db' 2 1 = Some 1200.
Proof.
  intros p req db'.
  assert (products_pk sample_db_override) as Hpk
    by (unfold products_pk; compute_done).
  assert (customer_product_prices_pk sample_db_override) as Hcpk
    by (unfold customer_product_prices_pk; compute_done).
  destruct (updateProduct_reprices sample_db_override 0 p req Hpk Hcpk eq_refl)
    as (_ & _ & Hon & _).
  split_and!; [done|done|reflexivity| |].
  - apply (Hon eq_refl 1
             (Some (customer_product_prices.mk 1 1 850 true 100))).
    constructor; [left|done|done].
  - apply (Hon eq_refl 2 None). constructor.
    intros r ->%list_elem_of_singleton. discriminate.
Defined.

(** In every database the API produces, an override names a product of
    the catalogue. *)
Lemma reachable_prices_product db :
  reachable db →
  Forall (λ r, customer_product_prices.product_id r
               ∈ products.id <$> t_products db)
         (t_customer_product_prices db).
Proof.
  induction 1 as [|now r db _ IH]; [constructor|].
  destruct r as [body|id body|c|body|id body|id|c|body|c p|body
                |c d|id|id body|id body]; simpl; try done.
  - destruct body as [req|]; [|done]. simpl. by case_decide.
  - destruct body as [req|]; [|done]. simpl.
    case_decide; [done|]. by case_decide.
  - destruct body as [req|]; [|done]. simpl.
    eapply Forall_impl; [exact IH|]. simpl. intros r Hr.
    rewrite fmap_app. apply elem_of_app. by left.
  - destruct body as [req|]; [|done]. simpl.
    case_decide; simpl; by rewrite (UPDATE_keys products.id).
  - unfold deleteProductHandler.
    case_decide; simpl; by rewrite (UPDATE_keys products.id).
  - destruct body as [req|]; [|done]. simpl.
    case_decide; [done|].
    case_decide as Hp; [done|]. case_decide; [done|].
    case_decide; [|done]. simpl.
    rewrite COUNT_id_zero_iff in Hp. apply dec_stable in Hp.
    unfold INSERT_ON_DUPLICATE_KEY_UPDATE. case_decide.
    + apply Forall_UPDATE; [|done]. by intros [].
    + apply Forall_app. split; [done|]. by apply Forall_singleton.
  - destruct c as [cid|], p as [pid|]; try done. simpl.
    apply Forall_forall. intros r [_ Hr]%list_elem_of_filter.
    rewrite Forall_forall in IH. by apply IH.
  - destruct (createOrderHandler_cases now body db)
      as [[msg ->]|(req & subtotal & _ & _ & _ & _ & _ & ->)]; done.
  - unfold assignOrderHandler. destruct body as [req|]; [|done].
    case_decide; [done|]. destruct (select_status db id); [|done].
    by case_decide.
  - unfold updateOrderStatusHandler. destruct body as [req|]; [|done].
    case_decide; [done|]. destruct (select_status db id); [|done].
    by destruct (negb _).
Qed.

(** X21.  In a database the API produces, [createProductHandler] answers 201
    with an id that no product had, and adds the product under that id,
    on sale unless the request says otherwise.  A product on sale then
    resolves to its base price for every customer; a product added off
    sale resolves for none. *)
Theorem createProduct_adds db req :
  reachable db →
  let id := next_product_id db in
  let active := default true (CreateProductReq.IsActive req) in
  let result := createProductHandler (Some req) db in
  result.1 = JSON StatusCreated (H_id id)
  ∧ (id ∉ products.id <$> t_products db)
  ∧ t_products result.2
    = t_products db
      ++ [products.mk id (CreateProductReq.Name req)
            (CreateProductReq.CapacityLiters req)
            (CreateProductReq.Price req) active]
  ∧ (∀ C, resolveEffectivePrice result.2 C id
          = if active then Some (CreateProductReq.Price req) else None).
Proof.
  intros Hr id active result.
  pose proof (reachable_consistent db Hr) as Hc.
  pose proof (reachable_prices_product db Hr) as Hprices.
  assert (id ∉ products.id <$> t_products db) as Hfresh.
  { intros Hin. pose proof (c_products_lt _ Hc) as Hlt.
    rewrite Forall_forall in Hlt. apply Hlt in Hin. unfold id in Hin. lia. }
  set (p := products.mk id (CreateProductReq.Name req)
              (CreateProductReq.CapacityLiters req)
              (CreateProductReq.Price req) active).
  assert (consistent result.2) as Hc'
    by (by apply consistent_createProduct).
  assert (p ∈ t_products result.2) as Hp.
  { unfold result. simpl. apply elem_of_app. right. by left. }
  split_and!; [done..|].
  intros C. destruct active eqn:Hact.
  - change id with (products.id p).
    unfold resolveEffectivePrice.
    rewrite resolve_rows; [|apply Hc'|done|done].
    unfold overrides_for. rewrite filter_none; [done|].
    intros r Hr' (Hpid & _). apply Hfresh.
    assert (customer_product_prices.product_id r = id) as <- by exact Hpid.
    rewrite Forall_forall in Hprices. by apply Hprices.
  - apply resolve_inactive. intros q Hq Hid.
    rewrite (pk_elem_eq products.id _ q p (c_products_pk _ Hc') Hq Hp);
      done.
Qed.

Lemma createProduct_adds_witness :
  reachable sample_reachable
  ∧ (createProductHandler
       (Some (CreateProductReq.mk "Bidon 10L" None 600 None))
       sample_reachable).1 = JSON StatusCreated (H_id 2)
  ∧ resolveEffectivePrice
      (createProductHandler
         (Some (CreateProductReq.mk "Bidon 10L" None 600 None))
         sample_reachable).2 5 2 = Some 600.
Proof.
  assert (reachable sample_reachable) as Hr
    by (apply reachable_serve, reachable_serve, reachable_empty).
  destruct (createProduct_adds sample_reachable
              (CreateProductReq.mk "Bidon 10L" None 600 None) Hr)
    as (Hok & _ & _ & Hres).
  split_and!; [exact Hr|exact Hok|apply Hres].
Defined.

(** ** Users and login *)

(** X23.  A user who was just created, with an e-mail that matches no column
    of an earlier user, logs in with that e-mail and the password of the
    request, and is refused with any other password.  The collation of
    the columns may be any relation that matches a string with itself. *)
Theorem createUser_then_login collate req db e :
  (∀ s, collate s s = true) →
  CreateUserReq.FullName req ≠ "" → CreateUserReq.RoleID req ≠ 0 →
  CreateUserReq.Password req ≠ "" →
  CreateUserReq.Email req = Some e →
  (∀ u, u ∈ t_users db →
        ¬ (matches collate e (users.email u)
           ∨ matches collate e (users.phone u)
           ∨ matches collate e (users.num_doc u))) →
  let db' := (createUserHandler (Some req) db).2 in
  basicAuthLoginHandler collate (Some (e, CreateUserReq.Password req)) db'
  = LoginJSON None StatusOK
      (L_user (User.mk (next_user_id db) (CreateUserReq.RoleID req)
                 (CreateUserReq.FullName req) (CreateUserReq.Phone req)
                 (Some e) (CreateUserReq.NumDoc req) true None))
  ∧ ∀ pw, pw ≠ CreateUserReq.Password req →
          basicAuthLoginHandler collate (Some (e, pw)) db'
          = LoginJSON (Some "Basic realm=Login") StatusUnauthorized
              (L_error "usuario o contraseña inválidos").
Proof.
  intros Hrefl Hn Hr Hpw He Hfree db'.
  assert (filter (λ u, matches collate e (users.email u)
                       ∨ matches collate e (users.phone u)
                       ∨ matches collate e (users.num_doc u))
                 (t_users db')
          = [users.mk (next_user_id db) (CreateUserReq.RoleID req)
               (CreateUserReq.FullName req) (CreateUserReq.Phone req)
               (CreateUserReq.Email req) (CreateUserReq.NumDoc req)
               (CreateUserReq.Password req) true]) as Hfilter.
  { unfold db', createUserHandler. rewrite decide_False by tauto. simpl.
    rewrite filter_app, filter_none by done.
    rewrite filter_cons_True; [done|].
    left. simpl. exists e. by rewrite He. }
  split.
  - unfold basicAuthLoginHandler. rewrite Hfilter. simpl.
    rewrite decide_False by (intros [?|?]; done). by rewrite He.
  - intros pw Hne. unfold basicAuthLoginHandler. rewrite Hfilter. simpl.
    rewrite decide_True; [done|]. right. congruence.
Qed.

Lemma createUser_then_login_witness :
  let req := CreateUserReq.mk 3 "Luis" None (Some "luis@example.com") None
               "secreto" in
  let db' := (createUserHandler (Some req) sample_db).2 in
  (∀ s, String.eqb s s = true)
  ∧ basicAuthLoginHandler String.eqb
      (Some ("luis@example.com", "secreto")) db'
    = LoginJSON None StatusOK
        (L_user (User.mk 2 3 "Luis" None (Some "luis@example.com") None
                   true None)).
Proof.
  intros req db'.
  assert (∀ s, String.eqb s s = true) as Hrefl by apply String.eqb_refl.
  split; [exact Hrefl|].
  apply (createUser_then_login String.eqb req sample_db "luis@example.com");
    [exact Hrefl|done..|].
  intros u ->%list_elem_of_singleton. simpl.
  intros [(? & ? & _)|[(? & ? & _)|(? & ? & _)]]; discriminate.
Defined.

(** X24.  [basicAuthLoginHandler] answers 200 only for credentials whose user
    name matches a stored user that is active and whose stored password
    is the password sent, and then returns that user.  Every other
    answer is a 401 with the [WWW-Authenticate] header, and a wrong
    password is answered exactly as an unknown user name. *)
Theorem login_sound collate auth db :
  let resp := basicAuthLoginHandler collate auth db in
  (login_code resp = StatusOK →
     ∃ username password r,
       auth = Some (username, password) ∧ r ∈ t_users db
       ∧ (matches collate username (users.email r)
          ∨ matches collate username (users.phone r)
          ∨ matches collate username (users.num_doc r))
       ∧ users.is_active r = true
       ∧ users.password_hash r = password
       ∧ resp = LoginJSON None StatusOK
                  (L_user (User.mk (users.id r) (users.role_id r)
                             (users.full_name r) (users.phone r)
                             (users.email r) (users.num_doc r) true None)))
  ∧ (login_code resp ≠ StatusOK →
     login_code resp = StatusUnauthorized
     ∧ WWW_Authenticate resp = Some "Basic realm=Login"
     ∧ (is_Some auth →
        resp = LoginJSON (Some "Basic realm=Login") StatusUnauthorized
                 (L_error "usuario o contraseña inválidos"))).
Proof.
  intros resp. unfold resp, basicAuthLoginHandler.
  destruct auth as [[username password]|].
  - destruct (head _) as [r|] eqn:Hhead.
    + apply head_Some_elem_of, list_elem_of_filter in Hhead as [Hm Hr].
      case_decide as Hbad; simpl.
      * split; [done|]. by intros _.
      * split; [|done]. intros _. exists username, password, r.
        destruct (users.is_active r) eqn:Ha; [|tauto].
        split_and!; try done.
        destruct (decide (users.password_hash r = password)); [done|tauto].
    + simpl. split; [done|]. by intros _.
  - simpl. split; [done|]. intros _. split_and!; [done..|].
    by intros [? ?].
Qed.

(** Sorted by a key that is unique, a list has its keys strictly
    ascending. *)
Lemma sorted_keys_strict {A} (key : A → Z) (l : list A) :
  StronglySorted (asc key) l → NoDup (key <$> l) →
  StronglySorted Z.lt (key <$> l).
Proof.
  induction 1 as [|a l _ IH Hle]; [constructor|].
  rewrite fmap_cons. intros [Hnotin Hnd]%NoDup_cons.
  constructor; [by apply IH|].
  rewrite Forall_fmap. rewrite Forall_forall in Hle |- *.
  intros x Hx. specialize (Hle x Hx). unfold asc in Hle. simpl.
  assert (key a ≠ key x); [|lia].
  intros Heq. apply Hnotin. rewrite Heq. by apply list_elem_of_fmap_2.
Qed.

(** X25.  [listUserHandler] returns the stored users with the columns the
    statement reads: id, role, name, phone, e-mail and document.  It
    does not read [is_active] nor [created_at], so a user is listed
    with [IsActive] false and without creation time, whatever is
    stored.  In a database the API produces every user is listed once:
    the ids of the list are strictly ascending, and they are the ids of
    the table. *)
Theorem listUsers_lists db :
  reachable db →
  ∃ rows,
    listUserHandler db
    = (StatusOK,
       (λ u, User.mk (users.id u) (users.role_id u) (users.full_name u)
               (users.phone u) (users.email u) (users.num_doc u)
               false None) <$> rows)
    ∧ rows ≡ₚ t_users db
    ∧ StronglySorted Z.lt (User.ID <$> (listUserHandler db).2)
    ∧ ∀ i, i ∈ User.ID <$> (listUserHandler db).2
           ↔ i ∈ users.id <$> t_users db.
Proof.
  intros Hl%reachable_lifecycle.
  assert (User.ID <$> (listUserHandler db).2
          = users.id <$> ORDER_BY users.id (t_users db)) as Hids.
  { simpl. by rewrite <- list_fmap_compose. }
  assert (ORDER_BY users.id (t_users db) ≡ₚ t_users db) as Hperm
    by apply merge_sort_Permutation.
  exists (ORDER_BY users.id (t_users db)).
  split_and!; [reflexivity|done| |].
  - rewrite Hids. apply sorted_keys_strict.
    + apply (StronglySorted_merge_sort (asc users.id)).
    + rewrite Hperm. apply Hl.
  - intros i. by rewrite Hids, Hperm.
Qed.

(** The theorem after two users were created: both are stored active
    and listed with [IsActive] false. *)
Lemma listUsers_lists_witness :
  let db := (serve 110
               (POST_users
                  (Some (CreateUserReq.mk 2 "Luis" (Some "999") None None
                           "pw2")))
               (serve 100
                  (POST_users
                     (Some (CreateUserReq.mk 3 "Ana" None (Some "ana@x") None
                              "pw1")))
                  empty_db).2).2 in
  reachable db
  ∧ users.is_active <$> t_users db = [true; true]
  ∧ listUserHandler db
    = (StatusOK,
       [User.mk 1 3 "Ana" None (Some "ana@x") None false None;
        User.mk 2 2 "Luis" (Some "999") None None false None])
  ∧ StronglySorted Z.lt (User.ID <$> (listUserHandler db).2).
Proof.
  intros db.
  assert (reachable db) as Hr
    by apply reachable_serve, reachable_serve, reachable_empty.
  destruct (listUsers_lists db Hr) as (rows & _ & _ & Hsorted & _).
  split_and!; [exact Hr|reflexivity|reflexivity|exact Hsorted].
Defined.

(** X26.  [updateUserHandler] rewrites the user that has the id, in place and
    keeping the id, and no other user.  A request without password
    keeps the stored password; a request without [is_active] makes the
    user active. *)
Theorem updateUser_rewrites_one db i u req :
  NoDup (users.id <$> t_users db) → t_users db !! i = Some u →
  UpdateUserReq.FullName req ≠ "" → UpdateUserReq.RoleID req ≠ 0 →
  let u' := users.mk (users.id u) (UpdateUserReq.RoleID req)
              (UpdateUserReq.FullName req) (UpdateUserReq.Phone req)
              (UpdateUserReq.Email req) (UpdateUserReq.NumDoc req)
              (default (users.password_hash u) (UpdateUserReq.Password req))
              (default true (UpdateUserReq.IsActive req)) in
  let result := updateUserHandler (users.id u) (Some req) db in
  t_users result.2 = <[i := u']> (t_users db)
  ∧ (u' ≠ u → result.1 = JSON StatusOK H_ok)
  ∧ (∀ j, j ≠ i → t_users result.2 !! j = t_users db !! j).
Proof.
  intros Hpk Hi Hn Hr u' result.
  assert (t_users result.2 = <[i := u']> (t_users db)) as Hdb.
  { unfold result, updateUserHandler. rewrite decide_False by tauto. simpl.
    rewrite (UPDATE_pk users.id _ _ _ i u) by done. by case_decide. }
  split_and!; [done| |].
  - intros Hne. unfold result, updateUserHandler.
    rewrite decide_False by tauto. simpl.
    rewrite decide_False; [done|].
    by apply (RowsAffected_changed _ _ _ i u).
  - intros j Hj. rewrite Hdb. by apply list_lookup_insert_ne.
Qed.

Lemma updateUser_rewrites_one_witness :
  let u := users.mk 1 3 "Ana" None None None "pw" true in
  let req := UpdateUserReq.mk 3 "Ana Maria" None None None None None in
  NoDup (users.id <$> t_users sample_db)
  ∧ t_users sample_db !! 0%nat = Some u
  ∧ t_users (updateUserHandler 1 (Some req) sample_db).2
    = [users.mk 1 3 "Ana Maria" None None None "pw" true].
Proof.
  intros u req.
  assert (NoDup (users.id <$> t_users sample_db)) as Hpk by compute_done.
  destruct (updateUser_rewrites_one sample_db 0 u req Hpk eq_refl)
    as (Hdb & _); [done..|].
  split_and!; [exact Hpk|reflexivity|exact Hdb].
Defined.

(** ** Orders that do not exist *)

(** X27.  For an id that no order has, [getOrderHandler] answers 404
    ["no encontrado"], and the assignment and status routes answer 404
    ["pedido no existe"] and change nothing.  The routes check the
    request first: a request without driver, without new status or
    without author is answered 400 although the order does not exist. *)
Theorem order_not_found now id db :
  id ∉ orders.id <$> t_orders db →
  getOrderHandler id db = JSON StatusNotFound (H_error "no encontrado")
  ∧ (∀ req, AssignOrderReq.DriverID req ≠ 0 →
            assignOrderHandler now id (Some req) db
            = (JSON StatusNotFound (H_error "pedido no existe"), db))
  ∧ (∀ req, UpdateStatusReq.NewStatus req ≠ "" →
            UpdateStatusReq.ChangedBy req ≠ 0 →
            updateOrderStatusHandler now id (Some req) db
            = (JSON StatusNotFound (H_error "pedido no existe"), db))
  ∧ (∀ req, AssignOrderReq.DriverID req = 0 →
            assignOrderHandler now id (Some req) db
            = (JSON StatusBadRequest (H_error "driver_id requerido"), db))
  ∧ (∀ req, UpdateStatusReq.NewStatus req = ""
            ∨ UpdateStatusReq.ChangedBy req = 0 →
            updateOrderStatusHandler now id (Some req) db
            = (JSON StatusBadRequest
                 (H_error "new_status y changed_by requeridos"), db)).
Proof.
  intros Hid.
  assert (∀ o, o ∈ t_orders db → orders.id o ≠ id) as Hno.
  { intros o Ho <-. apply Hid. by apply list_elem_of_fmap_2. }
  split_and!.
  - unfold getOrderHandler. by rewrite filter_none.
  - intros req Hd. by apply assignOrder_not_found.
  - intros req Hs Hby. unfold updateOrderStatusHandler.
    rewrite decide_False by tauto. by rewrite select_status_none.
  - intros req Hd. unfold assignOrderHandler. by rewrite decide_True.
  - intros req Hv. unfold updateOrderStatusHandler. by rewrite decide_True.
Qed.

Lemma order_not_found_witness :
  (5 ∉ orders.id <$> t_orders sample_reachable)
  ∧ getOrderHandler 5 sample_reachable
    = JSON StatusNotFound (H_error "no encontrado").
Proof.
  assert (5 ∉ orders.id <$> t_orders sample_reachable) as Hid.
  { intros Hin. by apply (list_elem_of_singleton (A := Z) 5 1) in Hin. }
  split; [exact Hid|].
  by destruct (order_not_found 0 5 sample_reachable Hid) as [H _].
Defined.

(** ** Addresses *)

(** X28.  [createAddressHandler] refuses a request without user or street
    with 400 and changes nothing.  Otherwise it answers 201 with the
    next address key, and [listAddressesHandler] for the user then
    returns the address as it was sent, among addresses of that user
    only and in the order of the ids; the lists of the other users are
    as before.  Without a user, [listAddressesHandler] answers 400. *)
Theorem createAddress_then_list {float64} (req : CreateAddressReq.t float64)
    (t : addresses.table float64) :
  let uid := CreateAddressReq.UserID req in
  let result := createAddressHandler (Some req) t in
  (uid = 0 ∨ CreateAddressReq.Street req = "" →
   result = (JSON StatusBadRequest (H_error "user_id y street requeridos"), t))
  ∧ (uid ≠ 0 → CreateAddressReq.Street req ≠ "" →
     result.1 = JSON StatusCreated (H_id (addresses.next_id t))
     ∧ (∃ l,
          listAddressesHandler (Some uid) result.2 = (StatusOK, inr l)
          ∧ Address.mk float64 (addresses.next_id t) uid
              (CreateAddressReq.Label req) (CreateAddressReq.Street req)
              (CreateAddressReq.Reference req) (CreateAddressReq.Lat req)
              (CreateAddressReq.Lng req) (CreateAddressReq.IsDefault req) ∈ l
          ∧ (∀ a, a ∈ l → Address.UserID a = uid)
          ∧ StronglySorted (λ a b, Address.ID a ≤ Address.ID b) l)
     ∧ (∀ uid', uid' ≠ uid →
          listAddressesHandler (Some uid') result.2
          = listAddressesHandler (Some uid') t))
  ∧ listAddressesHandler None t = (StatusBadRequest, inl "user_id requerido").
Proof.
  intros uid result. unfold result, createAddressHandler. fold uid.
  split_and!; [| |done].
  - intros Hv. by rewrite decide_True.
  - intros Hu Hs. rewrite decide_False by tauto. simpl. split_and!.
    + done.
    + eexists. split; [reflexivity|]. split_and!.
      * apply list_elem_of_fmap.
        exists (addresses.mk float64 (addresses.next_id t) uid
                  (CreateAddressReq.Label req) (CreateAddressReq.Street req)
                  (CreateAddressReq.Reference req) (CreateAddressReq.Lat req)
                  (CreateAddressReq.Lng req) (CreateAddressReq.IsDefault req)).
        split; [done|]. unfold ORDER_BY. rewrite merge_sort_Permutation.
        apply list_elem_of_filter. split; [done|].
        apply elem_of_app. right. by left.
      * intros a (r & -> & Hr)%list_elem_of_fmap.
        unfold ORDER_BY in Hr. rewrite merge_sort_Permutation in Hr.
        by apply list_elem_of_filter in Hr as [? _].
      * apply (StronglySorted_fmap _ (asc addresses.id)); [done|].
        apply StronglySorted_merge_sort; apply _.
    + intros uid' Hne. unfold listAddressesHandler. simpl.
      rewrite filter_app, filter_cons_False, app_nil_r; [done|].
      simpl. congruence.
Qed.
